(** * Claude usage monitor: refresh orchestration, retry and local data

    A shallow embedding of the TypeScript core of the extension:

    - [utils/retry.ts]               ([calculateDelay], [withRetry], ...)
    - [services/ClaudeAPIService.ts] ([fetchQuota] and the OAuth refresh)
    - [services/ClaudeDataService.ts] ([loadMetrics], [getWeeklyStats])
    - [services/FileWatcher.ts]      (the debounced change notifier)
    - [services/RefreshManager.ts]   (the orchestrator)
    - [models/UsageMetrics.ts]       (the data model)
    - [utils/htmlEscape.ts]          ([escapeHtml], [escapeJs], [safeJsonEncode])
    - [views/StatusBarManager.ts]    ([getWeeklyMessages], [formatResetTime])

    Conventions.  JavaScript numbers that hold counts, timestamps and
    milliseconds are integers ([Z]).  The retry primitive is there twice: as
    [fetchQuota] calls it, with exact rationals ([Q]) for delays and
    multipliers, and for every options object, in [Retry], with the doubles
    of JavaScript ([number]: [NaN], the infinities, and rounded results).
    An optional or possibly missing property is an [option].  Objects used as
    dictionaries are [gmap string _].
    Asynchronous code runs in a state monad over a [World] that holds the
    clock, the two files, the two HTTP endpoints (as streams of outcomes), the
    random source, the heap of snapshot objects and a trace of the observable
    calls. *)

From Stdlib Require Import ZArith QArith Qround Qminmax Lia Lqa List Ascii String.
From Stdlib Require Import Sorted.
From Stdlib Require OrderedTypeEx.
From stdpp Require Import base gmap strings list pretty.
Import ListNotations.
Open Scope Z_scope.

(** ** JavaScript idioms *)

(** [x || 0] on a number that may be missing. *)
Definition orZero (x : option Z) : Z :=
  match x with
  | Some n => n
  | None => 0
  end.

(** [s || d] on a string that may be missing: the empty string is falsy. *)
Definition orString (s : option string) (d : string) : string :=
  match s with
  | Some EmptyString => d
  | Some v => v
  | None => d
  end.

(** [s || null]. *)
Definition orNull (s : option string) : option string :=
  match s with
  | Some EmptyString => None
  | other => other
  end.

(** [o || {}] and [a || []]. *)
Definition orEmptyMap {V} (m : option (gmap string V)) : gmap string V :=
  match m with
  | Some v => v
  | None => ∅
  end.

Definition orEmptyList {A} (l : option (list A)) : list A :=
  match l with
  | Some v => v
  | None => []
  end.

(** [Object.values(o).reduce((sum, t) => sum + t, 0)]. *)
Definition sumValues (m : gmap string Z) : Z :=
  map_fold (fun _ t sum => sum + t) 0 m.

(** [Array.prototype.find]. *)
Fixpoint jsFind {A} (p : A -> bool) (l : list A) : option A :=
  match l with
  | [] => None
  | x :: rest => if p x then Some x else jsFind p rest
  end.

(** [String.prototype.toLowerCase] on ASCII text. *)
Definition lowerAscii (c : ascii) : ascii :=
  let n := nat_of_ascii c in
  if (Nat.leb 65 n && Nat.leb n 90)%bool then ascii_of_nat (n + 32) else c.

Fixpoint toLowerCase (s : string) : string :=
  match s with
  | EmptyString => EmptyString
  | String c rest => String (lowerAscii c) (toLowerCase rest)
  end.

(** [String.prototype.includes]. *)
Definition includes (s sub : string) : bool :=
  match String.index 0 sub s with
  | Some _ => true
  | None => false
  end.

(** [s.split(' ')]. *)
Fixpoint splitSpaceAux (cur : string) (s : string) : list string :=
  match s with
  | EmptyString => [cur]
  | String c rest =>
      if Ascii.eqb c " "%char then cur :: splitSpaceAux EmptyString rest
      else splitSpaceAux (cur ++ String c EmptyString)%string rest
  end.

Definition splitSpace (s : string) : list string := splitSpaceAux EmptyString s.

(** Comparison of strings with [>=]: code units, lexicographically. *)
Definition strGe (a b : string) : bool := String.leb b a.

(** ** Dates

    A [Date] is an instant, in milliseconds since the epoch.
    [setDate(getDate() - n)] keeps the time of day on the wall and goes back
    [n] calendar days of the local time zone: [setDateMinusIn] below.  Where
    the zone is as far from UTC at both ends (a zone without daylight saving,
    or two dates with no change of the clocks between them) that moves the
    instant by [n] whole days: [setDateMinus]. *)

Definition MS_PER_DAY : Z := 86400000.

Definition utcDay (ms : Z) : Z := ms / MS_PER_DAY.

Definition setDateMinus (ms : Z) (days : Z) : Z := ms - days * MS_PER_DAY.

(** A time zone, by its offsets from UTC in milliseconds: [offsetAt t] is the
    one in force at the instant [t] ([LocalTZA(t, true)] of ECMAScript),
    [offsetOfLocal t] the one for the local time [t] ([LocalTZA(t, false)]),
    which for a time of day that a change of the clocks skips or repeats is
    the offset before the change. *)
Module TimeZone.
Record t := mk {
  offsetAt : Z -> Z;
  offsetOfLocal : Z -> Z
}.

Definition fixed (offsetMs : Z) : t := mk (fun _ => offsetMs) (fun _ => offsetMs).
End TimeZone.

(** [date.setDate(date.getDate() - days)] in a time zone: the local time of
    the instant, [days] days earlier, taken back to an instant. *)
Definition setDateMinusIn (zone : TimeZone.t) (ms : Z) (days : Z) : Z :=
  let local := ms + TimeZone.offsetAt zone ms in
  let moved := local - days * MS_PER_DAY in
  moved - TimeZone.offsetOfLocal zone moved.

(** The civil date of a day number (days since 1970-01-01). *)
Definition civilFromDays (days : Z) : Z * Z * Z :=
  let z := days + 719468 in
  let era := z / 146097 in
  let doe := z - era * 146097 in
  let yoe := (doe - doe / 1460 + doe / 36524 - doe / 146096) / 365 in
  let y := yoe + era * 400 in
  let doy := doe - (365 * yoe + yoe / 4 - yoe / 100) in
  let mp := (5 * doy + 2) / 153 in
  let d := doy - (153 * mp + 2) / 5 + 1 in
  let m := if mp <? 10 then mp + 3 else mp - 9 in
  (if m <=? 2 then y + 1 else y, m, d).

Definition digit (n : Z) : ascii := ascii_of_nat (48 + Z.to_nat (n mod 10)).

Definition pad2 (n : Z) : string :=
  String (digit (n / 10)) (String (digit n) EmptyString).

Definition pad4 (n : Z) : string :=
  String (digit (n / 1000)) (String (digit (n / 100)) (pad2 n)).

(** [date.toISOString().split('T')[0]], for the years 0000 to 9999. *)
Definition isoDateOfDay (days : Z) : string :=
  let '(y, m, d) := civilFromDays days in
  (pad4 y ++ "-" ++ pad2 m ++ "-" ++ pad2 d)%string.

Definition toISODate (ms : Z) : string := isoDateOfDay (utcDay ms).

(** The calendar date a clock on the wall shows, [offsetMin] minutes east of
    UTC.  The code never asks for it; the specification speaks of it. *)
Definition localISODate (ms offsetMin : Z) : string :=
  isoDateOfDay (utcDay (ms + offsetMin * 60000)).

(** ** Data model ([models/UsageMetrics.ts]) *)

Module QuotaUsage.
Record t := mk {
  utilization : Q;
  resets_at : option string
}.
End QuotaUsage.

Module QuotaData.
Record t := mk {
  five_hour : option QuotaUsage.t;
  seven_day : option QuotaUsage.t;
  seven_day_oauth_apps : option QuotaUsage.t;
  seven_day_opus : option QuotaUsage.t
}.
End QuotaData.

Module ModelUsage.
Record t := mk {
  inputTokens : option Z;
  outputTokens : option Z;
  cacheReadInputTokens : option Z;
  cacheCreationInputTokens : option Z;
  webSearchRequests : option Z;
  costUSD : option Q;
  contextWindow : option Z
}.
End ModelUsage.

Module DailyActivity.
Record t := mk {
  date : string;
  messageCount : option Z;
  sessionCount : option Z;
  toolCallCount : option Z
}.
End DailyActivity.

Module DailyModelTokens.
Record t := mk {
  date : string;
  tokensByModel : option (gmap string Z)
}.
End DailyModelTokens.

Module LongestSession.
Record t := mk {
  sessionId : string;
  duration : Z;
  messageCount : Z;
  timestamp : string
}.
End LongestSession.

(** The parsed stats cache.  The file is read with an unchecked cast; the code
    guards every property with [||] or [?.], so every property may be missing.
    The guards do not cover a property that is there and is no array where
    [find] is called on it: [dailyModelTokensFalsy] says that
    [dailyModelTokens] holds [0], [false] or the empty string (the list is
    [None] then).  Such a value is falsy, so [||] puts [[]] in its place; it
    is neither [null] nor [undefined], so [?.] goes on to call a [find] that
    it does not have. *)
Module StatsCache.
Record t := mk {
  version : option Z;
  lastComputedDate : option string;
  dailyActivity : option (list DailyActivity.t);
  dailyModelTokens : option (list DailyModelTokens.t);
  modelUsage : option (gmap string ModelUsage.t);
  totalSessions : option Z;
  totalMessages : option Z;
  longestSession : option LongestSession.t;
  firstSessionDate : option string;
  hourCounts : option (gmap string Z);
  dailyModelTokensFalsy : bool
}.
End StatsCache.

Module OAuthCredentials.
Record t := mk {
  accessToken : string;
  refreshToken : string;
  expiresAt : Z;
  scopes : list string;
  subscriptionType : option string;
  rateLimitTier : option string
}.
End OAuthCredentials.

(** A JSON value that the code carries along without looking inside. *)
#[local] Unset Elimination Schemes.
Inductive Json :=
| JNull
| JBool (b : bool)
| JNumber (n : Z)
| JString (s : string)
| JArray (items : list Json)
| JObject (members : list (string * Json)).
#[local] Set Elimination Schemes.

(** The credentials file: the [claudeAiOauth] member and every other member. *)
Module CredentialsFile.
Record t := mk {
  claudeAiOauth : option OAuthCredentials.t;
  otherFields : gmap string Json
}.
End CredentialsFile.

Module UsageMetrics.
Record t := mk {
  subscriptionType : string;
  rateLimitTier : string;
  todayTokens : Z;
  todayMessages : Z;
  todaySessions : Z;
  todayToolCalls : Z;
  modelUsage : gmap string ModelUsage.t;
  totalSessions : Z;
  totalMessages : Z;
  longestSession : option LongestSession.t;
  firstSessionDate : option string;
  lastComputedDate : option string;
  dailyActivity : list DailyActivity.t;
  dailyModelTokens : list DailyModelTokens.t;
  hourlyDistribution : gmap string Z;
  totalInputTokens : Z;
  totalOutputTokens : Z;
  totalCacheReadTokens : Z;
  totalCacheCreationTokens : Z;
  quota : option QuotaData.t;
  quotaError : option string;
  lastUpdated : Z;
  dataAvailable : bool;
  error : option string
}.

Definition setError (e : option string) (m : t) : t :=
  mk (subscriptionType m) (rateLimitTier m) (todayTokens m) (todayMessages m)
     (todaySessions m) (todayToolCalls m) (modelUsage m) (totalSessions m)
     (totalMessages m) (longestSession m) (firstSessionDate m)
     (lastComputedDate m) (dailyActivity m) (dailyModelTokens m)
     (hourlyDistribution m) (totalInputTokens m) (totalOutputTokens m)
     (totalCacheReadTokens m) (totalCacheCreationTokens m) (quota m)
     (quotaError m) (lastUpdated m) (dataAvailable m) e.

Definition setSubscription (sub tier : string) (m : t) : t :=
  mk sub tier (todayTokens m) (todayMessages m)
     (todaySessions m) (todayToolCalls m) (modelUsage m) (totalSessions m)
     (totalMessages m) (longestSession m) (firstSessionDate m)
     (lastComputedDate m) (dailyActivity m) (dailyModelTokens m)
     (hourlyDistribution m) (totalInputTokens m) (totalOutputTokens m)
     (totalCacheReadTokens m) (totalCacheCreationTokens m) (quota m)
     (quotaError m) (lastUpdated m) (dataAvailable m) (error m).

Definition setAvailable (stamp : Z) (m : t) : t :=
  mk (subscriptionType m) (rateLimitTier m) (todayTokens m) (todayMessages m)
     (todaySessions m) (todayToolCalls m) (modelUsage m) (totalSessions m)
     (totalMessages m) (longestSession m) (firstSessionDate m)
     (lastComputedDate m) (dailyActivity m) (dailyModelTokens m)
     (hourlyDistribution m) (totalInputTokens m) (totalOutputTokens m)
     (totalCacheReadTokens m) (totalCacheCreationTokens m) (quota m)
     (quotaError m) stamp true (error m).

Definition setQuota (q : option QuotaData.t) (m : t) : t :=
  mk (subscriptionType m) (rateLimitTier m) (todayTokens m) (todayMessages m)
     (todaySessions m) (todayToolCalls m) (modelUsage m) (totalSessions m)
     (totalMessages m) (longestSession m) (firstSessionDate m)
     (lastComputedDate m) (dailyActivity m) (dailyModelTokens m)
     (hourlyDistribution m) (totalInputTokens m) (totalOutputTokens m)
     (totalCacheReadTokens m) (totalCacheCreationTokens m) q
     (quotaError m) (lastUpdated m) (dataAvailable m) (error m).

Definition setQuotaError (e : option string) (m : t) : t :=
  mk (subscriptionType m) (rateLimitTier m) (todayTokens m) (todayMessages m)
     (todaySessions m) (todayToolCalls m) (modelUsage m) (totalSessions m)
     (totalMessages m) (longestSession m) (firstSessionDate m)
     (lastComputedDate m) (dailyActivity m) (dailyModelTokens m)
     (hourlyDistribution m) (totalInputTokens m) (totalOutputTokens m)
     (totalCacheReadTokens m) (totalCacheCreationTokens m) (quota m)
     e (lastUpdated m) (dataAvailable m) (error m).
End UsageMetrics.

(** [createEmptyMetrics()]; [stamp] is the [new Date()] it takes. *)
Definition createEmptyMetrics (stamp : Z) : UsageMetrics.t :=
  {| UsageMetrics.subscriptionType := "unknown";
     UsageMetrics.rateLimitTier := "unknown";
     UsageMetrics.todayTokens := 0;
     UsageMetrics.todayMessages := 0;
     UsageMetrics.todaySessions := 0;
     UsageMetrics.todayToolCalls := 0;
     UsageMetrics.modelUsage := ∅;
     UsageMetrics.totalSessions := 0;
     UsageMetrics.totalMessages := 0;
     UsageMetrics.longestSession := None;
     UsageMetrics.firstSessionDate := None;
     UsageMetrics.lastComputedDate := None;
     UsageMetrics.dailyActivity := [];
     UsageMetrics.dailyModelTokens := [];
     UsageMetrics.hourlyDistribution := ∅;
     UsageMetrics.totalInputTokens := 0;
     UsageMetrics.totalOutputTokens := 0;
     UsageMetrics.totalCacheReadTokens := 0;
     UsageMetrics.totalCacheCreationTokens := 0;
     UsageMetrics.quota := None;
     UsageMetrics.quotaError := None;
     UsageMetrics.lastUpdated := stamp;
     UsageMetrics.dataAvailable := false;
     UsageMetrics.error := None |}.

(** ** The world the asynchronous code runs in *)

(** A file: missing, present but not JSON, or present with a JSON value. *)
Inductive FileState (A : Type) :=
| Absent
| Corrupt
| Parsed (value : A).
Arguments Absent {A}.
Arguments Corrupt {A}.
Arguments Parsed {A} value.

(** What one request to the usage endpoint ends in. *)
Inductive ApiOutcome :=
| Response (statusCode : option Z) (body : option (option QuotaData.t))
    (** the [end] event; [body] is what [JSON.parse(data)] gives for the
        text received: [None] when it throws, [Some None] for a body that
        parses to a falsy value, [Some (Some q)] for a quota object *)
| RequestTimeout
| RequestError (message : string).

(** The body of a 200 answer of the token endpoint. *)
Module TokenResponse.
Record t := mk {
  access_token : string;
  refresh_token : option string;
  expires_in : Z;
  scope : option string;
  subscription_type : option string;
  rate_limit_tier : option string
}.
End TokenResponse.

Inductive TokenOutcome :=
| TokenAnswer (statusCode : option Z) (body : option TokenResponse.t)
    (** [body = None]: [JSON.parse] throws *)
| TokenTimeout
| TokenRequestError (message : string).

(** References to snapshot objects. *)
Definition loc := nat.

Inductive Event :=
| EvFnInvoked (attempt : Z)          (** [withRetry] called [fn] *)
| EvSleep (ms : Z)                    (** [sleep(ms)] *)
| EvUsageRequest (accessToken : string)
| EvTokenRequest (refreshToken : string)
| EvCredentialsWritten
| EvLoadMetrics                       (** [dataService.loadMetrics()] called *)
| EvFetchQuota                        (** [apiService.fetchQuota()] called *)
| EvRefreshStarted                    (** [_onRefreshStarted.fire()] *)
| EvMetricsUpdated (l : loc)          (** [_onMetricsUpdated.fire(metrics)] *)
| EvResolved (caller : nat) (l : loc) (** a [refresh()] promise resolved *).

Record World := mkWorld {
  now : Z;                                   (** [Date.now()] *)
  dataDirExists : bool;
  statsFile : FileState StatsCache.t;        (** [stats-cache.json] *)
  credFile : FileState CredentialsFile.t;    (** [.credentials.json] *)
  credWritable : bool;                       (** [writeFile] on it succeeds *)
  credWriteTears : bool;                     (** a [writeFile] on it that fails
                                                 has truncated it before *)
  watchAvailable : bool;                     (** [fs.watch] does not throw *)
  usageApi : nat -> ApiOutcome;              (** outcome of the n-th request *)
  usageCalls : nat;
  tokenApi : nat -> TokenOutcome;
  tokenCalls : nat;
  randomDraws : nat -> Q;                    (** the n-th [Math.random()] *)
  randomCalls : nat;
  heap : list UsageMetrics.t;                (** the snapshot objects *)
  trace : list Event
}.

Definition setNow (t : Z) (w : World) : World :=
  mkWorld t (dataDirExists w) (statsFile w) (credFile w) (credWritable w) (credWriteTears w)
    (watchAvailable w)
    (usageApi w) (usageCalls w) (tokenApi w) (tokenCalls w)
    (randomDraws w) (randomCalls w) (heap w) (trace w).

Definition setCredFile (f : FileState CredentialsFile.t) (w : World) : World :=
  mkWorld (now w) (dataDirExists w) (statsFile w) f (credWritable w) (credWriteTears w)
    (watchAvailable w)
    (usageApi w) (usageCalls w) (tokenApi w) (tokenCalls w)
    (randomDraws w) (randomCalls w) (heap w) (trace w).

Definition setUsageCalls (n : nat) (w : World) : World :=
  mkWorld (now w) (dataDirExists w) (statsFile w) (credFile w) (credWritable w) (credWriteTears w)
    (watchAvailable w)
    (usageApi w) n (tokenApi w) (tokenCalls w)
    (randomDraws w) (randomCalls w) (heap w) (trace w).

Definition setTokenCalls (n : nat) (w : World) : World :=
  mkWorld (now w) (dataDirExists w) (statsFile w) (credFile w) (credWritable w) (credWriteTears w)
    (watchAvailable w)
    (usageApi w) (usageCalls w) (tokenApi w) n
    (randomDraws w) (randomCalls w) (heap w) (trace w).

Definition setRandomCalls (n : nat) (w : World) : World :=
  mkWorld (now w) (dataDirExists w) (statsFile w) (credFile w) (credWritable w) (credWriteTears w)
    (watchAvailable w)
    (usageApi w) (usageCalls w) (tokenApi w) (tokenCalls w)
    (randomDraws w) n (heap w) (trace w).

Definition setHeap (h : list UsageMetrics.t) (w : World) : World :=
  mkWorld (now w) (dataDirExists w) (statsFile w) (credFile w) (credWritable w) (credWriteTears w)
    (watchAvailable w)
    (usageApi w) (usageCalls w) (tokenApi w) (tokenCalls w)
    (randomDraws w) (randomCalls w) h (trace w).

Definition setTrace (t : list Event) (w : World) : World :=
  mkWorld (now w) (dataDirExists w) (statsFile w) (credFile w) (credWritable w) (credWriteTears w)
    (watchAvailable w)
    (usageApi w) (usageCalls w) (tokenApi w) (tokenCalls w)
    (randomDraws w) (randomCalls w) (heap w) t.

(** The state monad of the asynchronous code. *)
Definition M (A : Type) : Type := World -> A * World.

Definition ret {A} (a : A) : M A := fun w => (a, w).

Definition bind {A B} (c : M A) (k : A -> M B) : M B :=
  fun w => let '(a, w') := c w in k a w'.

Notation "x <- c ;; k" := (bind c (fun x => k))
  (at level 100, c at next level, right associativity).
Notation "c ;;; k" := (bind c (fun _ => k))
  (at level 100, right associativity).

Definition emit (e : Event) : M unit :=
  fun w => (tt, setTrace (trace w ++ [e]) w).

Definition dateNow : M Z := fun w => (now w, w).

(** [Math.random()]. *)
Definition mathRandom : M Q :=
  fun w => (randomDraws w (randomCalls w), setRandomCalls (S (randomCalls w)) w).

(** [sleep(ms)]: the timer runs for [ms] milliseconds, not at all when [ms]
    is not positive. *)
Definition sleep (ms : Z) : M unit :=
  fun w => (tt, setNow (now w + Z.max 0 ms) (setTrace (trace w ++ [EvSleep ms]) w)).

(** [new] for a snapshot object. *)
Definition alloc (m : UsageMetrics.t) : M loc :=
  fun w => (length (heap w), setHeap (heap w ++ [m]) w).

(** ** [utils/retry.ts]

    The function as [fetchQuota] calls it: with options that are left out
    ([None]) or are numbers, [maxAttempts] a whole one, and with the
    arithmetic of [calculateDelay] carried out exactly.  [Retry] further down
    is the function for every options object and in doubles. *)

Module RetryOptions.
Record t (E : Type) := mk {
  maxAttempts : option Z;
  initialDelayMs : option Q;
  maxDelayMs : option Q;
  backoffMultiplier : option Q;
  jitter : option bool;
  isRetryable : option (E -> bool)
}.
Arguments mk {E}.
Arguments maxAttempts {E}.
Arguments initialDelayMs {E}.
Arguments maxDelayMs {E}.
Arguments backoffMultiplier {E}.
Arguments jitter {E}.
Arguments isRetryable {E}.
End RetryOptions.

(** [Required<RetryOptions>]. *)
Module Resolved.
Record t (E : Type) := mk {
  maxAttempts : Z;
  initialDelayMs : Q;
  maxDelayMs : Q;
  backoffMultiplier : Q;
  jitter : bool;
  isRetryable : E -> bool
}.
Arguments mk {E}.
Arguments maxAttempts {E}.
Arguments initialDelayMs {E}.
Arguments maxDelayMs {E}.
Arguments backoffMultiplier {E}.
Arguments jitter {E}.
Arguments isRetryable {E}.
End Resolved.

Definition DEFAULT_OPTIONS {E} : Resolved.t E :=
  Resolved.mk 3 1000%Q 10000%Q 2%Q true (fun _ => true).

(** [{ ...DEFAULT_OPTIONS, ...options }]. *)
Definition mergeOptions {E} (options : option (RetryOptions.t E)) : Resolved.t E :=
  match options with
  | None => DEFAULT_OPTIONS
  | Some o =>
      Resolved.mk
        (default (Resolved.maxAttempts (@DEFAULT_OPTIONS E)) (RetryOptions.maxAttempts o))
        (default (Resolved.initialDelayMs (@DEFAULT_OPTIONS E)) (RetryOptions.initialDelayMs o))
        (default (Resolved.maxDelayMs (@DEFAULT_OPTIONS E)) (RetryOptions.maxDelayMs o))
        (default (Resolved.backoffMultiplier (@DEFAULT_OPTIONS E)) (RetryOptions.backoffMultiplier o))
        (default (Resolved.jitter (@DEFAULT_OPTIONS E)) (RetryOptions.jitter o))
        (default (Resolved.isRetryable (@DEFAULT_OPTIONS E)) (RetryOptions.isRetryable o))
  end.

(** [calculateDelay]. *)
Definition calculateDelay (attempt : Z) (initialDelayMs maxDelayMs backoffMultiplier : Q)
    (jitter : bool) : M Z :=
  let delay := (initialDelayMs * Qpower backoffMultiplier attempt)%Q in
  let delay := Qmin delay maxDelayMs in
  if jitter then
    r <- mathRandom ;;
    let jitterAmount := (delay * (1 # 2) * r)%Q in
    ret (Qfloor (delay + jitterAmount)%Q)
  else ret (Qfloor delay).

(** How an [async] function ends: it returns, it throws a value, or it throws
    [undefined]. *)
Inductive Completion (T E : Type) :=
| Returned (v : T)
| Threw (e : E)
| ThrewUndefined.
Arguments Returned {T E} v.
Arguments Threw {T E} e.
Arguments ThrewUndefined {T E}.

(** [throw lastError]. *)
Definition throwLast {T E} (lastError : option E) : Completion T E :=
  match lastError with
  | Some e => Threw e
  | None => ThrewUndefined
  end.

Section WithRetry.
Context {T E : Type}.
Variable fn : M (T + E).
Variable opts : Resolved.t E.

(** The [for] loop of [withRetry]; [remaining] counts the iterations that
    [attempt < opts.maxAttempts] still lets through. *)
Fixpoint retryLoop (remaining : nat) (attempt : Z) (lastError : option E)
    : M (Completion T E) :=
  match remaining with
  | O => ret (throwLast lastError)
  | S k =>
      emit (EvFnInvoked attempt) ;;;
      r <- fn ;;
      match r with
      | inl v => ret (Returned v)
      | inr error =>
          if negb (Resolved.isRetryable opts error) then ret (Threw error)
          else
            (if attempt <? Resolved.maxAttempts opts - 1 then
               delay <- calculateDelay attempt (Resolved.initialDelayMs opts)
                          (Resolved.maxDelayMs opts) (Resolved.backoffMultiplier opts)
                          (Resolved.jitter opts) ;;
               sleep delay
             else ret tt) ;;;
            retryLoop k (attempt + 1) (Some error)
      end
  end.
End WithRetry.

Definition withRetry {T E} (fn : M (T + E)) (options : option (RetryOptions.t E))
    : M (Completion T E) :=
  let opts := mergeOptions options in
  retryLoop fn opts (Z.to_nat (Resolved.maxAttempts opts)) 0 None.

(** [isRetryableHttpStatus]. *)
Definition isRetryableHttpStatus (statusCode : Z) : bool :=
  existsb (Z.eqb statusCode) [408; 429; 500; 502; 503; 504].

(** Values that are thrown: instances of [RetryableAPIError], other instances
    of [Error], and values that are not errors. *)
Inductive JsError :=
| RetryableAPIError (message : string) (statusCode : option Z)
| OtherError (message : string)
| NotAnError.

Definition errorMessage (e : JsError) : option string :=
  match e with
  | RetryableAPIError m _ => Some m
  | OtherError m => Some m
  | NotAnError => None
  end.

(** [isNetworkError]. *)
Definition isNetworkError (error : JsError) : bool :=
  match errorMessage error with
  | Some m =>
      let message := toLowerCase m in
      includes message "timeout" ||
      includes message "econnreset" ||
      includes message "econnrefused" ||
      includes message "enotfound" ||
      includes message "network" ||
      includes message "socket"
  | None => false
  end.

(** ** The numbers of JavaScript *)

(** A number: a double.  [Finite q] is the double of value [q]; the two zeros
    are one. *)
Inductive number :=
| NaN
| PosInf
| NegInf
| Finite (q : Q).

Module Double.

Definition ofZ (z : Z) : number := Finite (inject_Z z).

(** [ToNumber] of a number that may be [undefined]. *)
Definition toNumber (x : option number) : number :=
  match x with
  | Some n => n
  | None => NaN
  end.

(** [2^e] for a whole [e]. *)
Definition pow2 (e : Z) : Q := Qpower 2 e.

(** The [e] with [2^e <= q < 2^(e+1)], for a positive [q]. *)
Definition binade (q : Q) : Z :=
  let e := Z.log2 (Qnum q) - Z.log2 (Zpos (Qden q)) in
  if Qle_bool (pow2 e) q then e else e - 1.

(** The nearest whole number, the even one of two that are as near. *)
Definition roundHalfEven (q : Q) : Z :=
  let f := Qfloor q in
  match Qcompare (q - inject_Z f) (1 # 2) with
  | Lt => f
  | Gt => f + 1
  | Eq => if Z.even f then f else f + 1
  end.

Definition roundPositive (q : Q) : number :=
  let e := Z.max (binade q - 52) (-1074) in
  let v := (inject_Z (roundHalfEven (q / pow2 e)) * pow2 e)%Q in
  if Qle_bool (pow2 1024) v then PosInf else Finite (Qred v).

Definition negate (a : number) : number :=
  match a with
  | NaN => NaN
  | PosInf => NegInf
  | NegInf => PosInf
  | Finite q => Finite (Qred (- q))
  end.

(** The double nearest to a real number, as IEEE 754 rounds the exact result
    of an operation: to 53 significant bits, ties to the even one, to an
    infinity from [2^1024 - 2^970] on, in steps of [2^-1074] near zero. *)
Definition binary64 (q : Q) : number :=
  match Qcompare q 0 with
  | Eq => Finite 0
  | Gt => roundPositive q
  | Lt => negate (roundPositive (- q))
  end.

Definition isNegative (a : number) : bool :=
  match a with
  | NegInf => true
  | Finite q => negb (Qle_bool 0 q)
  | _ => false
  end.

Definition isZero (a : number) : bool :=
  match a with
  | Finite q => Qeq_bool q 0
  | _ => false
  end.

Definition infinity (negative : bool) : number := if negative then NegInf else PosInf.

Section Operations.
(** How the exact result of an operation becomes a double. *)
Variable round : Q -> number.

(** [a * b]. *)
Definition times (a b : number) : number :=
  match a, b with
  | NaN, _ | _, NaN => NaN
  | Finite x, Finite y => round (x * y)
  | _, _ =>
      if isZero a || isZero b then NaN
      else infinity (xorb (isNegative a) (isNegative b))
  end.

(** [a + b]. *)
Definition plus (a b : number) : number :=
  match a, b with
  | NaN, _ | _, NaN => NaN
  | Finite x, Finite y => round (x + y)
  | PosInf, NegInf | NegInf, PosInf => NaN
  | PosInf, _ | _, PosInf => PosInf
  | NegInf, _ | _, NegInf => NegInf
  end.

(** [a - b]. *)
Definition minus (a b : number) : number :=
  match a, b with
  | NaN, _ | _, NaN => NaN
  | Finite x, Finite y => round (x - y)
  | PosInf, PosInf | NegInf, NegInf => NaN
  | PosInf, _ | _, NegInf => PosInf
  | NegInf, _ | _, PosInf => NegInf
  end.
End Operations.

(** [a < b]. *)
Definition lt (a b : number) : bool :=
  match a, b with
  | NaN, _ | _, NaN => false
  | Finite x, Finite y => negb (Qle_bool y x)
  | _, NegInf | PosInf, _ => false
  | NegInf, _ | _, PosInf => true
  end.

(** [Math.min(a, b)]. *)
Definition min (a b : number) : number :=
  match a, b with
  | NaN, _ | _, NaN => NaN
  | NegInf, _ | _, NegInf => NegInf
  | PosInf, other | other, PosInf => other
  | Finite x, Finite y => if Qle_bool x y then a else b
  end.

(** [Math.floor(a)]. *)
Definition floor (a : number) : number :=
  match a with
  | Finite q => Finite (inject_Z (Qfloor q))
  | other => other
  end.

(** [Math.pow(base, exponent)] for an exponent that is a whole number, as the
    attempt counter is: the power, rounded once. *)
Definition pow (base exponent : number) : number :=
  match exponent with
  | Finite n =>
      let k := Qfloor n in
      if k =? 0 then Finite 1
      else
        match base with
        | NaN => NaN
        | Finite b =>
            if Qeq_bool b 0 then (if k <? 0 then PosInf else Finite 0)
            else binary64 (Qpower b k)
        | PosInf => if k <? 0 then Finite 0 else PosInf
        | NegInf => if k <? 0 then Finite 0 else if Z.even k then PosInf else NegInf
        end
  | _ => NaN
  end.

(** The same value. *)
Definition same (a b : number) : Prop :=
  match a, b with
  | NaN, NaN | PosInf, PosInf | NegInf, NegInf => True
  | Finite x, Finite y => x == y
  | _, _ => False
  end.
End Double.

(** ** [utils/retry.ts], for every options object and in doubles *)

Module Retry.

(** A property of the options object: left out, or there with a value, which
    may be [undefined]. *)
Inductive Property (A : Type) :=
| Missing
| Present (value : option A).
Arguments Missing {A}.
Arguments Present {A} value.

(** [RetryOptions], as the caller passes it. *)
Module Options.
Record t (E : Type) := mk {
  maxAttempts : Property number;
  initialDelayMs : Property number;
  maxDelayMs : Property number;
  backoffMultiplier : Property number;
  jitter : Property bool;
  isRetryable : Property (E -> bool)
}.
Arguments mk {E}.
Arguments maxAttempts {E}.
Arguments initialDelayMs {E}.
Arguments maxDelayMs {E}.
Arguments backoffMultiplier {E}.
Arguments jitter {E}.
Arguments isRetryable {E}.
End Options.

(** The object that the spread makes: every property is there, and holds
    [undefined] where the caller has passed that. *)
Module Merged.
Record t (E : Type) := mk {
  maxAttempts : option number;
  initialDelayMs : option number;
  maxDelayMs : option number;
  backoffMultiplier : option number;
  jitter : option bool;
  isRetryable : option (E -> bool)
}.
Arguments mk {E}.
Arguments maxAttempts {E}.
Arguments initialDelayMs {E}.
Arguments maxDelayMs {E}.
Arguments backoffMultiplier {E}.
Arguments jitter {E}.
Arguments isRetryable {E}.
End Merged.

Definition DEFAULT_OPTIONS {E} : Merged.t E :=
  Merged.mk (Some (Double.ofZ 3)) (Some (Double.ofZ 1000)) (Some (Double.ofZ 10000))
    (Some (Double.ofZ 2)) (Some true) (Some (fun _ => true)).

(** One property of [{ ...DEFAULT_OPTIONS, ...options }]: a property that is
    there replaces the default, whatever it holds. *)
Definition spread {A} (default : option A) (passed : Property A) : option A :=
  match passed with
  | Missing => default
  | Present value => value
  end.

(** [{ ...DEFAULT_OPTIONS, ...options }]; [None] is an argument that is left
    out or [undefined], which the default [{}] of the parameter replaces. *)
Definition mergeOptions {E} (options : option (Options.t E)) : Merged.t E :=
  match options with
  | None => DEFAULT_OPTIONS
  | Some o =>
      Merged.mk
        (spread (Merged.maxAttempts (@DEFAULT_OPTIONS E)) (Options.maxAttempts o))
        (spread (Merged.initialDelayMs (@DEFAULT_OPTIONS E)) (Options.initialDelayMs o))
        (spread (Merged.maxDelayMs (@DEFAULT_OPTIONS E)) (Options.maxDelayMs o))
        (spread (Merged.backoffMultiplier (@DEFAULT_OPTIONS E)) (Options.backoffMultiplier o))
        (spread (Merged.jitter (@DEFAULT_OPTIONS E)) (Options.jitter o))
        (spread (Merged.isRetryable (@DEFAULT_OPTIONS E)) (Options.isRetryable o))
  end.

(** [if (jitter)]: [undefined] is falsy. *)
Definition truthy (b : option bool) : bool :=
  match b with
  | Some v => v
  | None => false
  end.

(** What a call of [withRetry] leaves to be seen: the calls of [fn] and the
    sleeps. *)
Inductive Mark :=
| Called (attempt : Z)
| Slept (ms : number).

(** How the promise of [withRetry] settles: with the value of [fn]; with a
    value that [fn] threw; with [undefined]; or with the [TypeError] of
    calling an [isRetryable] that is [undefined]. *)
Inductive Settled (T E : Type) :=
| Fulfilled (v : T)
| Rejected (e : E)
| RejectedUndefined
| RejectedTypeError.
Arguments Fulfilled {T E} v.
Arguments Rejected {T E} e.
Arguments RejectedUndefined {T E}.
Arguments RejectedTypeError {T E}.

(** [throw lastError]. *)
Definition throwLast {T E} (lastError : option E) : Settled T E :=
  match lastError with
  | Some e => Rejected e
  | None => RejectedUndefined
  end.

Section WithRetry.
Context {T E S : Type}.
(** The arithmetic: how an exact result becomes a double, and [Math.pow]. *)
Variable round : Q -> number.
Variable pow : number -> number -> number.
(** The surroundings, over a state [S] of their own: [Math.random()], what
    awaiting [sleep(ms)] does, and the operation [fn], which returns ([inl])
    or throws ([inr]). *)
Variable random : S -> number * S.
Variable sleep : number -> S -> S.
Variable fn : S -> (T + E) * S.

(** [calculateDelay]. *)
Definition calculateDelay (attempt : Z)
    (initialDelayMs maxDelayMs backoffMultiplier : option number)
    (jitter : option bool) (s : S) : number * S :=
  let delay :=
    Double.times round (Double.toNumber initialDelayMs)
      (pow (Double.toNumber backoffMultiplier) (Double.ofZ attempt)) in
  let delay := Double.min delay (Double.toNumber maxDelayMs) in
  if truthy jitter then
    let '(r, s') := random s in
    let jitterAmount :=
      Double.times round (Double.times round delay (Finite (1 # 2))) r in
    (Double.floor (Double.plus round delay jitterAmount), s')
  else (Double.floor delay, s).

(** The [for] loop of [withRetry] from the test of [attempt] on, and the
    [throw] after it; the marks are those from here on.  [fuel] bounds the
    iterations, and [None] says that it did not suffice.  The counter is
    exact: it stays below [2^53].  The [console.log] before the sleep is left
    out. *)
Fixpoint retryLoop (fuel : nat) (opts : Merged.t E) (attempt : Z) (lastError : option E)
    (s : S) : option (Settled T E * S * list Mark) :=
  if Double.lt (Double.ofZ attempt) (Double.toNumber (Merged.maxAttempts opts)) then
    match fuel with
    | O => None
    | Datatypes.S fuel =>
        let '(r, s1) := fn s in
        match r with
        | inl v => Some (Fulfilled v, s1, [Called attempt])
        | inr error =>
            match Merged.isRetryable opts with
            | None => Some (RejectedTypeError, s1, [Called attempt])
            | Some isRetryable =>
                if negb (isRetryable error) then Some (Rejected error, s1, [Called attempt])
                else if Double.lt (Double.ofZ attempt)
                          (Double.minus round (Double.toNumber (Merged.maxAttempts opts))
                             (Double.ofZ 1)) then
                  let '(delay, s2) :=
                    calculateDelay attempt (Merged.initialDelayMs opts)
                      (Merged.maxDelayMs opts) (Merged.backoffMultiplier opts)
                      (Merged.jitter opts) s1 in
                  match retryLoop fuel opts (attempt + 1) (Some error) (sleep delay s2) with
                  | Some (c, s3, marks) => Some (c, s3, Called attempt :: Slept delay :: marks)
                  | None => None
                  end
                else
                  match retryLoop fuel opts (attempt + 1) (Some error) s1 with
                  | Some (c, s3, marks) => Some (c, s3, Called attempt :: marks)
                  | None => None
                  end
            end
        end
    end
  else Some (throwLast lastError, s, []).

(** [withRetry]. *)
Definition withRetry (fuel : nat) (options : option (Options.t E)) (s : S)
    : option (Settled T E * S * list Mark) :=
  retryLoop fuel (mergeOptions options) 0 None s.
End WithRetry.
End Retry.

(** ** [services/ClaudeAPIService.ts] *)

Module QuotaResult.
Record t := mk {
  success : bool;
  data : option QuotaData.t;
  error : option string
}.
End QuotaResult.

Definition REQUEST_TIMEOUT_MS : Z := 10000.

Definition AUTH_FAILED_MESSAGE : string :=
  "Authentication failed. Please log in to Claude Code again.".

(** [`${statusCode}`]. *)
Definition showStatus (statusCode : option Z) : string :=
  match statusCode with
  | Some n => pretty n
  | None => "undefined"
  end.

(** [processUsageApiResponse]: the result, or the value it throws. *)
Definition processUsageApiResponse (statusCode : option Z)
    (data : option (option QuotaData.t)) : QuotaResult.t + JsError :=
  if bool_decide (statusCode = Some 200) then
    match data with
    | Some quotaData => inl (QuotaResult.mk true quotaData None)
    | None => inr (OtherError "Unexpected token in JSON")
    end
  else if bool_decide (statusCode = Some 401) then
    inl (QuotaResult.mk false None (Some AUTH_FAILED_MESSAGE))
  else
    match statusCode with
    | Some code =>
        if negb (code =? 0) && isRetryableHttpStatus code then
          let message :=
            if code =? 429 then "Rate limited. Please try again later."
            else ("Server error: " ++ pretty code)%string in
          inr (RetryableAPIError message (Some code))
        else inl (QuotaResult.mk false None (Some ("API error: " ++ showStatus statusCode)%string))
    | None => inl (QuotaResult.mk false None (Some ("API error: " ++ showStatus statusCode)%string))
    end.

(** [handleUsageApiEnd]: [inl] is [resolve], [inr] is [reject]. *)
Definition handleUsageApiEnd (statusCode : option Z)
    (data : option (option QuotaData.t)) : QuotaResult.t + JsError :=
  match processUsageApiResponse statusCode data with
  | inl result => inl result
  | inr (RetryableAPIError m c) => inr (RetryableAPIError m c)
  | inr _ => inl (QuotaResult.mk false None (Some "Failed to parse quota data"))
  end.

(** [callUsageAPIWithRetry]: one request to the usage endpoint. *)
Definition callUsageAPIWithRetry (accessToken : string) : M (QuotaResult.t + JsError) :=
  emit (EvUsageRequest accessToken) ;;;
  fun w =>
    let w' := setUsageCalls (S (usageCalls w)) w in
    match usageApi w (usageCalls w) with
    | Response statusCode data => (handleUsageApiEnd statusCode data, w')
    | RequestTimeout =>
        (inr (RetryableAPIError "Request timeout" None),
         setNow (now w' + REQUEST_TIMEOUT_MS) w')
    | RequestError message =>
        (inr (RetryableAPIError ("Network error: " ++ message)%string None), w')
    end.

(** [getCredentials]. *)
Definition getCredentials : M (option OAuthCredentials.t) :=
  fun w =>
    match credFile w with
    | Absent => (None, w)
    | Corrupt => (None, w)
    | Parsed creds => (CredentialsFile.claudeAiOauth creds, w)
    end.

(** [isTokenExpired]. *)
Definition isTokenExpired (expiresAt : Z) : M bool :=
  t <- dateNow ;;
  ret (expiresAt - 5 * 60 * 1000 <? t).

(** [saveCredentials]: read, replace [claudeAiOauth], write; any failure is
    logged and swallowed.  [writeFile] opens the file with the flag [w], which
    truncates it, and then writes the text: a write that fails before the file
    is open leaves it as it was, one that fails later leaves none or a part of
    the new text, which is no JSON. *)
Definition saveCredentials (creds : OAuthCredentials.t) : M unit :=
  fun w =>
    match credFile w with
    | Parsed file =>
        let file' := CredentialsFile.mk (Some creds) (CredentialsFile.otherFields file) in
        if credWritable w then emit EvCredentialsWritten (setCredFile (Parsed file') w)
        else if credWriteTears w then (tt, setCredFile Corrupt w)
        else (tt, w)
    | _ => (tt, w)
    end.

(** The credentials built from a 200 answer of the token endpoint. *)
Definition credentialsOfResponse (response : TokenResponse.t) (refreshToken : string)
    (t : Z) : OAuthCredentials.t :=
  {| OAuthCredentials.accessToken := TokenResponse.access_token response;
     OAuthCredentials.refreshToken :=
       orString (TokenResponse.refresh_token response) refreshToken;
     OAuthCredentials.expiresAt := t + TokenResponse.expires_in response * 1000;
     OAuthCredentials.scopes :=
       match TokenResponse.scope response with
       | Some sc => splitSpace sc
       | None => []
       end;
     OAuthCredentials.subscriptionType :=
       Some (orString (TokenResponse.subscription_type response) "unknown");
     OAuthCredentials.rateLimitTier :=
       Some (orString (TokenResponse.rate_limit_tier response) "unknown") |}.

(** [refreshToken]. *)
Definition refreshToken (refreshToken : string) : M (option OAuthCredentials.t) :=
  emit (EvTokenRequest refreshToken) ;;;
  outcome <- (fun w => (tokenApi w (tokenCalls w), setTokenCalls (S (tokenCalls w)) w)) ;;
  match outcome with
  | TokenAnswer statusCode data =>
      if bool_decide (statusCode = Some 200) then
        match data with
        | Some response =>
            t <- dateNow ;;
            let newCreds := credentialsOfResponse response refreshToken t in
            saveCredentials newCreds ;;;
            ret (Some newCreds)
        | None => ret None
        end
      else ret None
  | TokenTimeout =>
      fun w => (None, setNow (now w + REQUEST_TIMEOUT_MS) w)
  | TokenRequestError _ => ret None
  end.

Definition NO_CREDENTIALS_MESSAGE : string :=
  "No OAuth credentials found. Please log in to Claude Code first.".

Definition REFRESH_FAILED_MESSAGE : string :=
  "Failed to refresh OAuth token. Please log in to Claude Code again.".

(** The retry options [fetchQuota] passes to [withRetry]. *)
Definition fetchQuotaRetryOptions : RetryOptions.t JsError :=
  {| RetryOptions.maxAttempts := Some 3;
     RetryOptions.initialDelayMs := Some 1000%Q;
     RetryOptions.maxDelayMs := Some 5000%Q;
     RetryOptions.backoffMultiplier := None;
     RetryOptions.jitter := None;
     RetryOptions.isRetryable := Some (fun error =>
       match error with
       | RetryableAPIError _ _ => true
       | _ => isNetworkError error
       end) |}.

(** The [catch] of [fetchQuota]. *)
Definition quotaResultOfCompletion (c : Completion QuotaResult.t JsError) : QuotaResult.t :=
  match c with
  | Returned r => r
  | Threw (RetryableAPIError message _) => QuotaResult.mk false None (Some message)
  | Threw (OtherError message) => QuotaResult.mk false None (Some message)
  | Threw NotAnError => QuotaResult.mk false None (Some "Unknown error occurred")
  | ThrewUndefined => QuotaResult.mk false None (Some "Unknown error occurred")
  end.

(** [fetchQuota]. *)
Definition fetchQuota : M QuotaResult.t :=
  creds <- getCredentials ;;
  match creds with
  | None => ret (QuotaResult.mk false None (Some NO_CREDENTIALS_MESSAGE))
  | Some creds =>
      expired <- isTokenExpired (OAuthCredentials.expiresAt creds) ;;
      refreshed <-
        (if expired then
           newCreds <- refreshToken (OAuthCredentials.refreshToken creds) ;;
           ret newCreds
         else ret (Some creds)) ;;
      match refreshed with
      | None => ret (QuotaResult.mk false None (Some REFRESH_FAILED_MESSAGE))
      | Some creds =>
          let accessToken := OAuthCredentials.accessToken creds in
          c <- withRetry (callUsageAPIWithRetry accessToken) (Some fetchQuotaRetryOptions) ;;
          ret (quotaResultOfCompletion c)
      end
  end.

(** ** [services/ClaudeDataService.ts] *)

(** [getTodayDateString]. *)
Definition getTodayDateString : M string :=
  t <- dateNow ;;
  ret (toISODate t).

(** [loadStatsCache]. *)
Definition loadStatsCache : M (option StatsCache.t) :=
  fun w =>
    match statsFile w with
    | Parsed stats => (Some stats, w)
    | _ => (None, w)
    end.

(** [loadCredentials]. *)
Definition loadCredentials : M (option CredentialsFile.t) :=
  fun w =>
    match credFile w with
    | Parsed creds => (Some creds, w)
    | _ => (None, w)
    end.

(** [populateFromStatsCache]; [today] is [this.getTodayDateString()]. *)
Definition populateFromStatsCache (today : string) (metrics : UsageMetrics.t)
    (stats : StatsCache.t) : UsageMetrics.t :=
  let modelUsage := orEmptyMap (StatsCache.modelUsage stats) in
  let total (field : ModelUsage.t -> option Z) (start : Z) : Z :=
    map_fold (fun _ usage acc => acc + orZero (field usage)) start modelUsage in
  let todayActivity :=
    match StatsCache.dailyActivity stats with
    | Some l => jsFind (fun d => String.eqb (DailyActivity.date d) today) l
    | None => None
    end in
  let todayTokens :=
    match StatsCache.dailyModelTokens stats with
    | Some l => jsFind (fun d => String.eqb (DailyModelTokens.date d) today) l
    | None => None
    end in
  {| UsageMetrics.subscriptionType := UsageMetrics.subscriptionType metrics;
     UsageMetrics.rateLimitTier := UsageMetrics.rateLimitTier metrics;
     UsageMetrics.todayTokens :=
       match todayTokens with
       | Some d => sumValues (orEmptyMap (DailyModelTokens.tokensByModel d))
       | None => UsageMetrics.todayTokens metrics
       end;
     UsageMetrics.todayMessages :=
       match todayActivity with
       | Some a => orZero (DailyActivity.messageCount a)
       | None => UsageMetrics.todayMessages metrics
       end;
     UsageMetrics.todaySessions :=
       match todayActivity with
       | Some a => orZero (DailyActivity.sessionCount a)
       | None => UsageMetrics.todaySessions metrics
       end;
     UsageMetrics.todayToolCalls :=
       match todayActivity with
       | Some a => orZero (DailyActivity.toolCallCount a)
       | None => UsageMetrics.todayToolCalls metrics
       end;
     UsageMetrics.modelUsage := modelUsage;
     UsageMetrics.totalSessions := orZero (StatsCache.totalSessions stats);
     UsageMetrics.totalMessages := orZero (StatsCache.totalMessages stats);
     UsageMetrics.longestSession :=
       match StatsCache.longestSession stats with
       | Some s => Some s
       | None => UsageMetrics.longestSession metrics
       end;
     UsageMetrics.firstSessionDate := orNull (StatsCache.firstSessionDate stats);
     UsageMetrics.lastComputedDate := orNull (StatsCache.lastComputedDate stats);
     UsageMetrics.dailyActivity := orEmptyList (StatsCache.dailyActivity stats);
     UsageMetrics.dailyModelTokens := orEmptyList (StatsCache.dailyModelTokens stats);
     UsageMetrics.hourlyDistribution := orEmptyMap (StatsCache.hourCounts stats);
     UsageMetrics.totalInputTokens :=
       total ModelUsage.inputTokens (UsageMetrics.totalInputTokens metrics);
     UsageMetrics.totalOutputTokens :=
       total ModelUsage.outputTokens (UsageMetrics.totalOutputTokens metrics);
     UsageMetrics.totalCacheReadTokens :=
       total ModelUsage.cacheReadInputTokens (UsageMetrics.totalCacheReadTokens metrics);
     UsageMetrics.totalCacheCreationTokens :=
       total ModelUsage.cacheCreationInputTokens (UsageMetrics.totalCacheCreationTokens metrics);
     UsageMetrics.quota := UsageMetrics.quota metrics;
     UsageMetrics.quotaError := UsageMetrics.quotaError metrics;
     UsageMetrics.lastUpdated := UsageMetrics.lastUpdated metrics;
     UsageMetrics.dataAvailable := UsageMetrics.dataAvailable metrics;
     UsageMetrics.error := UsageMetrics.error metrics |}.

(** What [populateFromStatsCache] throws, if it throws: the message of the
    [TypeError] of its last statement but one, the call of [find] on a
    [dailyModelTokens] that has none, in the words V8 has for the call as it
    is written in the source.  All the assignments before it have been made
    by then, and they are those of [populateFromStatsCache] above, which
    finds no entry in a list that is [None]. *)
Definition FIND_IS_NOT_A_FUNCTION : string :=
  "stats.dailyModelTokens?.find is not a function".

Definition populateThrows (stats : StatsCache.t) : option string :=
  match StatsCache.dailyModelTokens stats with
  | Some _ => None
  | None =>
      if StatsCache.dailyModelTokensFalsy stats then Some FIND_IS_NOT_A_FUNCTION
      else None
  end.

Definition DIRECTORY_NOT_FOUND : string :=
  "Claude data directory not found. Is Claude Code installed?".

(** [loadMetrics], as the value of the object it returns.  What
    [populateFromStatsCache] throws ends the [try] block: the [catch] sets
    [error], and the object is returned with what was written into it. *)
Definition loadMetricsValue : M UsageMetrics.t :=
  stamp <- dateNow ;;
  let metrics := createEmptyMetrics stamp in
  dirExists <- (fun w => (dataDirExists w, w)) ;;
  if negb dirExists then
    ret (UsageMetrics.setError (Some DIRECTORY_NOT_FOUND) metrics)
  else
    statsCache <- loadStatsCache ;;
    populated <-
      match statsCache with
      | Some stats =>
          today <- getTodayDateString ;;
          ret (populateFromStatsCache today metrics stats, populateThrows stats)
      | None => ret (metrics, None)
      end ;;
    let '(metrics, thrown) := populated in
    match thrown with
    | Some message =>
        ret (UsageMetrics.setError (Some ("Error loading metrics: " ++ message)%string)
               metrics)
    | None =>
    credentials <- loadCredentials ;;
    let metrics :=
      match credentials with
      | Some file =>
          match CredentialsFile.claudeAiOauth file with
          | Some oauth =>
              UsageMetrics.setSubscription
                (orString (OAuthCredentials.subscriptionType oauth) "unknown")
                (orString (OAuthCredentials.rateLimitTier oauth) "unknown")
                metrics
          | None => metrics
          end
      | None => metrics
      end in
    t <- dateNow ;;
    ret (UsageMetrics.setAvailable t metrics)
    end.

(** [loadMetrics]: the reference to the fresh object. *)
Definition loadMetrics : M loc :=
  metrics <- loadMetricsValue ;;
  alloc metrics.

Module WeeklyStats.
Record t := mk {
  messages : Z;
  tokens : Z;
  sessions : Z
}.
End WeeklyStats.

(** [getWeeklyStats]; [nowMs] is the [new Date()] it takes. *)
Definition getWeeklyStats (nowMs : Z) (metrics : UsageMetrics.t) : WeeklyStats.t :=
  let weekAgo := setDateMinus nowMs 7 in
  let weekAgoStr := toISODate weekAgo in
  let messages :=
    fold_left (fun acc activity =>
      if strGe (DailyActivity.date activity) weekAgoStr
      then acc + orZero (DailyActivity.messageCount activity) else acc)
      (UsageMetrics.dailyActivity metrics) 0 in
  let sessions :=
    fold_left (fun acc activity =>
      if strGe (DailyActivity.date activity) weekAgoStr
      then acc + orZero (DailyActivity.sessionCount activity) else acc)
      (UsageMetrics.dailyActivity metrics) 0 in
  let tokens :=
    fold_left (fun acc dayTokens =>
      if strGe (DailyModelTokens.date dayTokens) weekAgoStr
      then acc + sumValues (orEmptyMap (DailyModelTokens.tokensByModel dayTokens)) else acc)
      (UsageMetrics.dailyModelTokens metrics) 0 in
  WeeklyStats.mk messages tokens sessions.

(** [getWeeklyStats] in a time zone whose offset changes. *)
Definition getWeeklyStatsIn (zone : TimeZone.t) (nowMs : Z) (metrics : UsageMetrics.t)
    : WeeklyStats.t :=
  let weekAgo := setDateMinusIn zone nowMs 7 in
  let weekAgoStr := toISODate weekAgo in
  let messages :=
    fold_left (fun acc activity =>
      if strGe (DailyActivity.date activity) weekAgoStr
      then acc + orZero (DailyActivity.messageCount activity) else acc)
      (UsageMetrics.dailyActivity metrics) 0 in
  let sessions :=
    fold_left (fun acc activity =>
      if strGe (DailyActivity.date activity) weekAgoStr
      then acc + orZero (DailyActivity.sessionCount activity) else acc)
      (UsageMetrics.dailyActivity metrics) 0 in
  let tokens :=
    fold_left (fun acc dayTokens =>
      if strGe (DailyModelTokens.date dayTokens) weekAgoStr
      then acc + sumValues (orEmptyMap (DailyModelTokens.tokensByModel dayTokens)) else acc)
      (UsageMetrics.dailyModelTokens metrics) 0 in
  WeeklyStats.mk messages tokens sessions.

(** ** [services/FileWatcher.ts] *)

Module FileWatcher.
(** [debounceTimer] holds the handle [setTimeout] returned. *)
Record t := mk {
  watcher : bool;               (** an [fs.FSWatcher] is open *)
  debounceTimer : option nat;
  isWatching : bool
}.

Definition debounceMs : Z := 500.

Definition create : t := mk false None false.

(** The event loop around one watcher: the clock, the pending timers as
    (handle, due time), the next handle, and the times at which
    [_onFileChanged.fire()] ran. *)
Record Loop := mkLoop {
  fw : t;
  clock : Z;
  timers : list (nat * Z);
  nextHandle : nat;
  fired : list Z
}.

Definition clearTimeout (h : nat) (timers : list (nat * Z)) : list (nat * Z) :=
  List.filter (fun p => negb (Nat.eqb (fst p) h)) timers.

(** [start]. *)
Definition start (dirExists watchOk : bool) (s : Loop) : Loop :=
  if isWatching (fw s) then s
  else if negb dirExists then s
  else if watchOk then
    mkLoop (mk true (debounceTimer (fw s)) true) (clock s) (timers s) (nextHandle s) (fired s)
  else s.

(** [stop]. *)
Definition stop (s : Loop) : Loop :=
  let timers' :=
    match debounceTimer (fw s) with
    | Some h => clearTimeout h (timers s)
    | None => timers s
    end in
  mkLoop (mk false None false) (clock s) timers' (nextHandle s) (fired s).

(** [handleFileChange]. *)
Definition handleFileChange (s : Loop) : Loop :=
  let timers' :=
    match debounceTimer (fw s) with
    | Some h => clearTimeout h (timers s)
    | None => timers s
    end in
  let h := nextHandle s in
  mkLoop (mk (watcher (fw s)) (Some h) (isWatching (fw s))) (clock s)
    (timers' ++ [(h, clock s + debounceMs)]) (S h) (fired s).

(** The callback given to [setTimeout], run at time [due]. *)
Definition onDebounce (due : Z) (s : Loop) : Loop :=
  mkLoop (mk (watcher (fw s)) None (isWatching (fw s))) (clock s) (timers s)
    (nextHandle s) (fired s ++ [due]).

(** [dispose]. *)
Definition dispose (s : Loop) : Loop := stop s.

Inductive Input :=
| Start (dirExists watchOk : bool)
| Stop
| FsEvent (sameFile : bool)   (** the callback of [fs.watch] *)
| WatcherError                (** the ['error'] event of the watcher *)
| Elapse (ms : Z).

(** Time passes: the timers that are due run, oldest first. *)
Definition elapse (ms : Z) (s : Loop) : Loop :=
  let clock' := clock s + Z.max 0 ms in
  let due := List.filter (fun p => snd p <=? clock') (timers s) in
  let rest := List.filter (fun p => negb (snd p <=? clock')) (timers s) in
  fold_left (fun acc p => onDebounce (snd p) acc) due
    (mkLoop (fw s) clock' rest (nextHandle s) (fired s)).

Definition step (s : Loop) (i : Input) : Loop :=
  match i with
  | Start dirExists watchOk => start dirExists watchOk s
  | Stop => stop s
  | FsEvent sameFile =>
      if watcher (fw s) && sameFile then handleFileChange s else s
  | WatcherError => if watcher (fw s) then stop s else s
  | Elapse ms => elapse ms s
  end.

Definition run (inputs : list Input) (s : Loop) : Loop := fold_left step inputs s.

Definition initial (t0 : Z) : Loop := mkLoop create t0 [] 0 [].

(** A burst: one event, then for every gap the gap and another event. *)
Definition burst (gaps : list Z) : list Input :=
  FsEvent true :: flat_map (fun g => [Elapse g; FsEvent true]) gaps.

Definition isStart (i : Input) : bool :=
  match i with
  | Start _ _ => true
  | _ => false
  end.
End FileWatcher.

(** ** [services/RefreshManager.ts] *)

Inductive RefreshModeType := realtime | periodic | manual.

Definition MIN_INTERVAL_MS : Z := 3000.
Definition MAX_INTERVAL_MS : Z := 300000.

(** The settings under [claudeMonitor]. *)
Module Config.
Record t := mk {
  refreshMode : RefreshModeType;
  refreshInterval : Z;
  realtimeInterval : Z
}.
End Config.

Module RefreshManager.
Record t := mk {
  fileWatcher : option FileWatcher.t;
  periodicTimer : option Z;         (** the period of the live [setInterval] *)
  currentMode : RefreshModeType;
  disposables : nat;                (** how many are registered *)
  isRefreshing : bool;
  lastMetrics : option loc;
  isDisposed : bool
}.

(** The constructor. *)
Definition create : t := mk None None periodic 1 false None false.

Definition setRefreshing (b : bool) (m : t) : t :=
  mk (fileWatcher m) (periodicTimer m) (currentMode m) (disposables m) b
     (lastMetrics m) (isDisposed m).

Definition setLastMetrics (l : option loc) (m : t) : t :=
  mk (fileWatcher m) (periodicTimer m) (currentMode m) (disposables m)
     (isRefreshing m) l (isDisposed m).

(** [clampInterval]. *)
Definition clampInterval (intervalMs : Z) : Z :=
  Z.max MIN_INTERVAL_MS (Z.min MAX_INTERVAL_MS intervalMs).

(** [stopCurrentMode]. *)
Definition stopCurrentMode (m : t) : t :=
  mk None None (currentMode m) (disposables m) (isRefreshing m)
     (lastMetrics m) (isDisposed m).

(** [FileWatcher.start] on a new watcher. *)
Definition startedWatcher (w : World) : FileWatcher.t :=
  if dataDirExists w && watchAvailable w
  then FileWatcher.mk true None true
  else FileWatcher.create.

(** [startRealtimeMode]. *)
Definition startRealtimeMode (w : World) (intervalMs : Z) (m : t) : t :=
  mk (Some (startedWatcher w)) (Some intervalMs) (currentMode m)
     (S (disposables m)) (isRefreshing m) (lastMetrics m) (isDisposed m).

(** [startPeriodicMode]. *)
Definition startPeriodicMode (intervalMs : Z) (m : t) : t :=
  mk (fileWatcher m) (Some intervalMs) (currentMode m) (disposables m)
     (isRefreshing m) (lastMetrics m) (isDisposed m).

(** [setMode]. *)
Definition setMode (config : Config.t) (w : World) (mode : RefreshModeType) (m : t) : t :=
  if isDisposed m then m
  else
    let m := stopCurrentMode m in
    let m := mk (fileWatcher m) (periodicTimer m) mode (disposables m)
                (isRefreshing m) (lastMetrics m) (isDisposed m) in
    match mode with
    | realtime =>
        startRealtimeMode w (clampInterval (Config.realtimeInterval config * 1000)) m
    | periodic =>
        startPeriodicMode (clampInterval (Config.refreshInterval config * 1000)) m
    | manual => m
    end.

(** [dispose]. *)
Definition dispose (m : t) : t :=
  let m := stopCurrentMode m in
  mk (fileWatcher m) (periodicTimer m) (currentMode m) 0 (isRefreshing m)
     (lastMetrics m) true.

(** Where a suspended [refresh()] waits. *)
Inductive Stage :=
| AwaitLoad                    (** at [await this.dataService.loadMetrics()] *)
| AwaitFetch (metrics : loc)   (** at [await this.apiService.fetchQuota()] *).

(** The manager, the world and the suspended calls of [refresh()], each with
    the caller it will resolve. *)
Record System := mkSystem {
  world : World;
  mgr : t;
  pending : list (nat * Stage)
}.

(** [this.lastMetrics || createEmptyMetrics()]. *)
Definition lastOrEmpty (m : t) : M loc :=
  match lastMetrics m with
  | Some l => ret l
  | None => t <- dateNow ;; alloc (createEmptyMetrics t)
  end.

(** [refresh()] up to its first [await]. *)
Definition refreshEnter (caller : nat) (s : System) : System :=
  if isDisposed (mgr s) then
    let '(l, w) := (l <- lastOrEmpty (mgr s) ;; emit (EvResolved caller l) ;;; ret l) (world s) in
    mkSystem w (mgr s) (pending s)
  else if isRefreshing (mgr s) then
    let '(l, w) := (l <- lastOrEmpty (mgr s) ;; emit (EvResolved caller l) ;;; ret l) (world s) in
    mkSystem w (mgr s) (pending s)
  else
    let '(_, w) := (emit EvRefreshStarted ;;; emit EvLoadMetrics) (world s) in
    mkSystem w (setRefreshing true (mgr s)) (pending s ++ [(caller, AwaitLoad)]).

(** [metrics.quota = ...] or [metrics.quotaError = ...]. *)
Definition mergeQuota (quotaResult : QuotaResult.t) (metrics : UsageMetrics.t)
    : UsageMetrics.t :=
  match QuotaResult.success quotaResult, QuotaResult.data quotaResult with
  | true, Some data => UsageMetrics.setQuota (Some data) metrics
  | _, _ => UsageMetrics.setQuotaError (QuotaResult.error quotaResult) metrics
  end.

Definition updateObject (l : loc) (f : UsageMetrics.t -> UsageMetrics.t) : M unit :=
  fun w =>
    match heap w !! l with
    | Some m => (tt, setHeap (<[l := f m]> (heap w)) w)
    | None => (tt, w)
    end.

Fixpoint findPending (caller : nat) (p : list (nat * Stage)) : option Stage :=
  match p with
  | [] => None
  | (c, st) :: rest => if Nat.eqb c caller then Some st else findPending caller rest
  end.

Fixpoint setPending (caller : nat) (st : option Stage) (p : list (nat * Stage))
    : list (nat * Stage) :=
  match p with
  | [] => []
  | (c, old) :: rest =>
      if Nat.eqb c caller then
        match st with
        | Some new => (c, new) :: rest
        | None => rest
        end
      else (c, old) :: setPending caller st rest
  end.

(** A suspended [refresh()] goes on to its next [await], or to its end. *)
Definition refreshResume (caller : nat) (s : System) : System :=
  match findPending caller (pending s) with
  | None => s
  | Some AwaitLoad =>
      let '(l, w) := (l <- loadMetrics ;; emit EvFetchQuota ;;; ret l) (world s) in
      mkSystem w (mgr s) (setPending caller (Some (AwaitFetch l)) (pending s))
  | Some (AwaitFetch l) =>
      let '(_, w) :=
        (quotaResult <- fetchQuota ;;
         updateObject l (mergeQuota quotaResult) ;;;
         emit (EvMetricsUpdated l) ;;;
         emit (EvResolved caller l)) (world s) in
      mkSystem w (setRefreshing false (setLastMetrics (Some l) (mgr s)))
        (setPending caller None (pending s))
  end.

Inductive Action :=
| Refresh (caller : nat)     (** somebody calls [refresh()] *)
| Resume (caller : nat)      (** the promise a suspended call awaits settles *)
| SetMode (config : Config.t) (mode : RefreshModeType)
| Dispose.

Definition step (s : System) (a : Action) : System :=
  match a with
  | Refresh caller => refreshEnter caller s
  | Resume caller => refreshResume caller s
  | SetMode config mode => mkSystem (world s) (setMode config (world s) mode (mgr s)) (pending s)
  | Dispose => mkSystem (world s) (dispose (mgr s)) (pending s)
  end.

Definition run (actions : list Action) (s : System) : System :=
  fold_left step actions s.

(** A new manager in a world with no snapshot object yet. *)
Definition boot (w : World) : System :=
  mkSystem (setTrace [] (setHeap [] w)) create [].

(** [getMode]. *)
Definition getMode (m : t) : RefreshModeType := currentMode m.

(** [applyConfiguration]: [config] is what [getConfiguration] reads. *)
Definition applyConfiguration (config : Config.t) (s : System) : System :=
  step s (SetMode config (Config.refreshMode config)).

(** [initialize], up to the first [await] of its [refresh()]. *)
Definition initialize (config : Config.t) (caller : nat) (s : System) : System :=
  step (applyConfiguration config s) (Refresh caller).
End RefreshManager.

(** ** More JavaScript idioms *)

(** The characters of a string, as code units. *)
Definition charsOf (s : string) : list ascii := list_ascii_of_string s.

(** [s.replaceAll(c, r)] for a pattern [c] of one character. *)
Fixpoint replaceAllChar (c : ascii) (r : string) (s : string) : string :=
  match s with
  | EmptyString => EmptyString
  | String a rest =>
      if Ascii.eqb a c then (r ++ replaceAllChar c r rest)%string
      else String a (replaceAllChar c r rest)
  end.

(** [s.replaceAll(/[...]/g, f)] for a class [p] of single characters. *)
Fixpoint replaceAllClass (p : ascii -> bool) (f : ascii -> string) (s : string) : string :=
  match s with
  | EmptyString => EmptyString
  | String a rest =>
      if p a then (f a ++ replaceAllClass p f rest)%string
      else String a (replaceAllClass p f rest)
  end.

(** [Number.parseInt(s, 10)] on ASCII text: leading white space, a sign, then
    the longest run of digits; [None] is [NaN]. *)
Definition isDigit (c : ascii) : bool :=
  let n := nat_of_ascii c in (Nat.leb 48 n && Nat.leb n 57)%bool.

Definition isWhiteSpace (c : ascii) : bool :=
  let n := nat_of_ascii c in (Nat.eqb n 32 || (Nat.leb 9 n && Nat.leb n 13))%bool.

Fixpoint trimStart (s : string) : string :=
  match s with
  | EmptyString => EmptyString
  | String c rest => if isWhiteSpace c then trimStart rest else s
  end.

Fixpoint leadingDigits (acc : option Z) (s : string) : option Z :=
  match s with
  | EmptyString => acc
  | String c rest =>
      if isDigit c
      then leadingDigits (Some (10 * orZero acc + (Z.of_nat (nat_of_ascii c) - 48))) rest
      else acc
  end.

Definition parseInt (s : string) : option Z :=
  match trimStart s with
  | String "-" rest => Z.opp <$> leadingDigits None rest
  | String "+" rest => leadingDigits None rest
  | digits => leadingDigits None digits
  end.

(** [Array.prototype.sort(compare)]: the sort is stable, an element moves
    behind another one only when [compare] puts it there. *)
Fixpoint sortInsert {A} (compare : A -> A -> Z) (x : A) (sorted : list A) : list A :=
  match sorted with
  | [] => [x]
  | y :: rest =>
      if 0 <? compare x y then y :: sortInsert compare x rest
      else x :: y :: rest
  end.

Definition jsSort {A} (compare : A -> A -> Z) (l : list A) : list A :=
  fold_right (sortInsert compare) [] l.

(** ** [utils/htmlEscape.ts] *)

(** [EscapableValue]; a [number] is an integer here. *)
Inductive EscapableValue :=
| EString (s : string)
| ENumber (n : Z)
| ENull
| EUndefined.

(** [String(value)]. *)
Definition stringOfValue (v : EscapableValue) : string :=
  match v with
  | EString s => s
  | ENumber n => pretty n
  | ENull => "null"
  | EUndefined => "undefined"
  end.

Definition quoteChar : ascii := "034"%char.
Definition newlineChar : ascii := "010"%char.
Definition returnChar : ascii := "013"%char.
Definition tabChar : ascii := "009"%char.
Definition backslashChar : ascii := "092"%char.

Definition HTML_ESCAPE_MAP : list (ascii * string) :=
  [("&"%char, "&amp;");
   ("<"%char, "&lt;");
   (">"%char, "&gt;");
   (quoteChar, "&quot;");
   ("'"%char, "&#39;");
   ("/"%char, "&#x2F;");
   ("`"%char, "&#x60;");
   ("="%char, "&#x3D;")].

(** [HTML_ESCAPE_MAP[char]]. *)
Fixpoint mapLookup (table : list (ascii * string)) (c : ascii) : option string :=
  match table with
  | [] => None
  | (k, v) :: rest => if Ascii.eqb k c then Some v else mapLookup rest c
  end.

(** The character class of the regular expression in [escapeHtml]: the
    ampersand, the angle brackets, both quotes, the backtick, the equals sign
    and the slash. *)
Definition htmlSpecial (c : ascii) : bool :=
  existsb (Ascii.eqb c) ["&"; "<"; ">"; quoteChar; "'"; "`"; "="; "/"]%char.

(** [escapeHtml]. *)
Definition escapeHtml (str : EscapableValue) : string :=
  match str with
  | ENull | EUndefined => EmptyString
  | _ =>
      let value := stringOfValue str in
      replaceAllClass htmlSpecial
        (fun char => orString (mapLookup HTML_ESCAPE_MAP char) (String char EmptyString))
        value
  end.

(** [escapeAttr]. *)
Definition escapeAttr (str : EscapableValue) : string := escapeHtml str.

(** [s.replaceAll(/<\/script/gi, String.raw`<\/script`)]: [skip] counts the
    characters of a match that are still to be passed over. *)
Fixpoint replaceScriptClose (skip : nat) (s : string) : string :=
  match s with
  | EmptyString => EmptyString
  | String a rest =>
      match skip with
      | S k => replaceScriptClose k rest
      | O =>
          if String.prefix "</script" (toLowerCase s)
          then ("<\/script" ++ replaceScriptClose 7 rest)%string
          else String a (replaceScriptClose 0 rest)
      end
  end.

(** [escapeJs]. *)
Definition escapeJs (str : EscapableValue) : string :=
  match str with
  | ENull | EUndefined => EmptyString
  | _ =>
      let value := stringOfValue str in
      let value := replaceAllChar backslashChar "\\" value in
      let value := replaceAllChar "'" "\'" value in
      let value := replaceAllChar quoteChar (String backslashChar (String quoteChar EmptyString)) value in
      let value := replaceAllChar newlineChar "\n" value in
      let value := replaceAllChar returnChar "\r" value in
      let value := replaceAllChar tabChar "\t" value in
      replaceScriptClose 0 value
  end.

(** [safeJsonEncode]; [json] is what [JSON.stringify(data)] gives, [None] for
    [undefined], on which [replaceAll] throws a [TypeError]. *)
Definition safeJsonEncode (json : option string) : option string :=
  match json with
  | None => None
  | Some json =>
      let json := replaceAllChar "<" "\u003c" json in
      let json := replaceAllChar ">" "\u003e" json in
      let json := replaceAllChar "&" "\u0026" json in
      Some (replaceAllChar "'" "\u0027" json)
  end.

(** ** Formatting ([models/UsageMetrics.ts], [ClaudeAPIService], [StatusBarManager]) *)

(** [formatDuration]. *)
Definition formatDuration (ms : Z) : string :=
  let seconds := ms / 1000 in
  let minutes := seconds / 60 in
  let hours := minutes / 60 in
  if 0 <? hours then
    let remainingMinutes := Z.rem minutes 60 in
    (pretty hours ++ "h " ++ pretty remainingMinutes ++ "m")%string
  else if 0 <? minutes then (pretty minutes ++ "m")%string
  else (pretty seconds ++ "s")%string.

(** [ClaudeAPIService.formatTimeUntilReset]; [getTime s] is
    [new Date(s).getTime()], [None] for [NaN]; [nowMs] is [Date.now()]. *)
Definition formatTimeUntilReset (getTime : string -> option Z) (nowMs : Z)
    (resetAt : option string) : string :=
  match resetAt with
  | None => "Unknown"
  | Some EmptyString => "Unknown"
  | Some resetAt =>
      match getTime resetAt with
      | None => "NaNm"
      | Some resetTime =>
          let diff := resetTime - nowMs in
          if diff <=? 0 then "Resetting..."
          else
            let hours := diff / (1000 * 60 * 60) in
            let minutes := Z.rem diff (1000 * 60 * 60) / (1000 * 60) in
            if 24 <? hours then
              let days := hours / 24 in
              let remainingHours := Z.rem hours 24 in
              (pretty days ++ "d " ++ pretty remainingHours ++ "h")%string
            else if 0 <? hours then (pretty hours ++ "h " ++ pretty minutes ++ "m")%string
            else (pretty minutes ++ "m")%string
      end
  end.

(** [StatusBarManager.formatResetTime]: the same without the test of
    [resetAt]. *)
Definition formatResetTime (getTime : string -> option Z) (nowMs : Z)
    (resetAt : string) : string :=
  match getTime resetAt with
  | None => "NaNm"
  | Some resetTime =>
      let diff := resetTime - nowMs in
      if diff <=? 0 then "Resetting..."
      else
        let hours := diff / (1000 * 60 * 60) in
        let minutes := Z.rem diff (1000 * 60 * 60) / (1000 * 60) in
        if 24 <? hours then
          let days := hours / 24 in
          let remainingHours := Z.rem hours 24 in
          (pretty days ++ "d " ++ pretty remainingHours ++ "h")%string
        else if 0 <? hours then (pretty hours ++ "h " ++ pretty minutes ++ "m")%string
        else (pretty minutes ++ "m")%string
  end.

(** ** More of [services/ClaudeDataService.ts] and [StatusBarManager] *)

(** [getTotalTokensByModel]: the [Map] it fills. *)
Definition getTotalTokensByModel (metrics : UsageMetrics.t) : gmap string Z :=
  map_fold (fun modelName usage totals =>
              let total :=
                orZero (ModelUsage.inputTokens usage) +
                orZero (ModelUsage.outputTokens usage) in
              <[modelName := total]> totals)
    ∅ (UsageMetrics.modelUsage metrics).

Module HourCount.
Record t := mk {
  hour : option Z;     (** [None] is [NaN] *)
  count : Z
}.
End HourCount.

(** [getPeakHours] on the entries of [hourlyDistribution], in the order
    [Object.entries] lists them. *)
Definition getPeakHoursOf (entries : list (string * Z)) : list HourCount.t :=
  let hours :=
    map (fun entry => HourCount.mk (parseInt (fst entry)) (snd entry)) entries in
  jsSort (fun a b => HourCount.count b - HourCount.count a) hours.

(** [getPeakHours]; the order of [map_to_list] stands for the one of
    [Object.entries]. *)
Definition getPeakHours (metrics : UsageMetrics.t) : list HourCount.t :=
  getPeakHoursOf (map_to_list (UsageMetrics.hourlyDistribution metrics)).

(** [StatusBarManager.getWeeklyMessages]; [nowMs] is the [new Date()] it
    takes. *)
Definition getWeeklyMessages (nowMs : Z) (metrics : UsageMetrics.t) : Z :=
  let weekAgo := setDateMinus nowMs 7 in
  let weekAgoStr := toISODate weekAgo in
  fold_left (fun messages activity =>
      if strGe (DailyActivity.date activity) weekAgoStr
      then messages + orZero (DailyActivity.messageCount activity) else messages)
    (UsageMetrics.dailyActivity metrics) 0.

(** [StatusBarManager.getWeeklyMessages] in a time zone whose offset
    changes. *)
Definition getWeeklyMessagesIn (zone : TimeZone.t) (nowMs : Z) (metrics : UsageMetrics.t)
    : Z :=
  let weekAgo := setDateMinusIn zone nowMs 7 in
  let weekAgoStr := toISODate weekAgo in
  fold_left (fun messages activity =>
      if strGe (DailyActivity.date activity) weekAgoStr
      then messages + orZero (DailyActivity.messageCount activity) else messages)
    (UsageMetrics.dailyActivity metrics) 0.

(** * What the specification says, as definitions

    These follow the words of the specification; the theorems below compare
    them with the code above. *)

(** ** The retry primitive *)

(** What the caller has passed as [maxAttempts]. *)
Definition maxAttemptsPassed {E} (options : option (Retry.Options.t E)) : Retry.Property number :=
  match options with
  | Some o => Retry.Options.maxAttempts o
  | None => Retry.Missing
  end.

Definition isCalled (m : Retry.Mark) : bool :=
  match m with
  | Retry.Called _ => true
  | Retry.Slept _ => false
  end.

(** How often [fn] was called. *)
Definition calls (marks : list Retry.Mark) : nat := length (List.filter isCalled marks).

(** A [maxAttempts] that lets no attempt through: [undefined], [NaN], minus
    infinity, zero or a number below zero. *)
Definition letsNoAttempt (maxAttempts : option number) : Prop :=
  match maxAttempts with
  | None | Some NaN | Some NegInf => True
  | Some (Finite q) => (q <= 0)%Q
  | Some PosInf => False
  end.

(** The iterations that are enough for the loop to end, if any number is. *)
Definition enoughFuel (maxAttempts : option number) : option nat :=
  match maxAttempts with
  | Some (Finite q) => Some (Z.to_nat (Qceiling q))
  | Some PosInf => None
  | _ => Some O
  end.

Section Policy.
Context {T E S : Type}.
Variable round : Q -> number.
Variable pow : number -> number -> number.
Variable random : S -> number * S.
Variable sleep : number -> S -> S.
Variable fn : S -> (T + E) * S.
Variable opts : Retry.Merged.t E.

(** [min(initialDelay * backoffMultiplier^attemptIndex, maxDelay)]. *)
Definition backoffDelay (attempt : Z) : number :=
  Double.min
    (Double.times round (Double.toNumber (Retry.Merged.initialDelayMs opts))
       (pow (Double.toNumber (Retry.Merged.backoffMultiplier opts)) (Double.ofZ attempt)))
    (Double.toNumber (Retry.Merged.maxDelayMs opts)).

(** The backoff inflated by the jitter for the number [u] drawn: by half of
    it, times [u]. *)
Definition withJitter (delay u : number) : number :=
  Double.plus round delay (Double.times round (Double.times round delay (Finite (1 # 2))) u).

(** The wait as the specification words it. *)
Definition delayAsSpecified (attempt : Z) (s : S) (d : number) (s' : S) : Prop :=
  if Retry.truthy (Retry.Merged.jitter opts) then
    let '(u, s1) := random s in
    s' = s1 /\ Double.same d (withJitter (backoffDelay attempt) u)
  else s' = s /\ Double.same d (backoffDelay attempt).

(** The wait of the code: the same, rounded down to whole milliseconds. *)
Definition delayRoundedDown (attempt : Z) (s : S) (d : number) (s' : S) : Prop :=
  if Retry.truthy (Retry.Merged.jitter opts) then
    let '(u, s1) := random s in
    s' = s1 /\ d = Double.floor (withJitter (backoffDelay attempt) u)
  else s' = s /\ d = Double.floor (backoffDelay attempt).

Variable delayRule : Z -> S -> number -> S -> Prop.

(** A run of the retry primitive from the test of attempt [attempt] on, in
    the words of the specification.  No attempt is left: the last failure is
    propagated.  [fn] returns: so does the run.  [fn] fails and the failure
    is not retryable: it is propagated at once.  It is retryable and attempts
    remain after this one: the wait, then the next attempt.  It is retryable
    and this attempt is the last: on without a wait. *)
Inductive RetryRun : Z -> option E -> S -> Retry.Settled T E * S * list Retry.Mark -> Prop :=
| run_exhausted attempt lastError s :
    Double.lt (Double.ofZ attempt) (Double.toNumber (Retry.Merged.maxAttempts opts)) = false ->
    RetryRun attempt lastError s (Retry.throwLast lastError, s, [])
| run_success attempt lastError s v s1 :
    Double.lt (Double.ofZ attempt) (Double.toNumber (Retry.Merged.maxAttempts opts)) = true ->
    fn s = (inl v, s1) ->
    RetryRun attempt lastError s (Retry.Fulfilled v, s1, [Retry.Called attempt])
| run_terminal attempt lastError s e s1 isRetryable :
    Double.lt (Double.ofZ attempt) (Double.toNumber (Retry.Merged.maxAttempts opts)) = true ->
    fn s = (inr e, s1) ->
    Retry.Merged.isRetryable opts = Some isRetryable ->
    isRetryable e = false ->
    RetryRun attempt lastError s (Retry.Rejected e, s1, [Retry.Called attempt])
| run_no_test attempt lastError s e s1 :
    Double.lt (Double.ofZ attempt) (Double.toNumber (Retry.Merged.maxAttempts opts)) = true ->
    fn s = (inr e, s1) ->
    Retry.Merged.isRetryable opts = None ->
    RetryRun attempt lastError s (Retry.RejectedTypeError, s1, [Retry.Called attempt])
| run_retry attempt lastError s e s1 isRetryable d s2 c s3 marks :
    Double.lt (Double.ofZ attempt) (Double.toNumber (Retry.Merged.maxAttempts opts)) = true ->
    fn s = (inr e, s1) ->
    Retry.Merged.isRetryable opts = Some isRetryable ->
    isRetryable e = true ->
    Double.lt (Double.ofZ attempt)
      (Double.minus round (Double.toNumber (Retry.Merged.maxAttempts opts)) (Double.ofZ 1)) = true ->
    delayRule attempt s1 d s2 ->
    RetryRun (attempt + 1) (Some e) (sleep d s2) (c, s3, marks) ->
    RetryRun attempt lastError s (c, s3, Retry.Called attempt :: Retry.Slept d :: marks)
| run_last attempt lastError s e s1 isRetryable c s3 marks :
    Double.lt (Double.ofZ attempt) (Double.toNumber (Retry.Merged.maxAttempts opts)) = true ->
    fn s = (inr e, s1) ->
    Retry.Merged.isRetryable opts = Some isRetryable ->
    isRetryable e = true ->
    Double.lt (Double.ofZ attempt)
      (Double.minus round (Double.toNumber (Retry.Merged.maxAttempts opts)) (Double.ofZ 1)) = false ->
    RetryRun (attempt + 1) (Some e) s1 (c, s3, marks) ->
    RetryRun attempt lastError s (c, s3, Retry.Called attempt :: marks).
End Policy.

(** ** The remote quota source *)

(** A failure of the usage endpoint is retryable, in the words of the
    specification, when its status is one of 408, 429, 500, 502, 503, 504 or
    when it is a fault of the network layer. *)
Definition retryableAsSpecified (o : ApiOutcome) : bool :=
  match o with
  | Response (Some code) _ => existsb (Z.eqb code) [408; 429; 500; 502; 503; 504]
  | Response None _ => false
  | RequestTimeout => true
  | RequestError _ => true
  end.

(** The access token [fetchQuota] goes to the usage endpoint with: the one in
    the credentials file, or the one a token refresh gives when the old one
    expires within five minutes; none when there are no credentials or the
    refresh fails. *)
Definition accessTokenInUse (w : World) : option string :=
  match credFile w with
  | Parsed file =>
      match CredentialsFile.claudeAiOauth file with
      | Some creds =>
          if OAuthCredentials.expiresAt creds - 5 * 60 * 1000 <? now w then
            match tokenApi w (tokenCalls w) with
            | TokenAnswer statusCode (Some response) =>
                if bool_decide (statusCode = Some 200)
                then Some (TokenResponse.access_token response)
                else None
            | _ => None
            end
          else Some (OAuthCredentials.accessToken creds)
      | None => None
      end
  | _ => None
  end.

(** The credentials file after [saveCredentials] has run on the parsed
    [file]: with the new credentials in it; or as it was, when the write was
    refused; or without content, when the write broke off. *)
Definition credFileAfterSave (w : World) (file : CredentialsFile.t)
    (newCreds : OAuthCredentials.t) : FileState CredentialsFile.t :=
  if credWritable w
  then Parsed (CredentialsFile.mk (Some newCreds) (CredentialsFile.otherFields file))
  else if credWriteTears w then Corrupt else credFile w.


(** The events of a token refresh. *)
Definition isCredentialEvent (e : Event) : bool :=
  match e with
  | EvTokenRequest _ | EvCredentialsWritten => true
  | _ => false
  end.

(** The requests made when every retryable failure is followed by another
    request as long as one of [left] attempts remains, and no other outcome
    is: [api n] is the outcome of request [n]. *)
Fixpoint attemptsMade (api : nat -> ApiOutcome) (n : nat) (left : nat) : nat :=
  match left with
  | O => O
  | S k => if retryableAsSpecified (api n) then S (attemptsMade api (S n) k) else 1%nat
  end.

(** The files and the snapshot objects are as they were. *)
Definition sameFiles (w w' : World) : Prop :=
  dataDirExists w' = dataDirExists w /\
  statsFile w' = statsFile w /\
  credFile w' = credFile w /\
  credWritable w' = credWritable w /\
  credWriteTears w' = credWriteTears w /\
  heap w' = heap w.

(** The events of the remote quota source. *)
Definition isNetworkEvent (e : Event) : bool :=
  match e with
  | EvFnInvoked _ | EvSleep _ | EvUsageRequest _ | EvTokenRequest _
  | EvCredentialsWritten => true
  | _ => false
  end.

(** ** The local data source *)

(** The trailing seven calendar days, today included: today and the six days
    before it. *)
Definition inTrailingWeek (nowMs : Z) (date : string) : bool :=
  existsb (fun back => String.eqb date (isoDateOfDay (utcDay nowMs - back)))
    [0; 1; 2; 3; 4; 5; 6].

(** The weekly aggregation in the words of the specification: the sums over
    the entries dated within the trailing seven calendar days. *)
Definition weeklyStatsAsSpecified (nowMs : Z) (metrics : UsageMetrics.t) : WeeklyStats.t :=
  let activity :=
    List.filter (fun a => inTrailingWeek nowMs (DailyActivity.date a))
      (UsageMetrics.dailyActivity metrics) in
  let tokens :=
    List.filter (fun d => inTrailingWeek nowMs (DailyModelTokens.date d))
      (UsageMetrics.dailyModelTokens metrics) in
  WeeklyStats.mk
    (fold_right Z.add 0 (map (fun a => orZero (DailyActivity.messageCount a)) activity))
    (fold_right Z.add 0
       (map (fun d => sumValues (orEmptyMap (DailyModelTokens.tokensByModel d))) tokens))
    (fold_right Z.add 0 (map (fun a => orZero (DailyActivity.sessionCount a)) activity)).

(** ** The orchestrator *)

(** Everything but the snapshot objects and the trace is as it was: no file
    was written, no request was made, no time has passed. *)
Definition noInputOutput (w w' : World) : Prop :=
  now w' = now w /\
  dataDirExists w' = dataDirExists w /\
  statsFile w' = statsFile w /\
  credFile w' = credFile w /\
  credWritable w' = credWritable w /\
  credWriteTears w' = credWriteTears w /\
  watchAvailable w' = watchAvailable w /\
  usageApi w' = usageApi w /\
  usageCalls w' = usageCalls w /\
  tokenApi w' = tokenApi w /\
  tokenCalls w' = tokenCalls w /\
  randomDraws w' = randomDraws w /\
  randomCalls w' = randomCalls w.

(** The calls from outside: [refresh()], [setMode()], [dispose()].  A [Resume]
    is the rest of a call made earlier. *)
Definition isCall (a : RefreshManager.Action) : bool :=
  match a with
  | RefreshManager.Resume _ => false
  | _ => true
  end.

(** The callers of [refresh()] among the actions, in order. *)
Definition refreshCallers (actions : list RefreshManager.Action) : list nat :=
  flat_map (fun a => match a with RefreshManager.Refresh c => [c] | _ => [] end) actions.

(** Who was resolved with which snapshot, in order. *)
Definition resolutions (tr : list Event) : list (nat * loc) :=
  flat_map (fun e => match e with EvResolved c l => [(c, l)] | _ => [] end) tr.

Definition isLoadMetrics (e : Event) : bool :=
  match e with EvLoadMetrics => true | _ => false end.

Definition isFetchQuota (e : Event) : bool :=
  match e with EvFetchQuota => true | _ => false end.

Definition isPublication (e : Event) : bool :=
  match e with EvRefreshStarted | EvMetricsUpdated _ => true | _ => false end.

Definition countEvents (p : Event -> bool) (tr : list Event) : nat :=
  length (List.filter p tr).

(** [l] is what a call that does no work returns: the snapshot the manager
    [m] has cached, or else a new empty snapshot. *)
Definition cachedOrEmpty (m : RefreshManager.t) (t : Z) (h : list UsageMetrics.t)
    (l : loc) : Prop :=
  match RefreshManager.lastMetrics m with
  | Some l0 => l = l0
  | None => h !! l = Some (createEmptyMetrics t)
  end.

(** Two callers of [refresh()], [b] while the call of [a] is in flight, from
    the state [s] to the state [s']: one load and one fetch run; [b] is
    resolved first, with the snapshot cached before or a new empty one; [a] is
    resolved with the snapshot just loaded, which is another object. *)
Definition oneRefreshForTwoCallers (s s' : RefreshManager.System) (a b : nat) : Prop :=
  exists la lb tr,
    trace (RefreshManager.world s') = trace (RefreshManager.world s) ++ tr /\
    countEvents isLoadMetrics tr = 1%nat /\
    countEvents isFetchQuota tr = 1%nat /\
    resolutions tr = [(b, lb); (a, la)] /\
    la <> lb /\
    RefreshManager.lastMetrics (RefreshManager.mgr s') = Some la /\
    cachedOrEmpty (RefreshManager.mgr s) (now (RefreshManager.world s))
      (heap (RefreshManager.world s')) lb.

(** ** The snapshot *)

Definition countersZero (m : UsageMetrics.t) : Prop :=
  UsageMetrics.todayTokens m = 0 /\
  UsageMetrics.todayMessages m = 0 /\
  UsageMetrics.todaySessions m = 0 /\
  UsageMetrics.todayToolCalls m = 0 /\
  UsageMetrics.modelUsage m = ∅ /\
  UsageMetrics.totalSessions m = 0 /\
  UsageMetrics.totalMessages m = 0 /\
  UsageMetrics.longestSession m = None /\
  UsageMetrics.firstSessionDate m = None /\
  UsageMetrics.lastComputedDate m = None /\
  UsageMetrics.dailyActivity m = [] /\
  UsageMetrics.dailyModelTokens m = [] /\
  UsageMetrics.hourlyDistribution m = ∅ /\
  UsageMetrics.totalInputTokens m = 0 /\
  UsageMetrics.totalOutputTokens m = 0 /\
  UsageMetrics.totalCacheReadTokens m = 0 /\
  UsageMetrics.totalCacheCreationTokens m = 0.

Definition quotaExclusive (m : UsageMetrics.t) : Prop :=
  ~ (is_Some (UsageMetrics.quota m) /\ is_Some (UsageMetrics.quotaError m)).

(** The invariant of the specification. *)
Definition SnapshotInvariant (m : UsageMetrics.t) : Prop :=
  (UsageMetrics.dataAvailable m = false ->
   countersZero m /\ is_Some (UsageMetrics.error m)) /\
  quotaExclusive m.

(** The part of it that [loadMetrics] keeps: a snapshot that is not available
    says why. *)
Definition errorWhenUnavailable (m : UsageMetrics.t) : Prop :=
  UsageMetrics.dataAvailable m = false -> is_Some (UsageMetrics.error m).

(** What every snapshot keeps: one that is not available says why or has
    nothing in it, and [quota] and [quotaError] are not both set. *)
Definition SnapshotInvariantAsAmended (m : UsageMetrics.t) : Prop :=
  (UsageMetrics.dataAvailable m = false ->
   is_Some (UsageMetrics.error m) \/ countersZero m) /\
  quotaExclusive m.

(** * Invariants *)

(** ** The change notifier *)

(** The only timer that is pending is the one [debounceTimer] holds. *)
Definition tidy (s : FileWatcher.Loop) : Prop :=
  match FileWatcher.debounceTimer (FileWatcher.fw s) with
  | None => FileWatcher.timers s = []
  | Some h => exists due, FileWatcher.timers s = [(h, due)]
  end.

(** Stopped: no watcher, no timer. *)
Definition quiet (s : FileWatcher.Loop) : Prop :=
  FileWatcher.watcher (FileWatcher.fw s) = false /\
  FileWatcher.debounceTimer (FileWatcher.fw s) = None /\
  FileWatcher.timers s = [].

(** The state in the middle of a burst: the watcher is open and the timer set
    by the latest event, at time [clock s], is the only one pending. *)
Definition armed (s : FileWatcher.Loop) : Prop :=
  FileWatcher.watcher (FileWatcher.fw s) = true /\
  exists h,
    FileWatcher.debounceTimer (FileWatcher.fw s) = Some h /\
    FileWatcher.timers s = [(h, FileWatcher.clock s + FileWatcher.debounceMs)].

(** ** The orchestrator *)

(** The manager after [dispose()]: the flag is set and every trigger is gone. *)
Definition torn (m : RefreshManager.t) : Prop :=
  RefreshManager.isDisposed m = true /\
  RefreshManager.fileWatcher m = None /\
  RefreshManager.periodicTimer m = None /\
  RefreshManager.disposables m = 0%nat.

(** A snapshot that [loadMetrics] has made and [refresh] has not yet merged
    the quota into. *)
Definition freshlyLoaded (m : UsageMetrics.t) : Prop :=
  errorWhenUnavailable m /\
  UsageMetrics.quota m = None /\ UsageMetrics.quotaError m = None.

(** At most one [refresh()] is suspended, and [isRefreshing] says whether one
    is; the snapshot it has loaded, the snapshot cached as the last one and
    all the others are as they should be. *)
Definition SystemInvariant (s : RefreshManager.System) : Prop :=
  (RefreshManager.pending s = [] /\
   RefreshManager.isRefreshing (RefreshManager.mgr s) = false \/
   exists c st,
     RefreshManager.pending s = [(c, st)] /\
     RefreshManager.isRefreshing (RefreshManager.mgr s) = true /\
     match st with
     | RefreshManager.AwaitLoad => True
     | RefreshManager.AwaitFetch l =>
         exists m, heap (RefreshManager.world s) !! l = Some m /\ freshlyLoaded m
     end) /\
  (forall l, RefreshManager.lastMetrics (RefreshManager.mgr s) = Some l ->
     exists m, heap (RefreshManager.world s) !! l = Some m /\
       errorWhenUnavailable m /\ quotaExclusive m) /\
  Forall SnapshotInvariantAsAmended (heap (RefreshManager.world s)).

(** * Further notions

    What the theorems of the last part speak of. *)

(** ** More about the retry primitive *)

(** Calls and sleeps take turns, from the call of attempt [attempt] to a
    call. *)
Inductive Alternate : Z -> list Retry.Mark -> Prop :=
| alternate_last attempt : Alternate attempt [Retry.Called attempt]
| alternate_more attempt ms rest :
    Alternate (attempt + 1) rest ->
    Alternate attempt (Retry.Called attempt :: Retry.Slept ms :: rest).

(** ** More about the remote quota source *)

(** The stored token runs out within five minutes, or has run out: there are
    credentials and [isTokenExpired] says yes. *)
Definition needsRefresh (w : World) : bool :=
  match credFile w with
  | Parsed file =>
      match CredentialsFile.claudeAiOauth file with
      | Some creds => OAuthCredentials.expiresAt creds - 5 * 60 * 1000 <? now w
      | None => false
      end
  | _ => false
  end.

(** What the promise of [callUsageAPIWithRetry] settles with, by the outcome
    of the request: [inl] is [resolve], [inr] is [reject]. *)
Definition usageOutcomeResult (o : ApiOutcome) : QuotaResult.t + JsError :=
  match o with
  | Response statusCode data => handleUsageApiEnd statusCode data
  | RequestTimeout => inr (RetryableAPIError "Request timeout" None)
  | RequestError message =>
      inr (RetryableAPIError ("Network error: " ++ message)%string None)
  end.

(** The lengths of the sleeps in a trace, in order. *)
Definition waits (tr : list Event) : list Z :=
  flat_map (fun e => match e with EvSleep ms => [ms] | _ => [] end) tr.

(** ** More about the local data source *)

(** The message of what [populateFromStatsCache] throws over the stats cache
    of the world, if the cache parses and it throws. *)
Definition statsCacheThrows (w : World) : option string :=
  match statsFile w with
  | Parsed stats => populateThrows stats
  | _ => None
  end.

(** ** More about the change notifier and the orchestrator *)

(** The signals so far lie in the past and at least [debounceMs] apart, and a
    timer that is pending is due at least [debounceMs] after the last of
    them. *)
Definition spaced (s : FileWatcher.Loop) : Prop :=
  tidy s /\
  Forall (fun f => f <= FileWatcher.clock s) (FileWatcher.fired s) /\
  Forall (fun p => Forall (fun f => f + FileWatcher.debounceMs <= snd p)
                     (FileWatcher.fired s))
    (FileWatcher.timers s) /\
  StronglySorted (fun a b => a + FileWatcher.debounceMs <= b) (FileWatcher.fired s).

(** A call of [start] that does not open a watcher: the directory is missing
    or [fs.watch] throws. *)
Definition startFails (i : FileWatcher.Input) : bool :=
  match i with
  | FileWatcher.Start dirExists watchOk => negb (dirExists && watchOk)
  | _ => true
  end.

(** The manager holds the trigger objects of the current mode and no other: a
    [FileWatcher] in realtime mode, whether it is watching or not, and an
    interval timer with a period within the bounds in realtime and periodic
    mode; none after [dispose()]. *)
Definition triggersMatchMode (m : RefreshManager.t) : Prop :=
  if RefreshManager.isDisposed m then
    RefreshManager.fileWatcher m = None /\ RefreshManager.periodicTimer m = None
  else
    match RefreshManager.currentMode m with
    | realtime =>
        is_Some (RefreshManager.fileWatcher m) /\
        exists period,
          RefreshManager.periodicTimer m = Some period /\
          MIN_INTERVAL_MS <= period <= MAX_INTERVAL_MS
    | periodic =>
        RefreshManager.fileWatcher m = None /\
        exists period,
          RefreshManager.periodicTimer m = Some period /\
          MIN_INTERVAL_MS <= period <= MAX_INTERVAL_MS
    | manual =>
        RefreshManager.fileWatcher m = None /\ RefreshManager.periodicTimer m = None
    end.

(** ** The calendar *)

(** The dates of [count] days in a row from the day [from] on come in rising
    order, each before the next. *)
Fixpoint datesIncrease (from : Z) (count : nat) : bool :=
  match count with
  | O => true
  | S k =>
      String.ltb (isoDateOfDay from) (isoDateOfDay (from + 1)) &&
      datesIncrease (from + 1) k
  end.

(** 2020-01-01 and 2050-01-01 as day numbers. *)
Definition FIRST_DAY : Z := 18262.
Definition LAST_DAY : Z := 29220.

(** * Sample inputs *)

(** America/New_York in 2024: five hours behind UTC, four from 2024-03-10 at
    07:00 UTC to 2024-11-03 at 06:00 UTC, which is from 03:00 to 02:00 on the
    wall. *)
Definition newYork2024 : TimeZone.t :=
  {| TimeZone.offsetAt := fun t =>
       if (1710054000000 <=? t) && (t <? 1730613600000)
       then -4 * 3600000 else -5 * 3600000;
     TimeZone.offsetOfLocal := fun t =>
       if (1710039600000 <=? t) && (t <? 1730599200000)
       then -4 * 3600000 else -5 * 3600000 |}.

Definition sampleQuota : QuotaData.t :=
  QuotaData.mk (Some (QuotaUsage.mk 42%Q (Some "2024-01-10T18:00:00Z"))) None None None.

Definition sampleCredentials : OAuthCredentials.t :=
  {| OAuthCredentials.accessToken := "access-1";
     OAuthCredentials.refreshToken := "refresh-1";
     OAuthCredentials.expiresAt := 1704900000000 + 3600000;
     OAuthCredentials.scopes := ["user:inference"];
     OAuthCredentials.subscriptionType := Some "max";
     OAuthCredentials.rateLimitTier := Some "default_claude_max_20x" |}.

Definition sampleCredentialsFile : CredentialsFile.t :=
  CredentialsFile.mk (Some sampleCredentials) {["installId" := JString "abc"]}.

(** 2024-01-10, 15:20 UTC; every request to the usage endpoint answers 200. *)
Definition sampleWorld : World :=
  {| now := 1704900000000;
     dataDirExists := true;
     statsFile := Absent;
     credFile := Parsed sampleCredentialsFile;
     credWritable := true;
     credWriteTears := false;
     watchAvailable := true;
     usageApi := fun _ => Response (Some 200) (Some (Some sampleQuota));
     usageCalls := 0;
     tokenApi := fun _ => TokenRequestError "unreachable";
     tokenCalls := 0;
     randomDraws := fun _ => (1 # 2)%Q;
     randomCalls := 0;
     heap := [];
     trace := [] |}.

(** The usage endpoint answers 429 twice and then 200. *)
Definition rateLimitedWorld : World :=
  {| now := 1704900000000;
     dataDirExists := true;
     statsFile := Absent;
     credFile := Parsed sampleCredentialsFile;
     credWritable := true;
     credWriteTears := false;
     watchAvailable := true;
     usageApi := fun n =>
       if (n <? 2)%nat then Response (Some 429) None
       else Response (Some 200) (Some (Some sampleQuota));
     usageCalls := 0;
     tokenApi := fun _ => TokenRequestError "unreachable";
     tokenCalls := 0;
     randomDraws := fun _ => (1 # 2)%Q;
     randomCalls := 0;
     heap := [];
     trace := [] |}.

(** The usage endpoint answers 401. *)
Definition unauthorizedWorld : World :=
  {| now := 1704900000000;
     dataDirExists := true;
     statsFile := Absent;
     credFile := Parsed sampleCredentialsFile;
     credWritable := true;
     credWriteTears := false;
     watchAvailable := true;
     usageApi := fun _ => Response (Some 401) None;
     usageCalls := 0;
     tokenApi := fun _ => TokenRequestError "unreachable";
     tokenCalls := 0;
     randomDraws := fun _ => (1 # 2)%Q;
     randomCalls := 0;
     heap := [];
     trace := [] |}.

(** Samples: an operation that fails on every call and counts the calls; a
    random source that draws one number; a timer that leaves no mark in the
    state. *)
Definition failing : nat -> (unit + unit) * nat := fun n => (inr tt, S n).
Definition draws (u : number) : nat -> number * nat := fun n => (u, n).
Definition elapses : number -> nat -> nat := fun _ n => n.

(** [{ maxAttempts: 3, initialDelayMs: 125, backoffMultiplier: 1.5, jitter: false }]. *)
Definition fractionalBackoff : Retry.Options.t unit :=
  {| Retry.Options.maxAttempts := Retry.Present (Some (Double.ofZ 3));
     Retry.Options.initialDelayMs := Retry.Present (Some (Double.ofZ 125));
     Retry.Options.maxDelayMs := Retry.Missing;
     Retry.Options.backoffMultiplier := Retry.Present (Some (Finite (3 # 2)));
     Retry.Options.jitter := Retry.Present (Some false);
     Retry.Options.isRetryable := Retry.Missing |}.

(** [withRetry] over these, in doubles. *)
Definition withRetry_sample (fuel : nat) (options : option (Retry.Options.t unit))
    : option (Retry.Settled unit unit * nat * list Retry.Mark) :=
  Retry.withRetry Double.binary64 Double.pow (draws (Finite (1 # 2))) elapses failing
    fuel options 0%nat.

(** [{ isRetryable: undefined }]. *)
Definition withoutTest : Retry.Options.t unit :=
  {| Retry.Options.maxAttempts := Retry.Missing;
     Retry.Options.initialDelayMs := Retry.Missing;
     Retry.Options.maxDelayMs := Retry.Missing;
     Retry.Options.backoffMultiplier := Retry.Missing;
     Retry.Options.jitter := Retry.Missing;
     Retry.Options.isRetryable := Retry.Present None |}.

(** [{ maxAttempts: m }]. *)
Definition onlyMaxAttempts (m : option number) : Retry.Options.t unit :=
  {| Retry.Options.maxAttempts := Retry.Present m;
     Retry.Options.initialDelayMs := Retry.Missing;
     Retry.Options.maxDelayMs := Retry.Missing;
     Retry.Options.backoffMultiplier := Retry.Missing;
     Retry.Options.jitter := Retry.Missing;
     Retry.Options.isRetryable := Retry.Missing |}.
Definition sampleTokenResponse : TokenResponse.t :=
  {| TokenResponse.access_token := "access-2";
     TokenResponse.refresh_token := Some "refresh-2";
     TokenResponse.expires_in := 3600;
     TokenResponse.scope := Some "user:inference user:profile";
     TokenResponse.subscription_type := None;
     TokenResponse.rate_limit_tier := None |}.

(** The access token ran out a second ago and the token endpoint answers 200;
    [writable] says whether the credentials file can be written. *)
Definition expiredTokenWorld (writable : bool) : World :=
  {| now := 1704900000000 + 3600000 + 1000;
     dataDirExists := true;
     statsFile := Absent;
     credFile := Parsed sampleCredentialsFile;
     credWritable := writable;
     credWriteTears := false;
     watchAvailable := true;
     usageApi := fun _ => Response (Some 200) (Some (Some sampleQuota));
     usageCalls := 0;
     tokenApi := fun _ => TokenAnswer (Some 200) (Some sampleTokenResponse);
     tokenCalls := 0;
     randomDraws := fun _ => (1 # 2)%Q;
     randomCalls := 0;
     heap := [];
     trace := [] |}.


Definition activityOn (date : string) : DailyActivity.t :=
  DailyActivity.mk date (Some 1) (Some 1) (Some 0).

Definition tokensOn (date : string) : DailyModelTokens.t :=
  DailyModelTokens.mk date (Some {["claude-sonnet" := 100]}).

Definition tenDates : list string :=
  ["2024-01-01"; "2024-01-02"; "2024-01-03"; "2024-01-04"; "2024-01-05";
   "2024-01-06"; "2024-01-07"; "2024-01-08"; "2024-01-09"; "2024-01-10"].

(** A snapshot with daily entries for the ten days up to 2024-01-10. *)
Definition tenDaySnapshot : UsageMetrics.t :=
  populateFromStatsCache "2024-01-10" (createEmptyMetrics 1704900000000)
    {| StatsCache.version := Some 1;
       StatsCache.lastComputedDate := Some "2024-01-10";
       StatsCache.dailyActivity := Some (map activityOn tenDates);
       StatsCache.dailyModelTokens := Some (map tokensOn tenDates);
       StatsCache.modelUsage := None;
       StatsCache.totalSessions := Some 10;
       StatsCache.totalMessages := Some 10;
       StatsCache.longestSession := None;
       StatsCache.firstSessionDate := Some "2024-01-01";
       StatsCache.hourCounts := None;
     StatsCache.dailyModelTokensFalsy := false |}.

(** A cache with 42 messages on the given date and no token entry at all. *)
Definition cacheWithMessagesOn (date : string) : StatsCache.t :=
  {| StatsCache.version := Some 1;
     StatsCache.lastComputedDate := Some date;
     StatsCache.dailyActivity := Some [DailyActivity.mk date (Some 42) (Some 3) (Some 7)];
     StatsCache.dailyModelTokens := Some [];
     StatsCache.modelUsage := None;
     StatsCache.totalSessions := Some 3;
     StatsCache.totalMessages := Some 42;
     StatsCache.longestSession := None;
     StatsCache.firstSessionDate := Some date;
     StatsCache.hourCounts := None;
     StatsCache.dailyModelTokensFalsy := false |}.

(** The world at the instant [t] with the given stats cache. *)
Definition worldWithCache (t : Z) (stats : StatsCache.t) : World :=
  {| now := t;
     dataDirExists := true;
     statsFile := Parsed stats;
     credFile := Parsed sampleCredentialsFile;
     credWritable := true;
     credWriteTears := false;
     watchAvailable := true;
     usageApi := fun _ => Response (Some 200) (Some (Some sampleQuota));
     usageCalls := 0;
     tokenApi := fun _ => TokenRequestError "unreachable";
     tokenCalls := 0;
     randomDraws := fun _ => (1 # 2)%Q;
     randomCalls := 0;
     heap := [];
     trace := [] |}.

(** [{ totalSessions: 5, modelUsage: { claude: { inputTokens: 10 } },
    dailyModelTokens: 0 }]: valid JSON, and no list where the code looks for
    today's tokens. *)
Definition misshapenCache : StatsCache.t :=
  {| StatsCache.version := None;
     StatsCache.lastComputedDate := None;
     StatsCache.dailyActivity := None;
     StatsCache.dailyModelTokens := None;
     StatsCache.modelUsage :=
       Some {[ "claude" := ModelUsage.mk (Some 10) None None None None None None ]};
     StatsCache.totalSessions := Some 5;
     StatsCache.totalMessages := None;
     StatsCache.longestSession := None;
     StatsCache.firstSessionDate := None;
     StatsCache.hourCounts := None;
     StatsCache.dailyModelTokensFalsy := true |}.

(** 2024-01-10 at 23:30 UTC, which is 01:30 on 2024-01-11 two hours east. *)
Definition lateEvening : Z := 1704929400000.

(** A manager that has published one snapshot. *)
Definition settledSystem : RefreshManager.System :=
  RefreshManager.run
    [RefreshManager.Refresh 1; RefreshManager.Resume 1; RefreshManager.Resume 1]
    (RefreshManager.boot sampleWorld).

(** A manager with a [refresh()] in flight. *)
Definition busySystem : RefreshManager.System :=
  RefreshManager.run [RefreshManager.Refresh 1] (RefreshManager.boot sampleWorld).

Definition sampleConfig : Config.t := Config.mk realtime 30 5.

(** A watcher that has been started, at time 0. *)
Definition watching : FileWatcher.Loop :=
  FileWatcher.run [FileWatcher.Start true true] (FileWatcher.initial 0).

(** The usage endpoint times out on every request. *)
Definition unreachableWorld : World :=
  {| now := 1704900000000;
     dataDirExists := true;
     statsFile := Absent;
     credFile := Parsed sampleCredentialsFile;
     credWritable := true;
     credWriteTears := false;
     watchAvailable := true;
     usageApi := fun _ => RequestTimeout;
     usageCalls := 0;
     tokenApi := fun _ => TokenRequestError "unreachable";
     tokenCalls := 0;
     randomDraws := fun _ => (1 # 2)%Q;
     randomCalls := 0;
     heap := [];
     trace := [] |}.

(** Claude Code is not installed: no data directory. *)
Definition noDirectoryWorld : World :=
  {| now := 1704900000000;
     dataDirExists := false;
     statsFile := Absent;
     credFile := Absent;
     credWritable := true;
     credWriteTears := false;
     watchAvailable := true;
     usageApi := fun _ => RequestTimeout;
     usageCalls := 0;
     tokenApi := fun _ => TokenRequestError "unreachable";
     tokenCalls := 0;
     randomDraws := fun _ => (1 # 2)%Q;
     randomCalls := 0;
     heap := [];
     trace := [] |}.

(** No credentials file. *)
Definition loggedOutWorld : World :=
  {| now := 1704900000000;
     dataDirExists := true;
     statsFile := Absent;
     credFile := Absent;
     credWritable := true;
     credWriteTears := false;
     watchAvailable := true;
     usageApi := fun _ => Response (Some 200) (Some (Some sampleQuota));
     usageCalls := 0;
     tokenApi := fun _ => TokenRequestError "unreachable";
     tokenCalls := 0;
     randomDraws := fun _ => (1 # 2)%Q;
     randomCalls := 0;
     heap := [];
     trace := [] |}.

(** * Tactics *)

(** Reads of a field through the setters of [World]. *)
Ltac wsimpl :=
  cbn [now dataDirExists statsFile credFile credWritable credWriteTears watchAvailable
       usageApi usageCalls tokenApi tokenCalls randomDraws randomCalls heap trace
       setNow setCredFile setUsageCalls setTokenCalls setRandomCalls setHeap setTrace
       fst snd].

(** Hides the statement about [t], so that [t] stands once in the goal. *)
Ltac focus_on t :=
  pattern t;
  match goal with
  | |- ?P _ => let Post := fresh "Post" in set (Post := P)
  end.

Ltac unfocus := match goal with Post := _ |- _ => subst Post; cbv beta end.

Tactic Notation "wsimpl" "in" hyp(H) :=
  cbn [now dataDirExists statsFile credFile credWritable credWriteTears watchAvailable
       usageApi usageCalls tokenApi tokenCalls randomDraws randomCalls heap trace
       setNow setCredFile setUsageCalls setTokenCalls setRandomCalls setHeap setTrace
       fst snd] in H.

(** Closes a case in which [fetchQuota] returns before the usage request. *)
Ltac leaf :=
  split; [reflexivity|]; split; [reflexivity|];
  split; [left; first [reflexivity|assumption]|];
  split; [reflexivity|];
  match goal with
  | H : forall w0 : World, exists tr, trace w0 = trace w0 ++ tr /\ _ |- _ => apply H
  | H : forall token, exists tr, _ ++ [EvTokenRequest token] = _ /\ _ |- _ => apply H
  end.

(** * Theorems *)

(** ** [utils/retry.ts] *)

(** One turn of the loop of [withRetry]. *)
Lemma retryLoop_step {T E} (fn : M (T + E)) (opts : Resolved.t E) k attempt lastError w :
  retryLoop fn opts (S k) attempt lastError w =
  match fn (snd (emit (EvFnInvoked attempt) w)) with
  | (inl v, w1) => (Returned v, w1)
  | (inr e, w1) =>
      if Resolved.isRetryable opts e then
        if attempt <? Resolved.maxAttempts opts - 1 then
          let '(d, w2) := calculateDelay attempt (Resolved.initialDelayMs opts)
                            (Resolved.maxDelayMs opts) (Resolved.backoffMultiplier opts)
                            (Resolved.jitter opts) w1 in
          retryLoop fn opts k (attempt + 1) (Some e) (snd (sleep d w2))
        else retryLoop fn opts k (attempt + 1) (Some e) w1
      else (Threw e, w1)
  end.
Proof.
  cbn [retryLoop]. unfold bind at 1. cbn [emit snd].
  unfold bind at 1.
  destruct (fn _) as [[v|e] w1]; [reflexivity|].
  destruct (Resolved.isRetryable opts e); cbn [negb]; [|reflexivity].
  unfold bind at 1.
  destruct (attempt <? Resolved.maxAttempts opts - 1).
  - unfold bind at 1.
    destruct (calculateDelay _ _ _ _ _ w1) as [d w2].
    destruct (sleep d w2) as [[] w3]. reflexivity.
  - reflexivity.
Qed.

Lemma calculateDelay_trace attempt i m b j w :
  trace (snd (calculateDelay attempt i m b j w)) = trace w.
Proof. unfold calculateDelay. destruct j; reflexivity. Qed.

(** ** [utils/retry.ts], for every options object and in doubles *)

Lemma lt_ofZ_Finite (a : Z) (q : Q) :
  Double.lt (Double.ofZ a) (Finite q) = true <-> (inject_Z a < q)%Q.
Proof.
  unfold Double.lt, Double.ofZ. rewrite negb_true_iff.
  destruct (Qle_bool q (inject_Z a)) eqn:Hle.
  - apply Qle_bool_iff in Hle. split; [discriminate|]. intros Hlt. exfalso.
    apply (Qlt_not_le _ _ Hlt), Hle.
  - split; [intros _|reflexivity]. apply Qnot_le_lt. intros Hq.
    apply Qle_bool_iff in Hq. congruence.
Qed.

Lemma lt_ofZ_ofZ (a b : Z) : Double.lt (Double.ofZ a) (Double.ofZ b) = (a <? b).
Proof.
  destruct (a <? b) eqn:Hab.
  - apply lt_ofZ_Finite. rewrite <- Zlt_Qlt. apply Z.ltb_lt, Hab.
  - destruct (Double.lt (Double.ofZ a) (Double.ofZ b)) eqn:Hlt; [|reflexivity].
    apply lt_ofZ_Finite in Hlt. rewrite <- Zlt_Qlt in Hlt.
    apply Z.ltb_lt in Hlt. congruence.
Qed.

Lemma lt_same (a b b' : number) : Double.same b b' -> Double.lt a b = Double.lt a b'.
Proof.
  destruct b as [| | |y], b' as [| | |y']; cbn; try contradiction; try reflexivity.
  intros Hy. destruct a as [| | |x]; try reflexivity.
  cbn. f_equal. destruct (Qle_bool y x) eqn:H1, (Qle_bool y' x) eqn:H2; try reflexivity.
  - apply Qle_bool_iff in H1. rewrite Hy in H1. apply Qle_bool_iff in H1. congruence.
  - apply Qle_bool_iff in H2. rewrite <- Hy in H2. apply Qle_bool_iff in H2. congruence.
Qed.

Lemma letsNoAttempt_lt (x : option number) (attempt : Z) :
  0 <= attempt -> letsNoAttempt x ->
  Double.lt (Double.ofZ attempt) (Double.toNumber x) = false.
Proof.
  intros Hpos Hx. destruct x as [[| | |q]|]; cbn in Hx; try contradiction; try reflexivity.
  destruct (Double.lt (Double.ofZ attempt) (Double.toNumber (Some (Finite q)))) eqn:Hlt;
    [|reflexivity].
  apply lt_ofZ_Finite in Hlt. exfalso.
  assert (H0 : (inject_Z 0 <= inject_Z attempt)%Q) by (rewrite <- Zle_Qle; exact Hpos).
  change (inject_Z 0) with 0%Q in H0. lra.
Qed.

Lemma calls_cons_called (attempt : Z) (marks : list Retry.Mark) :
  calls (Retry.Called attempt :: marks) = S (calls marks).
Proof. reflexivity. Qed.

Lemma calls_cons_slept (ms : number) (marks : list Retry.Mark) :
  calls (Retry.Slept ms :: marks) = calls marks.
Proof. reflexivity. Qed.

Lemma mergeOptions_maxAttempts {E} (options : option (Retry.Options.t E)) :
  Retry.Merged.maxAttempts (Retry.mergeOptions options) =
    match maxAttemptsPassed options with
    | Retry.Missing => Some (Double.ofZ 3)
    | Retry.Present x => x
    end.
Proof. destruct options as [o|]; [|reflexivity]. cbn. destruct (Retry.Options.maxAttempts o); reflexivity. Qed.

Section RetryLoop.
Import Retry.
Context {T E S : Type}.
Variable round : Q -> number.
Variable pow : number -> number -> number.
Variable random : S -> number * S.
Variable sleep : number -> S -> S.
Variable fn : S -> (T + E) * S.
Variable opts : Merged.t E.

(** With no attempt left the loop ends at once, whatever the fuel. *)
Lemma retryLoop_exhausted (fuel : nat) (attempt : Z) (lastError : option E) (s : S) :
  Double.lt (Double.ofZ attempt) (Double.toNumber (Merged.maxAttempts opts)) = false ->
  retryLoop (T:=T) round pow random sleep fn fuel opts attempt lastError s = Some (throwLast lastError, s, []).
Proof. intros Hlt. destruct fuel; cbn [retryLoop]; rewrite Hlt; reflexivity. Qed.

Lemma calculateDelay_rounds_down (attempt : Z) (s : S) (d : number) (s' : S) :
  calculateDelay round pow random attempt (Merged.initialDelayMs opts)
    (Merged.maxDelayMs opts) (Merged.backoffMultiplier opts) (Merged.jitter opts) s = (d, s') ->
  delayRoundedDown round pow random opts attempt s d s'.
Proof.
  unfold calculateDelay, delayRoundedDown, withJitter, backoffDelay.
  destruct (truthy (Merged.jitter opts)).
  - destruct (random s) as [u s1]. intros [= <- <-]. split; reflexivity.
  - intros [= <- <-]. split; reflexivity.
Qed.

(** The loop is a run of the policy with the wait rounded down. *)
Lemma retryLoop_refines :
  forall fuel attempt lastError s result,
    retryLoop (T:=T) round pow random sleep fn fuel opts attempt lastError s = Some result ->
    RetryRun round sleep fn opts (delayRoundedDown round pow random opts)
      attempt lastError s result.
Proof.
  induction fuel as [|fuel IH]; intros attempt lastError s result; cbn [retryLoop];
    destruct (Double.lt (Double.ofZ attempt) (Double.toNumber (Merged.maxAttempts opts)))
      eqn:Hlt; try discriminate;
    try (intros [= <-]; apply run_exhausted; exact Hlt).
  destruct (fn s) as [[v|e] s1] eqn:Hfn.
  { intros [= <-]. eapply run_success; eassumption. }
  destruct (Merged.isRetryable opts) as [isRetryable|] eqn:Htest.
  2: { intros [= <-]. eapply run_no_test; eassumption. }
  destruct (isRetryable e) eqn:He; cbn [negb].
  2: { intros [= <-]. eapply run_terminal; eassumption. }
  destruct (Double.lt (Double.ofZ attempt) (Double.minus round _ _)) eqn:Hmore.
  - destruct (calculateDelay _ _ _ _ _ _ _ _ s1) as [d s2] eqn:Hd.
    destruct (retryLoop (T:=T) round pow random sleep fn fuel opts (attempt + 1) (Some e) (sleep d s2)) as [[[c s3] marks]|] eqn:Hrest;
      [|discriminate].
    intros [= <-]. eapply run_retry; try eassumption.
    + apply calculateDelay_rounds_down, Hd.
    + apply IH, Hrest.
  - destruct (retryLoop (T:=T) round pow random sleep fn fuel opts (attempt + 1) (Some e) s1) as [[[c s3] marks]|] eqn:Hrest;
      [|discriminate].
    intros [= <-]. eapply run_last; try eassumption. apply IH, Hrest.
Qed.

(** For a [maxAttempts] that is a number the loop ends, within as many
    iterations as there are whole numbers from [attempt] on below it, and it
    calls [fn] no more often, and once at least when [attempt] is below it. *)
Lemma retryLoop_calls (q : Q) :
  Merged.maxAttempts opts = Some (Finite q) ->
  forall fuel attempt lastError s,
    (Z.to_nat (Qceiling q - attempt) <= fuel)%nat ->
    exists c s' marks,
      retryLoop (T:=T) round pow random sleep fn fuel opts attempt lastError s = Some (c, s', marks) /\
      (calls marks <= Z.to_nat (Qceiling q - attempt))%nat /\
      ((inject_Z attempt < q)%Q -> (1 <= calls marks)%nat).
Proof.
  intros Hmax.
  induction fuel as [|fuel IH]; intros attempt lastError s Hfuel; cbn [retryLoop];
    rewrite Hmax; cbn [Double.toNumber];
    destruct (Double.lt (Double.ofZ attempt) (Finite q)) eqn:Hlt.
  - apply lt_ofZ_Finite in Hlt. exfalso.
    pose proof (Qle_ceiling q) as Hc.
    assert (Hz : attempt < Qceiling q) by (rewrite Zlt_Qlt; lra). lia.
  - eexists _, _, _. split; [reflexivity|]. split; [cbn; lia|].
    intros Hq. apply lt_ofZ_Finite in Hq. congruence.
  - apply lt_ofZ_Finite in Hlt.
    pose proof (Qle_ceiling q) as Hc.
    assert (Hz : attempt < Qceiling q) by (rewrite Zlt_Qlt; lra).
    destruct (fn s) as [[v|e] s1].
    { eexists _, _, _. split; [reflexivity|]. rewrite calls_cons_called. cbn. lia. }
    destruct (Merged.isRetryable opts) as [isRetryable|].
    2: { eexists _, _, _. split; [reflexivity|]. rewrite calls_cons_called. cbn. lia. }
    destruct (isRetryable e); cbn [negb].
    2: { eexists _, _, _. split; [reflexivity|]. rewrite calls_cons_called. cbn. lia. }
    destruct (Double.lt (Double.ofZ attempt) (Double.minus round _ _)).
    + destruct (calculateDelay _ _ _ _ _ _ _ _ s1) as [d s2].
      destruct (IH (attempt + 1) (Some e) (sleep d s2)) as (c & s3 & marks & -> & Hle & _);
        [lia|].
      eexists _, _, _. split; [reflexivity|].
      rewrite calls_cons_called, calls_cons_slept. lia.
    + destruct (IH (attempt + 1) (Some e) s1) as (c & s3 & marks & -> & Hle & _); [lia|].
      eexists _, _, _. split; [reflexivity|]. rewrite calls_cons_called. lia.
  - eexists _, _, _. split; [reflexivity|]. split; [cbn; lia|].
    intros Hq. apply lt_ofZ_Finite in Hq. congruence.
Qed.

(** Where the loop can end at all it does, given the fuel. *)
Lemma retryLoop_returns (n : nat) :
  enoughFuel (Merged.maxAttempts opts) = Some n ->
  forall fuel lastError s, (n <= fuel)%nat -> is_Some (retryLoop (T:=T) round pow random sleep fn fuel opts 0 lastError s).
Proof.
  intros Hn fuel lastError s Hfuel.
  destruct (Merged.maxAttempts opts) as [[| | |q]|] eqn:Hmax; cbn in Hn;
    try discriminate Hn;
    try (rewrite retryLoop_exhausted by (rewrite Hmax; reflexivity); eauto).
  injection Hn as <-.
  destruct (retryLoop_calls q Hmax fuel 0 lastError s) as (c & s' & marks & -> & _);
    [rewrite Z.sub_0_r; exact Hfuel|eauto].
Qed.

(** For a [maxAttempts] that is a whole number, and where the code gets
    [maxAttempts - 1] right, calls and sleeps take turns. *)
Lemma retryLoop_alternates (n : Z) :
  Merged.maxAttempts opts = Some (Double.ofZ n) ->
  Double.same (Double.minus round (Double.ofZ n) (Double.ofZ 1)) (Double.ofZ (n - 1)) ->
  forall fuel attempt lastError s,
    attempt < n ->
    (Z.to_nat (n - attempt) <= fuel)%nat ->
    exists c s' marks,
      retryLoop (T:=T) round pow random sleep fn fuel opts attempt lastError s = Some (c, s', marks) /\ Alternate attempt marks.
Proof.
  intros Hmax Hminus.
  induction fuel as [|fuel IH]; intros attempt lastError s Hattempt Hfuel; [lia|].
  cbn [retryLoop]. rewrite Hmax. cbn [Double.toNumber].
  rewrite lt_ofZ_ofZ. replace (attempt <? n) with true by (symmetry; apply Z.ltb_lt; lia).
  destruct (fn s) as [[v|e] s1].
  { eexists _, _, _. split; [reflexivity|constructor]. }
  destruct (Merged.isRetryable opts) as [isRetryable|].
  2: { eexists _, _, _. split; [reflexivity|constructor]. }
  destruct (isRetryable e); cbn [negb].
  2: { eexists _, _, _. split; [reflexivity|constructor]. }
  rewrite (lt_same _ _ _ Hminus), lt_ofZ_ofZ.
  destruct (attempt <? n - 1) eqn:Hmore.
  - apply Z.ltb_lt in Hmore.
    destruct (calculateDelay _ _ _ _ _ _ _ _ s1) as [d s2].
    destruct (IH (attempt + 1) (Some e) (sleep d s2)) as (c & s3 & marks & -> & Halt);
      [lia|lia|].
    eexists _, _, _. split; [reflexivity|]. constructor. exact Halt.
  - apply Z.ltb_ge in Hmore.
    rewrite retryLoop_exhausted
      by (rewrite Hmax; cbn [Double.toNumber]; rewrite lt_ofZ_ofZ; apply Z.ltb_ge; lia).
    eexists _, _, _. split; [reflexivity|constructor].
Qed.
End RetryLoop.

(** C2 (as amended).  For every options object, every operation and every
    state, and whatever the arithmetic of doubles is: a call of [withRetry]
    that returns is a run of the policy of the specification with the wait
    rounded down to whole milliseconds, which is [floor] of the capped
    backoff or, with jitter, [floor] of the capped backoff plus half of it
    times the number drawn.  That is: a failure that is not retryable is
    thrown at once; a retryable one is followed by the wait and the next
    attempt while [attempt < maxAttempts - 1], and by no wait otherwise; and
    when no attempt is left the last failure is thrown.  And the call does
    return, given the iterations, unless [maxAttempts] is plus infinity. *)
Theorem withRetry_follows_backoff_policy {T E S : Type} (round : Q -> number)
    (pow : number -> number -> number) (random : S -> number * S)
    (sleep : number -> S -> S) (fn : S -> (T + E) * S)
    (options : option (Retry.Options.t E)) (s : S) :
  let opts := Retry.mergeOptions options in
  (forall fuel result,
     Retry.withRetry round pow random sleep fn fuel options s = Some result ->
     RetryRun round sleep fn opts (delayRoundedDown round pow random opts)
       0 None s result) /\
  (forall n,
     enoughFuel (Retry.Merged.maxAttempts opts) = Some n ->
     forall fuel, (n <= fuel)%nat ->
     is_Some (Retry.withRetry round pow random sleep fn fuel options s)).
Proof.
  cbv zeta. split.
  - intros fuel result. apply retryLoop_refines.
  - intros n Hn fuel Hfuel. apply (retryLoop_returns _ _ _ _ _ _ n Hn), Hfuel.
Qed.

(** Three attempts at 125 ms and a multiplier of 1.5: waits of 125 and
    187 ms. *)
Lemma withRetry_follows_backoff_policy_witness :
  withRetry_sample 3 (Some fractionalBackoff) =
    Some (Retry.Rejected tt, 3%nat,
          [Retry.Called 0; Retry.Slept (Finite 125); Retry.Called 1;
           Retry.Slept (Finite 187); Retry.Called 2]) /\
  RetryRun Double.binary64 elapses failing
    (Retry.mergeOptions (Some fractionalBackoff))
    (delayRoundedDown Double.binary64 Double.pow (draws (Finite (1 # 2)))
       (Retry.mergeOptions (Some fractionalBackoff)))
    0 None 0%nat
    (Retry.Rejected tt, 3%nat,
     [Retry.Called 0; Retry.Slept (Finite 125); Retry.Called 1;
      Retry.Slept (Finite 187); Retry.Called 2]).
Proof.
  split; [vm_compute; reflexivity|].
  apply (withRetry_follows_backoff_policy Double.binary64 Double.pow
           (draws (Finite (1 # 2))) elapses failing
           (Some fractionalBackoff) 0%nat) with (fuel := 3%nat).
  vm_compute. reflexivity.
Defined.

(** With a multiplier of 1.5 the second wait is 187 ms where the formula of
    the claim gives 187.5 ms: the run of the code is no run of the policy as
    the claim words it.  And with [isRetryable] passed as [undefined] the
    first failure is not propagated: the call ends with a [TypeError]. *)
Lemma withRetry_wait_is_rounded_down :
  withRetry_sample 3 (Some fractionalBackoff) =
    Some (Retry.Rejected tt, 3%nat,
          [Retry.Called 0; Retry.Slept (Finite 125); Retry.Called 1;
           Retry.Slept (Finite 187); Retry.Called 2]) /\
  Double.same
    (backoffDelay Double.binary64 Double.pow
       (Retry.mergeOptions (Some fractionalBackoff)) 1)
    (Finite (375 # 2)) /\
  ~ RetryRun Double.binary64 elapses failing
      (Retry.mergeOptions (Some fractionalBackoff))
      (delayAsSpecified Double.binary64 Double.pow (draws (Finite (1 # 2)))
         (Retry.mergeOptions (Some fractionalBackoff)))
      0 None 0%nat
      (Retry.Rejected tt, 3%nat,
       [Retry.Called 0; Retry.Slept (Finite 125); Retry.Called 1;
        Retry.Slept (Finite 187); Retry.Called 2]) /\
  withRetry_sample 3 (Some withoutTest) =
    Some (Retry.RejectedTypeError, 1%nat, [Retry.Called 0]).
Proof.
  split; [vm_compute; reflexivity|]. split; [vm_compute; reflexivity|].
  split; [|vm_compute; reflexivity].
  intros H.
  inversion H as [| | | | |]; subst; clear H;
    try match goal with
        | Hlast : Double.lt _ (Double.minus _ _ _) = false |- _ =>
            vm_compute in Hlast; discriminate Hlast
        end.
  match goal with Hfn : failing _ = _ |- _ => injection Hfn as <- <- end.
  match goal with Hd : delayAsSpecified _ _ _ _ _ _ _ _ |- _ => destruct Hd as [-> _] end.
  match goal with
  | Hrest : RetryRun _ _ _ _ _ _ _ _ _ |- _ =>
      inversion Hrest as [| | | | |]; subst; clear Hrest
  end;
    try match goal with
        | Hlast : Double.lt _ (Double.minus _ _ _) = false |- _ =>
            vm_compute in Hlast; discriminate Hlast
        end.
  match goal with
  | Hd : delayAsSpecified _ _ _ _ _ _ _ _ |- _ =>
      destruct Hd as [_ Hd]; vm_compute in Hd; discriminate Hd
  end.
Qed.

(** C10 (as amended).  With [maxAttempts] passed as zero, a number below
    zero, minus infinity, [NaN] or [undefined], [withRetry] does not call the
    operation and rejects with [undefined], whatever the other options are.
    With [maxAttempts] passed as a number above zero, or left out, which
    makes it three, [withRetry] returns, given the iterations, having called
    the operation once at least and at most as often as the least whole
    number that is not below [maxAttempts] says: [maxAttempts] times at most
    where that is a whole number. *)
Theorem withRetry_attempts_bounded {T E S : Type} (round : Q -> number)
    (pow : number -> number -> number) (random : S -> number * S)
    (sleep : number -> S -> S) (fn : S -> (T + E) * S)
    (options : option (Retry.Options.t E)) (s : S) :
  (forall x,
     maxAttemptsPassed options = Retry.Present x ->
     letsNoAttempt x ->
     forall fuel,
       Retry.withRetry round pow random sleep fn fuel options s =
         Some (Retry.RejectedUndefined, s, [])) /\
  (forall q,
     maxAttemptsPassed options = Retry.Present (Some (Finite q)) \/
     maxAttemptsPassed options = Retry.Missing /\ q = 3%Q ->
     (0 < q)%Q ->
     forall fuel, (Z.to_nat (Qceiling q) <= fuel)%nat ->
     exists c s' marks,
       Retry.withRetry round pow random sleep fn fuel options s = Some (c, s', marks) /\
       (1 <= calls marks <= Z.to_nat (Qceiling q))%nat).
Proof.
  split.
  - intros x Hpassed Hx fuel. unfold Retry.withRetry.
    apply (retryLoop_exhausted round pow random sleep fn _ fuel 0 None s).
    rewrite mergeOptions_maxAttempts, Hpassed.
    apply letsNoAttempt_lt; [lia|exact Hx].
  - intros q Hpassed Hq fuel Hfuel. unfold Retry.withRetry.
    assert (Hmax : Retry.Merged.maxAttempts (Retry.mergeOptions options) = Some (Finite q)).
    { rewrite mergeOptions_maxAttempts.
      destruct Hpassed as [->|[-> ->]]; reflexivity. }
    destruct (retryLoop_calls round pow random sleep fn _ q Hmax fuel 0 None s)
      as (c & s' & marks & Hrun & Hle & Hge); [rewrite Z.sub_0_r; exact Hfuel|].
    exists c, s', marks. split; [exact Hrun|].
    rewrite Z.sub_0_r in Hle. split; [apply Hge; exact Hq|exact Hle].
Qed.

(** [{ maxAttempts: 0 }] and [{ maxAttempts: undefined }]: no call;
    [{ maxAttempts: 2 }]: one or two. *)
Lemma withRetry_attempts_bounded_witness :
  withRetry_sample 5 (Some (onlyMaxAttempts (Some (Double.ofZ 0)))) =
    Some (Retry.RejectedUndefined, 0%nat, []) /\
  withRetry_sample 5 (Some (onlyMaxAttempts None)) =
    Some (Retry.RejectedUndefined, 0%nat, []) /\
  exists c s' marks,
    withRetry_sample 5 (Some (onlyMaxAttempts (Some (Double.ofZ 2)))) =
      Some (c, s', marks) /\
    (1 <= calls marks <= 2)%nat.
Proof.
  split; [|split].
  - apply (withRetry_attempts_bounded Double.binary64 Double.pow
             (draws (Finite (1 # 2))) elapses failing
             (Some (onlyMaxAttempts (Some (Double.ofZ 0)))) 0%nat)
      with (x := Some (Double.ofZ 0)); [reflexivity|].
    cbn. discriminate.
  - apply (withRetry_attempts_bounded Double.binary64 Double.pow
             (draws (Finite (1 # 2))) elapses failing
             (Some (onlyMaxAttempts None)) 0%nat)
      with (x := None); [reflexivity|exact I].
  - apply (withRetry_attempts_bounded Double.binary64 Double.pow
             (draws (Finite (1 # 2))) elapses failing
             (Some (onlyMaxAttempts (Some (Double.ofZ 2)))) 0%nat)
      with (q := 2%Q); [left; reflexivity|reflexivity|vm_compute; lia].
Defined.

(** [{ maxAttempts: 2.5 }], which is not below 1, and an operation that
    fails on every call: three calls, more than [maxAttempts]. *)
Lemma withRetry_calls_more_often_than_maxAttempts :
  let maxAttempts := Finite (5 # 2) in
  let marks :=
    [Retry.Called 0; Retry.Slept (Finite 1250); Retry.Called 1;
     Retry.Slept (Finite 2500); Retry.Called 2] in
  Double.lt (Double.ofZ 1) maxAttempts = true /\
  withRetry_sample 3 (Some (onlyMaxAttempts (Some maxAttempts))) =
    Some (Retry.Rejected tt, 3%nat, marks) /\
  calls marks = 3%nat /\
  Double.lt maxAttempts (Double.ofZ (Z.of_nat (calls marks))) = true.
Proof. cbv zeta. repeat split; vm_compute; reflexivity. Qed.

(** The waits of [fetchQuota] after the first and the second attempt, in
    doubles: for the number drawn just below 1 the sum is rounded up to one
    and a half times the backoff, and for the double nearest to 0.999 the
    second wait is 2999 ms. *)
Example calculateDelay_in_doubles :
  let u := Finite (1 - Qpower 2 (-52)) in
  fst (Retry.calculateDelay Double.binary64 Double.pow (draws u) 0
         (Some (Double.ofZ 1000)) (Some (Double.ofZ 5000)) (Some (Double.ofZ 2))
         (Some true) 0%nat) = Finite 1500 /\
  fst (Retry.calculateDelay Double.binary64 Double.pow (draws u) 1
         (Some (Double.ofZ 1000)) (Some (Double.ofZ 5000)) (Some (Double.ofZ 2))
         (Some true) 0%nat) = Finite 3000 /\
  fst (Retry.calculateDelay Double.binary64 Double.pow
         (draws (Double.binary64 (999 # 1000))) 1
         (Some (Double.ofZ 1000)) (Some (Double.ofZ 5000)) (Some (Double.ofZ 2))
         (Some true) 0%nat) = Finite 2999.
Proof. cbv zeta. repeat split; vm_compute; reflexivity. Qed.

(** ** [services/ClaudeAPIService.ts] *)

(** A request rejects, with a [RetryableAPIError], exactly for the outcomes
    the specification calls retryable; for every other outcome it resolves. *)
Lemma callUsageAPIWithRetry_settles (accessToken : string) (w : World) :
  let o := usageApi w (usageCalls w) in
  let r := fst (callUsageAPIWithRetry accessToken w) in
  let w' := snd (callUsageAPIWithRetry accessToken w) in
  (if retryableAsSpecified o
   then exists m c, r = inr (RetryableAPIError m c)
   else exists q, r = inl q) /\
  usageCalls w' = S (usageCalls w) /\
  usageApi w' = usageApi w /\
  trace w' = trace w ++ [EvUsageRequest accessToken].
Proof.
  unfold callUsageAPIWithRetry, bind. cbn [emit].
  cbn [usageApi usageCalls setTrace].
  destruct (usageApi w (usageCalls w)) as [[code|] body | | message]; cbn.
  - split; [|auto].
    unfold handleUsageApiEnd, processUsageApiResponse.
    repeat case_bool_decide; simplify_eq; cbn.
    + destruct body; eauto.
    + eauto.
    + destruct (code =? 0) eqn:Hzero; cbn.
      * apply Z.eqb_eq in Hzero. subst. cbn. eauto.
      * destruct ((code =? 408) || _); eauto.
  - split; [eauto|auto].
  - split; [eauto|auto].
  - split; [eauto|auto].
Qed.

Lemma calculateDelay_usage attempt i m b j w :
  usageCalls (snd (calculateDelay attempt i m b j w)) = usageCalls w /\
  usageApi (snd (calculateDelay attempt i m b j w)) = usageApi w.
Proof. unfold calculateDelay. destruct j; split; reflexivity. Qed.

(** The requests one run of the retry loop of [fetchQuota] makes. *)
Lemma usage_retryLoop_requests (accessToken : string) :
  forall remaining attempt lastError w,
    usageCalls (snd (retryLoop (callUsageAPIWithRetry accessToken)
                       (mergeOptions (Some fetchQuotaRetryOptions))
                       remaining attempt lastError w)) =
    (usageCalls w + attemptsMade (usageApi w) (usageCalls w) remaining)%nat.
Proof.
  induction remaining as [|k IH]; intros attempt lastError w.
  - cbn. lia.
  - rewrite retryLoop_step. cbn [attemptsMade].
    pose proof (callUsageAPIWithRetry_settles accessToken (snd (emit (EvFnInvoked attempt) w)))
      as (Hr & Hcalls & Hapi & _).
    cbn [emit snd usageApi usageCalls setTrace] in *.
    destruct (callUsageAPIWithRetry accessToken _) as [r w1]. cbn [fst snd] in *.
    destruct (retryableAsSpecified (usageApi w (usageCalls w))).
    + destruct Hr as (m & c & ->).
      change (Resolved.isRetryable (mergeOptions (Some fetchQuotaRetryOptions))
                (RetryableAPIError m c)) with true. cbv iota.
      destruct (attempt <? _).
      * pose proof (calculateDelay_usage attempt
          (Resolved.initialDelayMs (mergeOptions (Some fetchQuotaRetryOptions)))
          (Resolved.maxDelayMs (mergeOptions (Some fetchQuotaRetryOptions)))
          (Resolved.backoffMultiplier (mergeOptions (Some fetchQuotaRetryOptions)))
          (Resolved.jitter (mergeOptions (Some fetchQuotaRetryOptions))) w1) as [Hc Ha].
        destruct (calculateDelay _ _ _ _ _ w1) as [d w2]. cbn [snd] in *.
        rewrite IH. cbn [sleep snd usageCalls usageApi setNow setTrace].
        rewrite Hc, Ha, Hcalls, Hapi. lia.
      * rewrite IH, Hcalls, Hapi. lia.
    + destruct Hr as (q & ->). cbn [snd]. lia.
Qed.

Lemma sameFiles_refl w : sameFiles w w.
Proof. repeat split. Qed.

Lemma sameFiles_trans w1 w2 w3 : sameFiles w1 w2 -> sameFiles w2 w3 -> sameFiles w1 w3.
Proof. unfold sameFiles. intros (?&?&?&?&?&?) (?&?&?&?&?&?). repeat split; congruence. Qed.

Lemma callUsageAPIWithRetry_sameFiles accessToken w :
  sameFiles w (snd (callUsageAPIWithRetry accessToken w)).
Proof.
  unfold callUsageAPIWithRetry, bind. cbn [emit].
  cbn [usageApi usageCalls setTrace].
  destruct (usageApi w (usageCalls w)); repeat split.
Qed.

Lemma calculateDelay_sameFiles attempt i m b j w :
  sameFiles w (snd (calculateDelay attempt i m b j w)).
Proof. unfold calculateDelay. destruct j; repeat split. Qed.

(** The retry loop of [fetchQuota] writes no file and touches no snapshot; its
    trace holds events of the quota source only and starts with the first
    request. *)
Lemma usage_retryLoop_frame (accessToken : string) :
  forall remaining attempt lastError w,
    let w' := snd (retryLoop (callUsageAPIWithRetry accessToken)
                     (mergeOptions (Some fetchQuotaRetryOptions))
                     remaining attempt lastError w) in
    sameFiles w w' /\
    exists tr, trace w' = trace w ++ tr /\
      forallb isNetworkEvent tr = true /\
      ((1 <= remaining)%nat ->
       exists rest, tr = EvFnInvoked attempt :: EvUsageRequest accessToken :: rest).
Proof.
  induction remaining as [|k IH]; intros attempt lastError w; cbv zeta.
  - cbn. split; [apply sameFiles_refl|]. exists []. rewrite app_nil_r.
    split; [reflexivity|]. split; [reflexivity|lia].
  - rewrite retryLoop_step.
    pose proof (callUsageAPIWithRetry_settles accessToken (snd (emit (EvFnInvoked attempt) w)))
      as (_ & _ & _ & Htr).
    pose proof (callUsageAPIWithRetry_sameFiles accessToken (snd (emit (EvFnInvoked attempt) w)))
      as Hsame.
    cbn [emit snd trace setTrace] in Htr, Hsame.
    assert (Hsame0 : sameFiles w (setTrace (trace w ++ [EvFnInvoked attempt]) w))
      by (repeat split).
    cbn [emit snd].
    destruct (callUsageAPIWithRetry accessToken _) as [[q|e] w1]; cbn [fst snd] in *.
    + split; [eapply sameFiles_trans; eauto|].
      exists [EvFnInvoked attempt; EvUsageRequest accessToken].
      rewrite Htr, <- app_assoc. split; [reflexivity|]. split; [reflexivity|eauto].
    + destruct (Resolved.isRetryable _ e).
      * destruct (attempt <? _).
        -- pose proof (calculateDelay_sameFiles attempt
             (Resolved.initialDelayMs (mergeOptions (Some fetchQuotaRetryOptions)))
             (Resolved.maxDelayMs (mergeOptions (Some fetchQuotaRetryOptions)))
             (Resolved.backoffMultiplier (mergeOptions (Some fetchQuotaRetryOptions)))
             (Resolved.jitter (mergeOptions (Some fetchQuotaRetryOptions))) w1) as Hsd.
           pose proof (calculateDelay_trace attempt
             (Resolved.initialDelayMs (mergeOptions (Some fetchQuotaRetryOptions)))
             (Resolved.maxDelayMs (mergeOptions (Some fetchQuotaRetryOptions)))
             (Resolved.backoffMultiplier (mergeOptions (Some fetchQuotaRetryOptions)))
             (Resolved.jitter (mergeOptions (Some fetchQuotaRetryOptions))) w1) as Htd.
           destruct (calculateDelay _ _ _ _ _ w1) as [d w2]. cbn [snd] in *.
           destruct (IH (attempt + 1) (Some e) (snd (sleep d w2))) as (Hs2 & tr2 & Htr2 & Hnet2 & _).
           split.
           ++ eapply sameFiles_trans; [exact Hsame0|].
              eapply sameFiles_trans; [exact Hsame|].
              eapply sameFiles_trans; [exact Hsd|].
              eapply sameFiles_trans; [|exact Hs2]. repeat split.
           ++ exists ([EvFnInvoked attempt; EvUsageRequest accessToken] ++ [EvSleep d] ++ tr2).
              rewrite Htr2. cbn [sleep snd trace setTrace setNow]. rewrite Htd, Htr.
              split; [now rewrite <- !app_assoc|].
              split; [cbn; exact Hnet2|]. intros _. eexists. reflexivity.
        -- destruct (IH (attempt + 1) (Some e) w1) as (Hs2 & tr2 & Htr2 & Hnet2 & _).
           split.
           ++ eapply sameFiles_trans; [exact Hsame0|].
              eapply sameFiles_trans; [exact Hsame|exact Hs2].
           ++ exists ([EvFnInvoked attempt; EvUsageRequest accessToken] ++ tr2).
              rewrite Htr2, Htr. split; [now rewrite <- !app_assoc|].
              split; [cbn; exact Hnet2|]. intros _. eexists. reflexivity.
      * cbn [snd]. split; [eapply sameFiles_trans; eauto|].
        exists [EvFnInvoked attempt; EvUsageRequest accessToken].
        rewrite Htr, <- app_assoc. split; [reflexivity|]. split; [reflexivity|eauto].
Qed.

(** A token refresh that the endpoint answers with 200 and a body. *)
Lemma refreshToken_success (w : World) (file : CredentialsFile.t)
    (token : string) (response : TokenResponse.t) :
  credFile w = Parsed file ->
  tokenApi w (tokenCalls w) = TokenAnswer (Some 200) (Some response) ->
  let newCreds := credentialsOfResponse response token (now w) in
  exists w1,
    refreshToken token w = (Some newCreds, w1) /\
    dataDirExists w1 = dataDirExists w /\
    statsFile w1 = statsFile w /\
    credFile w1 = credFileAfterSave w file newCreds /\
    trace w1 =
      trace w ++ [EvTokenRequest token] ++
        (if credWritable w then [EvCredentialsWritten] else []) /\
    usageApi w1 = usageApi w /\
    usageCalls w1 = usageCalls w /\
    now w1 = now w.
Proof.
  intros Hfile Hanswer newCreds.
  unfold refreshToken, bind. cbn [emit]. wsimpl.
  rewrite Hanswer. rewrite bool_decide_eq_true_2 by reflexivity.
  cbn [dateNow]. unfold saveCredentials, credFileAfterSave. wsimpl.
  rewrite Hfile. fold newCreds.
  destruct (credWritable w) eqn:Hwritable; [|destruct (credWriteTears w) eqn:Htears].
  - cbn [emit ret]. wsimpl. eexists. split; [reflexivity|]. wsimpl.
    rewrite <- app_assoc. auto 8.
  - cbn [ret]. eexists. split; [reflexivity|]. wsimpl. auto 8.
  - cbn [ret]. eexists. split; [reflexivity|]. wsimpl. auto 8.
Qed.

(** [fetchQuota] writes nothing but the credentials file, and that only by
    replacing its [claudeAiOauth] member; it touches no snapshot object and
    leaves events of the quota source only. *)
Lemma fetchQuota_frame (w : World) :
  dataDirExists (snd (fetchQuota w)) = dataDirExists w /\
  statsFile (snd (fetchQuota w)) = statsFile w /\
  (credFile (snd (fetchQuota w)) = credFile w \/
   exists file,
     credFile w = Parsed file /\
     (credFile (snd (fetchQuota w)) = Corrupt \/
      exists newCreds,
        credFile (snd (fetchQuota w)) =
          Parsed (CredentialsFile.mk (Some newCreds) (CredentialsFile.otherFields file)))) /\
  heap (snd (fetchQuota w)) = heap w /\
  exists tr,
    trace (snd (fetchQuota w)) = trace w ++ tr /\ forallb isNetworkEvent tr = true.
Proof.
  assert (Husage : forall token w0 (k : Completion QuotaResult.t JsError -> M QuotaResult.t),
             (forall c w1, snd (k c w1) = w1) ->
             let w' := snd ((c <- withRetry (callUsageAPIWithRetry token)
                                    (Some fetchQuotaRetryOptions) ;; k c) w0) in
             sameFiles w0 w' /\
             exists tr, trace w' = trace w0 ++ tr /\ forallb isNetworkEvent tr = true).
  { intros token w0 k Hk. unfold bind, withRetry.
    match goal with
    | |- context [retryLoop ?f ?o ?n ?a ?l ?w1] =>
        pose proof (usage_retryLoop_frame token n a l w1) as [Hs (tr & Htr & Hnet & _)];
        destruct (retryLoop f o n a l w1) as [c w']
    end.
    cbv zeta. rewrite Hk. split; [exact Hs|]. exists tr. auto. }
  assert (Hstay : forall w0 : World, exists tr,
             trace w0 = trace w0 ++ tr /\ forallb isNetworkEvent tr = true).
  { intros w0. exists []. rewrite app_nil_r. auto. }
  assert (Hone : forall token, exists tr,
             trace w ++ [EvTokenRequest token] = trace w ++ tr /\
             forallb isNetworkEvent tr = true).
  { intros token. exists [EvTokenRequest token]. auto. }
  focus_on (snd (fetchQuota w)).
  unfold fetchQuota, bind at 1. unfold getCredentials.
  destruct (credFile w) as [| |file] eqn:Hfile; cbn [ret snd];
    [unfocus; rewrite Hfile; leaf|unfocus; rewrite Hfile; leaf|].
  destruct (CredentialsFile.claudeAiOauth file) as [creds|]; cbn [ret snd];
    [|unfocus; rewrite Hfile; leaf].
  unfold bind at 1. unfold isTokenExpired, bind at 1. cbn [dateNow ret].
  destruct (_ <? now w).
  - unfold bind at 1. unfold bind at 1.
    unfold refreshToken, bind at 1. cbn [emit].
    unfold bind at 1. wsimpl.
    destruct (tokenApi w (tokenCalls w)) as [status body| |message]; cbn [ret].
    + case_bool_decide; cbn [ret snd]; wsimpl; [|unfocus; wsimpl; leaf].
      destruct body as [response|]; cbn [ret snd]; wsimpl; [|unfocus; wsimpl; leaf].
      unfold bind at 1. cbn [dateNow]. unfold bind at 1.
      unfold saveCredentials. wsimpl. rewrite Hfile.
      destruct (credWritable w); [|destruct (credWriteTears w)].
      * cbn [emit ret]. wsimpl.
        match goal with
        | |- context [bind (withRetry (callUsageAPIWithRetry ?tok) _) ?k ?w0] =>
            destruct (Husage tok w0 k) as ((Hd & Hs & Hc & _ & _ & Hh) & tr & Htr & Hnet);
              [reflexivity|]
        end.
        unfocus. rewrite Hd, Hs, Hc, Hh, Htr. wsimpl.
        split; [reflexivity|]. split; [reflexivity|]. split; [right; eauto|].
        split; [reflexivity|].
        exists ([EvTokenRequest (OAuthCredentials.refreshToken creds)] ++
                [EvCredentialsWritten] ++ tr).
        split; [now rewrite <- !app_assoc|]. cbn. exact Hnet.
      * cbn [ret].
        match goal with
        | |- context [bind (withRetry (callUsageAPIWithRetry ?tok) _) ?k ?w0] =>
            destruct (Husage tok w0 k) as ((Hd & Hs & Hc & _ & _ & Hh) & tr & Htr & Hnet);
              [reflexivity|]
        end.
        unfocus. rewrite Hd, Hs, Hc, Hh, Htr. wsimpl.
        split; [reflexivity|]. split; [reflexivity|]. split; [right; eauto|].
        split; [reflexivity|].
        exists ([EvTokenRequest (OAuthCredentials.refreshToken creds)] ++ tr).
        split; [now rewrite <- !app_assoc|]. cbn. exact Hnet.
      * cbn [ret].
        match goal with
        | |- context [bind (withRetry (callUsageAPIWithRetry ?tok) _) ?k ?w0] =>
            destruct (Husage tok w0 k) as ((Hd & Hs & Hc & _ & _ & Hh) & tr & Htr & Hnet);
              [reflexivity|]
        end.
        unfocus. rewrite Hd, Hs, Hc, Hh, Htr. wsimpl.
        split; [reflexivity|]. split; [reflexivity|]. split; [auto|].
        split; [reflexivity|].
        exists ([EvTokenRequest (OAuthCredentials.refreshToken creds)] ++ tr).
        split; [now rewrite <- !app_assoc|]. cbn. exact Hnet.
    + unfocus. wsimpl. leaf.
    + unfocus. wsimpl. leaf.
  - unfold bind at 1. cbn [ret].
    match goal with
    | |- context [bind (withRetry (callUsageAPIWithRetry ?tok) _) ?k ?w0] =>
        destruct (Husage tok w0 k) as ((Hd & Hs & Hc & _ & _ & Hh) & tr & Htr & Hnet);
          [reflexivity|]
    end.
    unfocus. rewrite Hd, Hs, Hc, Hh. split; [reflexivity|]. split; [reflexivity|].
    split; [auto|]. split; [reflexivity|]. exists tr. auto.
Qed.


(** The first two steps of [fetchQuota]: with an access token in use it goes
    on to the usage endpoint, having made at most a token refresh. *)
Lemma fetchQuota_usage_phase (w : World) (token : string) :
  accessTokenInUse w = Some token ->
  exists w1 pre,
    fetchQuota w =
      (c <- withRetry (callUsageAPIWithRetry token) (Some fetchQuotaRetryOptions) ;;
       ret (quotaResultOfCompletion c)) w1 /\
    usageApi w1 = usageApi w /\
    usageCalls w1 = usageCalls w /\
    now w1 = now w /\
    trace w1 = trace w ++ pre /\
    forallb isCredentialEvent pre = true.
Proof.
  unfold accessTokenInUse. intros Htoken.
  destruct (credFile w) as [| |file] eqn:Hfile; try discriminate Htoken.
  destruct (CredentialsFile.claudeAiOauth file) as [creds|] eqn:Hoauth;
    [|discriminate Htoken].
  destruct (OAuthCredentials.expiresAt creds - 5 * 60 * 1000 <? now w) eqn:Hexpired.
  - destruct (tokenApi w (tokenCalls w)) as [statusCode [response|]| |] eqn:Hanswer;
      try discriminate Htoken.
    case_bool_decide as Hok; [|discriminate Htoken]. subst statusCode.
    injection Htoken as <-.
    destruct (refreshToken_success w file (OAuthCredentials.refreshToken creds) response
                Hfile Hanswer) as (w1 & Hrefresh & _ & _ & _ & Htr & Hapi & Hcalls & Hnow).
    exists w1. eexists. split; [|split; [exact Hapi|split; [exact Hcalls|split; [exact Hnow|
      split; [exact Htr|destruct (credWritable w); reflexivity]]]]].
    unfold fetchQuota, bind at 1. unfold getCredentials. rewrite Hfile, Hoauth.
    unfold bind at 1. unfold isTokenExpired, bind at 1. cbn [dateNow ret].
    rewrite Hexpired.
    unfold bind at 1. unfold bind at 1. rewrite Hrefresh. reflexivity.
  - injection Htoken as <-.
    exists w, []. rewrite app_nil_r.
    split; [|auto 6].
    unfold fetchQuota, bind at 1. unfold getCredentials. rewrite Hfile, Hoauth.
    unfold bind at 1. unfold isTokenExpired, bind at 1. cbn [dateNow ret].
    rewrite Hexpired. reflexivity.
Qed.

(** C3.  When [fetchQuota] gets as far as the usage endpoint, it follows a
    failure there by another request exactly when the status is one of 408,
    429, 500, 502, 503, 504 or the failure is a timeout or a request error,
    three requests at most; and when the first answer is a 401 it fails with
    the reauthenticate message after that one request, with no wait. *)
Theorem fetchQuota_retries_only_transient_failures (w : World) (token : string) :
  accessTokenInUse w = Some token ->
  usageCalls (snd (fetchQuota w)) =
    (usageCalls w + attemptsMade (usageApi w) (usageCalls w) 3)%nat /\
  (forall body, usageApi w (usageCalls w) = Response (Some 401) body ->
     fst (fetchQuota w) = QuotaResult.mk false None (Some AUTH_FAILED_MESSAGE) /\
     (exists pre,
        forallb isCredentialEvent pre = true /\
        trace (snd (fetchQuota w)) =
          trace w ++ pre ++ [EvFnInvoked 0; EvUsageRequest token]) /\
     now (snd (fetchQuota w)) = now w).
Proof.
  intros Htoken.
  destruct (fetchQuota_usage_phase w token Htoken)
    as (w1 & pre & Hstart & Hapi & Hcalls & Hnow & Htr & Hpre).
  rewrite Hstart. unfold bind, ret, withRetry.
  change (Z.to_nat (Resolved.maxAttempts (mergeOptions (Some fetchQuotaRetryOptions))))
    with 3%nat.
  split.
  - pose proof (usage_retryLoop_requests token 3 0 None w1) as Hreq.
    destruct (retryLoop _ _ 3 0 None w1) as [c w']. cbn [snd] in *.
    rewrite Hreq, Hapi, Hcalls. reflexivity.
  - intros body H401.
    rewrite retryLoop_step.
    unfold callUsageAPIWithRetry, bind. cbn [emit snd usageApi usageCalls setTrace].
    rewrite Hapi, Hcalls, H401. cbn.
    split; [reflexivity|]. split; [|exact Hnow].
    exists pre. split; [exact Hpre|]. rewrite Htr, <- !app_assoc. reflexivity.
Qed.

Lemma fetchQuota_retries_only_transient_failures_witness :
  let w := expiredTokenWorld true in
  usageCalls (snd (fetchQuota w)) =
    (usageCalls w + attemptsMade (usageApi w) (usageCalls w) 3)%nat /\
  (forall body, usageApi w (usageCalls w) = Response (Some 401) body ->
     fst (fetchQuota w) = QuotaResult.mk false None (Some AUTH_FAILED_MESSAGE) /\
     (exists pre,
        forallb isCredentialEvent pre = true /\
        trace (snd (fetchQuota w)) =
          trace w ++ pre ++ [EvFnInvoked 0; EvUsageRequest "access-2"]) /\
     now (snd (fetchQuota w)) = now w).
Proof.
  apply (fetchQuota_retries_only_transient_failures (expiredTokenWorld true) "access-2").
  reflexivity.
Defined.

(** Two answers of 429 and then 200: three requests, two waits, success. *)
Example fetchQuota_rate_limited_twice :
  QuotaResult.success (fst (fetchQuota rateLimitedWorld)) = true /\
  trace (snd (fetchQuota rateLimitedWorld)) =
    [EvFnInvoked 0; EvUsageRequest "access-1"; EvSleep 1250;
     EvFnInvoked 1; EvUsageRequest "access-1"; EvSleep 2500;
     EvFnInvoked 2; EvUsageRequest "access-1"].
Proof. split; vm_compute; reflexivity. Qed.

(** A 401: one request, no wait. *)
Example fetchQuota_unauthorized :
  fst (fetchQuota unauthorizedWorld) = QuotaResult.mk false None (Some AUTH_FAILED_MESSAGE) /\
  trace (snd (fetchQuota unauthorizedWorld)) = [EvFnInvoked 0; EvUsageRequest "access-1"].
Proof. split; vm_compute; reflexivity. Qed.




(** ** [services/ClaudeDataService.ts] *)

Example isoDate_sample : toISODate 1704900000000 = "2024-01-10".
Proof. reflexivity. Qed.

Example isoDate_leap_day : isoDateOfDay 19782 = "2024-02-29".
Proof. reflexivity. Qed.

Example lateEvening_dates :
  toISODate lateEvening = "2024-01-10" /\ localISODate lateEvening 120 = "2024-01-11".
Proof. split; reflexivity. Qed.

(** The loops of [getWeeklyStats] add up the entries dated [weekAgoStr] or
    later, and no others. *)
Lemma fold_left_conditional_sum {A} (p : A -> bool) (f : A -> Z) (l : list A) (start : Z) :
  fold_left (fun acc x => if p x then acc + f x else acc) l start =
  start + fold_right Z.add 0 (map f (List.filter p l)).
Proof.
  revert start. induction l as [|x l IH]; intros start; cbn [fold_left List.filter].
  - cbn. lia.
  - rewrite IH. destruct (p x); cbn [map fold_right]; lia.
Qed.

Lemma getWeeklyStats_window (nowMs : Z) (metrics : UsageMetrics.t) :
  let weekAgoStr := isoDateOfDay (utcDay nowMs - 7) in
  let recentActivity :=
    List.filter (fun a => strGe (DailyActivity.date a) weekAgoStr)
      (UsageMetrics.dailyActivity metrics) in
  let recentTokens :=
    List.filter (fun d => strGe (DailyModelTokens.date d) weekAgoStr)
      (UsageMetrics.dailyModelTokens metrics) in
  getWeeklyStats nowMs metrics =
  WeeklyStats.mk
    (fold_right Z.add 0 (map (fun a => orZero (DailyActivity.messageCount a)) recentActivity))
    (fold_right Z.add 0
       (map (fun d => sumValues (orEmptyMap (DailyModelTokens.tokensByModel d))) recentTokens))
    (fold_right Z.add 0 (map (fun a => orZero (DailyActivity.sessionCount a)) recentActivity)).
Proof.
  cbv zeta. unfold getWeeklyStats.
  assert (Hday : toISODate (setDateMinus nowMs 7) = isoDateOfDay (utcDay nowMs - 7)).
  { unfold toISODate, setDateMinus, utcDay, MS_PER_DAY. f_equal.
    replace (nowMs - 7 * 86400000) with (nowMs + (-7) * 86400000) by lia.
    rewrite Z.div_add by lia. lia. }
  rewrite Hday.
  rewrite !(fold_left_conditional_sum _ _ _ 0). reflexivity.
Qed.

(** C4, at the input where it fails.  Over daily entries for the ten days up
    to today, [getWeeklyStats] adds up eight days, from the day seven days
    before today on; the trailing seven calendar days give 7, 700 and 7. *)
Theorem getWeeklyStats_counts_eight_days :
  getWeeklyStats 1704900000000 tenDaySnapshot = WeeklyStats.mk 8 800 8 /\
  weeklyStatsAsSpecified 1704900000000 tenDaySnapshot = WeeklyStats.mk 7 700 7.
Proof. split; vm_compute; reflexivity. Qed.

(** C5 (as amended).  [loadMetrics] takes today's counters from the first
    daily-activity entry and the first daily-token entry whose date is today's
    calendar date in UTC; where no entry has that date the counters are zero. *)
Theorem loadMetrics_today_is_the_utc_date (w : World) (stats : StatsCache.t) :
  dataDirExists w = true ->
  statsFile w = Parsed stats ->
  let today := toISODate (now w) in
  let metrics := fst (loadMetricsValue w) in
  match jsFind (fun d => String.eqb (DailyActivity.date d) today)
          (orEmptyList (StatsCache.dailyActivity stats)) with
  | Some a =>
      UsageMetrics.todayMessages metrics = orZero (DailyActivity.messageCount a) /\
      UsageMetrics.todaySessions metrics = orZero (DailyActivity.sessionCount a) /\
      UsageMetrics.todayToolCalls metrics = orZero (DailyActivity.toolCallCount a)
  | None =>
      UsageMetrics.todayMessages metrics = 0 /\
      UsageMetrics.todaySessions metrics = 0 /\
      UsageMetrics.todayToolCalls metrics = 0
  end /\
  match jsFind (fun d => String.eqb (DailyModelTokens.date d) today)
          (orEmptyList (StatsCache.dailyModelTokens stats)) with
  | Some d =>
      UsageMetrics.todayTokens metrics =
        sumValues (orEmptyMap (DailyModelTokens.tokensByModel d))
  | None => UsageMetrics.todayTokens metrics = 0
  end.
Proof.
  intros Hdir Hstats today metrics. subst metrics.
  unfold loadMetricsValue, bind. cbn [dateNow]. rewrite Hdir. cbn [negb].
  unfold loadStatsCache. rewrite Hstats.
  unfold getTodayDateString, bind. cbn [dateNow ret]. fold today.
  unfold loadCredentials, populateThrows.
  destruct (StatsCache.dailyModelTokens stats) as [tokens|] eqn:Htokens;
    [|destruct (StatsCache.dailyModelTokensFalsy stats)];
    cbv beta iota zeta;
    try (destruct (credFile w) as [| |file]; cbn [fst];
         try destruct (CredentialsFile.claudeAiOauth file));
    cbn; rewrite ?Htokens;
    (split;
      [ destruct (StatsCache.dailyActivity stats) as [l|]; cbn;
        [destruct (jsFind _ l)|]; auto
      | cbn; try destruct (jsFind _ tokens); auto ]).
Qed.

(** The instance the specification names: 42 messages dated today, no token
    entry. *)
Lemma loadMetrics_today_is_the_utc_date_witness :
  let w := worldWithCache lateEvening (cacheWithMessagesOn "2024-01-10") in
  let metrics := fst (loadMetricsValue w) in
  UsageMetrics.todayMessages metrics = 42 /\ UsageMetrics.todayTokens metrics = 0.
Proof.
  cbv zeta.
  pose proof (loadMetrics_today_is_the_utc_date
                (worldWithCache lateEvening (cacheWithMessagesOn "2024-01-10"))
                (cacheWithMessagesOn "2024-01-10") eq_refl eq_refl) as [Hactivity Htokens].
  vm_compute in Hactivity. vm_compute in Htokens.
  destruct Hactivity as [Hmessages _].
  split; [exact Hmessages|exact Htokens].
Defined.

(** Late in the evening two hours east of UTC the entry dated today in local
    time is not the one the code looks for: its 42 messages are not counted. *)
Lemma loadMetrics_ignores_the_local_date :
  let w := worldWithCache lateEvening (cacheWithMessagesOn "2024-01-11") in
  localISODate (now w) 120 = "2024-01-11" /\
  UsageMetrics.todayMessages (fst (loadMetricsValue w)) = 0 /\
  UsageMetrics.todayMessages (fst (loadMetricsValue w)) <> 42.
Proof. cbv zeta. repeat split; vm_compute; congruence. Qed.

(** ** [services/FileWatcher.ts] *)

Section Debounce.
Import FileWatcher.

Lemma run_app (a b : list Input) (s : Loop) : run (a ++ b) s = run b (run a s).
Proof. unfold run. apply fold_left_app. Qed.

Lemma run_cons (i : Input) (l : list Input) (s : Loop) : run (i :: l) s = run l (step s i).
Proof. reflexivity. Qed.

Lemma run_nil (s : Loop) : run [] s = s.
Proof. reflexivity. Qed.

Lemma clearTimeout_own (h : nat) (due : Z) : clearTimeout h [(h, due)] = [].
Proof. unfold clearTimeout. cbn. rewrite Nat.eqb_refl. reflexivity. Qed.

Lemma stop_quiet (s : Loop) : tidy s -> quiet (stop s) /\ fired (stop s) = fired s.
Proof.
  unfold tidy, quiet, stop. destruct (debounceTimer (fw s)) as [h|]; cbn.
  - intros [due ->]. rewrite clearTimeout_own. auto.
  - intros ->. auto.
Qed.

Lemma step_tidy (s : Loop) (i : Input) : tidy s -> tidy (step s i).
Proof.
  intros Htidy. destruct i as [dirExists watchOk| |sameFile| |ms]; cbn [step].
  - unfold start. destruct (isWatching (fw s)); [assumption|].
    destruct dirExists; cbn [negb]; [|assumption].
    destruct watchOk; assumption.
  - unfold tidy. destruct (stop_quiet s Htidy) as [(_ & -> & ->) _]. reflexivity.
  - destruct (watcher (fw s) && sameFile); [|assumption].
    unfold tidy, handleFileChange in *. cbn.
    destruct (debounceTimer (fw s)) as [h|].
    + destruct Htidy as [due ->]. rewrite clearTimeout_own. eauto.
    + rewrite Htidy. eauto.
  - destruct (watcher (fw s)); [|assumption].
    unfold tidy. destruct (stop_quiet s Htidy) as [(_ & -> & ->) _]. reflexivity.
  - unfold tidy, elapse in *.
    destruct (debounceTimer (fw s)) as [h|] eqn:Hh.
    + destruct Htidy as [due ->]. cbn.
      destruct (due <=? clock s + Z.max 0 ms); cbn; [reflexivity|].
      rewrite Hh. eauto.
    + rewrite Htidy. cbn. rewrite Hh. reflexivity.
Qed.

Lemma run_tidy (inputs : list Input) (s : Loop) : tidy s -> tidy (run inputs s).
Proof.
  revert s. induction inputs as [|i inputs IH]; intros s Hs; [exact Hs|].
  cbn. apply IH, step_tidy, Hs.
Qed.

Lemma initial_tidy (t0 : Z) : tidy (initial t0).
Proof. reflexivity. Qed.

(** Once stopped, nothing fires as long as nobody calls [start]. *)
Lemma run_quiet (inputs : list Input) (s : Loop) :
  quiet s ->
  forallb (fun i => negb (isStart i)) inputs = true ->
  fired (run inputs s) = fired s.
Proof.
  revert s. induction inputs as [|i inputs IH]; intros s Hq Hno; [reflexivity|].
  cbn [forallb] in Hno. apply andb_prop in Hno as [Hi Hrest].
  cbn. destruct Hq as (Hw & Hd & Ht).
  assert (Hstep : quiet (step s i) /\ fired (step s i) = fired s).
  { destruct i as [dirExists watchOk| |sameFile| |ms]; cbn [step].
    - discriminate Hi.
    - apply stop_quiet. unfold tidy. rewrite Hd. exact Ht.
    - rewrite Hw. cbn. unfold quiet. auto.
    - rewrite Hw. unfold quiet. auto.
    - unfold elapse, quiet. rewrite Ht. cbn. auto. }
  destruct Hstep as [Hq' Hf']. rewrite IH; assumption.
Qed.

Lemma handleFileChange_armed (s : Loop) :
  watcher (fw s) = true -> tidy s ->
  let s' := handleFileChange s in
  armed s' /\ clock s' = clock s /\ fired s' = fired s.
Proof.
  intros Hw Htidy. unfold armed, handleFileChange, tidy in *. cbn.
  destruct (debounceTimer (fw s)) as [h|].
  - destruct Htidy as [due ->]. rewrite clearTimeout_own. cbn. eauto 6.
  - rewrite Htidy. cbn. eauto 6.
Qed.

Lemma armed_tidy (s : Loop) : armed s -> tidy s.
Proof. intros (_ & h & Hh & Ht). unfold tidy. rewrite Hh. eauto. Qed.

(** An event that comes before the timer is due sets the timer anew. *)
Lemma rearm (s : Loop) (g : Z) :
  armed s -> 0 <= g < debounceMs ->
  let s' := step (step s (Elapse g)) (FsEvent true) in
  armed s' /\ clock s' = clock s + g /\ fired s' = fired s.
Proof.
  intros (Hw & h & Hh & Ht) Hg. cbn [step].
  assert (Hwait : elapse g s = mkLoop (fw s) (clock s + g) (timers s) (nextHandle s) (fired s)).
  { unfold elapse. rewrite Ht. cbn.
    replace (Z.max 0 g) with g by lia.
    replace (clock s + debounceMs <=? clock s + g) with false
      by (symmetry; apply Z.leb_gt; lia).
    reflexivity. }
  rewrite Hwait. cbn [fw]. rewrite Hw. cbn [andb].
  pose proof (handleFileChange_armed
                (mkLoop (fw s) (clock s + g) (timers s) (nextHandle s) (fired s)) Hw) as H.
  cbn [clock fired] in H. apply H.
  unfold tidy. cbn. rewrite Hh. eauto.
Qed.

Lemma burst_tail_armed (gaps : list Z) :
  forall s, armed s ->
    Forall (fun g => 0 <= g < debounceMs) gaps ->
    let s' := run (flat_map (fun g => [Elapse g; FsEvent true]) gaps) s in
    armed s' /\ clock s' = clock s + fold_right Z.add 0 gaps /\ fired s' = fired s.
Proof.
  induction gaps as [|g gaps IH]; intros s Harmed Hgaps; cbv zeta.
  - cbn. split; [exact Harmed|]. split; [lia|reflexivity].
  - inversion Hgaps as [|? ? Hg Hrest]; subst.
    cbn [flat_map app run fold_left].
    destruct (rearm s g Harmed Hg) as (Ha & Hc & Hf).
    destruct (IH _ Ha Hrest) as (Ha' & Hc' & Hf').
    unfold run in *. split; [exact Ha'|]. split; [|congruence].
    rewrite Hc', Hc. cbn [fold_right]. lia.
Qed.

Lemma burst_armed (gaps : list Z) (s : Loop) :
  watcher (fw s) = true -> tidy s ->
  Forall (fun g => 0 <= g < debounceMs) gaps ->
  let s' := run (burst gaps) s in
  armed s' /\ clock s' = clock s + fold_right Z.add 0 gaps /\ fired s' = fired s.
Proof.
  intros Hw Htidy Hgaps. unfold burst. cbn [run fold_left step]. rewrite Hw. cbn [andb].
  destruct (handleFileChange_armed s Hw Htidy) as (Ha & Hc & Hf).
  destruct (burst_tail_armed gaps _ Ha Hgaps) as (Ha' & Hc' & Hf').
  unfold run in *. split; [exact Ha'|]. split; congruence.
Qed.

(** When the window has passed the timer runs, once. *)
Lemma armed_fires (s : Loop) (wait : Z) :
  armed s -> debounceMs <= wait ->
  fired (elapse wait s) = fired s ++ [clock s + debounceMs].
Proof.
  intros (_ & h & _ & Ht) Hwait. unfold elapse. rewrite Ht. cbn.
  replace (clock s + debounceMs <=? clock s + Z.max 0 wait) with true
    by (symmetry; apply Z.leb_le; unfold debounceMs in *; lia).
  reflexivity.
Qed.
End Debounce.

(** C8.  A burst of one or more events on the watched file, each less than
    [debounceMs] (500 ms) after the one before, makes [onFileChanged] fire
    exactly once, [debounceMs] after the last event; and once [stop()] has
    been called, also in the middle of a burst, it does not fire again as long
    as [start()] is not called. *)
Theorem debounce_one_signal_per_burst (s : FileWatcher.Loop) (gaps : list Z) (wait : Z)
    (after : list FileWatcher.Input) :
  FileWatcher.watcher (FileWatcher.fw s) = true ->
  FileWatcher.debounceTimer (FileWatcher.fw s) = None ->
  FileWatcher.timers s = [] ->
  Forall (fun g => 0 <= g < FileWatcher.debounceMs) gaps ->
  FileWatcher.debounceMs <= wait ->
  forallb (fun i => negb (FileWatcher.isStart i)) after = true ->
  FileWatcher.fired
    (FileWatcher.run (FileWatcher.burst gaps ++ [FileWatcher.Elapse wait]) s) =
    FileWatcher.fired s ++
      [FileWatcher.clock s + fold_right Z.add 0 gaps + FileWatcher.debounceMs] /\
  FileWatcher.fired
    (FileWatcher.run (FileWatcher.burst gaps ++ FileWatcher.Stop :: after) s) =
    FileWatcher.fired s /\
  (forall t0 history,
     FileWatcher.fired
       (FileWatcher.run (history ++ FileWatcher.Stop :: after) (FileWatcher.initial t0)) =
     FileWatcher.fired (FileWatcher.run history (FileWatcher.initial t0))).
Proof.
  intros Hw Hd Ht Hgaps Hwait Hafter.
  assert (Htidy : tidy s) by (unfold tidy; rewrite Hd; exact Ht).
  destruct (burst_armed gaps s Hw Htidy Hgaps) as (Ha & Hc & Hf).
  split; [|split].
  - rewrite run_app, run_cons, run_nil. cbn [FileWatcher.step].
    rewrite (armed_fires _ wait Ha Hwait), Hc, Hf. reflexivity.
  - rewrite run_app, run_cons. cbn [FileWatcher.step].
    destruct (stop_quiet _ (armed_tidy _ Ha)) as [Hq Hfs].
    rewrite (run_quiet after _ Hq Hafter), Hfs, Hf. reflexivity.
  - intros t0 history. rewrite run_app, run_cons. cbn [FileWatcher.step].
    destruct (stop_quiet _ (run_tidy history _ (initial_tidy t0))) as [Hq Hfs].
    rewrite (run_quiet after _ Hq Hafter), Hfs. reflexivity.
Qed.

(** ** [models/UsageMetrics.ts] and [loadMetrics] *)

Lemma createEmptyMetrics_countersZero (t : Z) : countersZero (createEmptyMetrics t).
Proof. repeat split. Qed.

Lemma createEmptyMetrics_invariant (t : Z) :
  SnapshotInvariantAsAmended (createEmptyMetrics t).
Proof.
  split; [intros _; right; apply createEmptyMetrics_countersZero|].
  intros [[q Hq] _]. discriminate Hq.
Qed.

Lemma published_invariant (m : UsageMetrics.t) :
  errorWhenUnavailable m /\ quotaExclusive m -> SnapshotInvariantAsAmended m.
Proof. intros [Hdata Hquota]. split; [|exact Hquota]. intros H. left. apply Hdata, H. Qed.

(** [loadMetrics] reads and writes nothing but the object it returns. *)
Lemma loadMetricsValue_world (w : World) : snd (loadMetricsValue w) = w.
Proof.
  unfold loadMetricsValue, loadStatsCache, loadCredentials, getTodayDateString,
    bind, ret, dateNow.
  destruct (dataDirExists w); cbn [negb snd]; [|reflexivity].
  destruct (statsFile w) as [| |stats]; cbv beta iota zeta;
    try destruct (populateThrows stats); cbv beta iota zeta;
    try reflexivity; destruct (credFile w); reflexivity.
Qed.

Lemma loadMetricsValue_fresh (w : World) : freshlyLoaded (fst (loadMetricsValue w)).
Proof.
  unfold loadMetricsValue, loadStatsCache, loadCredentials, getTodayDateString,
    bind, ret, dateNow.
  destruct (dataDirExists w); cbn [negb fst].
  - assert (Hgoal : forall m,
              UsageMetrics.quota m = None -> UsageMetrics.quotaError m = None ->
              freshlyLoaded (UsageMetrics.setAvailable (now w) m)).
    { intros m Hq He. split; [|split; assumption]. intros Hd. discriminate Hd. }
    assert (Hcatch : forall m e,
              UsageMetrics.quota m = None -> UsageMetrics.quotaError m = None ->
              freshlyLoaded (UsageMetrics.setError (Some e) m)).
    { intros m e Hq He. split; [|split; assumption]. intros _. cbn. eauto. }
    destruct (statsFile w) as [| |stats]; cbv beta iota zeta;
      try destruct (populateThrows stats); cbv beta iota zeta; cbn [fst];
      try (apply Hcatch; reflexivity);
      destruct (credFile w) as [| |file];
      cbv beta iota zeta; cbn [fst];
      try destruct (CredentialsFile.claudeAiOauth file); apply Hgoal; reflexivity.
  - split; [|split; reflexivity]. intros _. cbn. eauto.
Qed.

Lemma freshlyLoaded_published (m : UsageMetrics.t) :
  freshlyLoaded m -> errorWhenUnavailable m /\ quotaExclusive m.
Proof.
  intros (Hdata & Hq & _). split; [exact Hdata|].
  intros [[q Hq'] _]. congruence.
Qed.

(** Without a data directory nothing is read. *)
Lemma loadMetricsValue_no_directory (w : World) :
  dataDirExists w = false ->
  fst (loadMetricsValue w) =
    UsageMetrics.setError (Some DIRECTORY_NOT_FOUND) (createEmptyMetrics (now w)).
Proof.
  intros Hdir. unfold loadMetricsValue, bind, ret, dateNow. rewrite Hdir. reflexivity.
Qed.

(** Merging the outcome of [fetchQuota] sets one of [quota] and [quotaError]. *)
Lemma mergeQuota_invariant (r : QuotaResult.t) (m : UsageMetrics.t) :
  freshlyLoaded m ->
  errorWhenUnavailable (RefreshManager.mergeQuota r m) /\
  quotaExclusive (RefreshManager.mergeQuota r m).
Proof.
  intros (Hdata & Hq & He). unfold RefreshManager.mergeQuota.
  destruct (QuotaResult.success r), (QuotaResult.data r) as [q|]; split;
    try (intros Hd; apply Hdata in Hd; exact Hd);
    intros [[x Hx] [y Hy]]; cbn in Hx, Hy; congruence.
Qed.

(** ** [services/RefreshManager.ts] *)

Section Orchestrator.
Import RefreshManager.

Lemma noInputOutput_refl (w : World) : noInputOutput w w.
Proof. repeat split. Qed.

Lemma noInputOutput_trans (w1 w2 w3 : World) :
  noInputOutput w1 w2 -> noInputOutput w2 w3 -> noInputOutput w1 w3.
Proof.
  unfold noInputOutput.
  intros (?&?&?&?&?&?&?&?&?&?&?&?&?) (?&?&?&?&?&?&?&?&?&?&?&?&?).
  repeat split; congruence.
Qed.

(** A call of [refresh()] on a manager that is disposed or refreshing. *)
Lemma refreshEnter_guarded (s : System) (c : nat) :
  isDisposed (mgr s) = true \/ isRefreshing (mgr s) = true ->
  let s' := refreshEnter c s in
  mgr s' = mgr s /\
  pending s' = pending s /\
  noInputOutput (world s) (world s') /\
  exists l,
    trace (world s') = trace (world s) ++ [EvResolved c l] /\
    match lastMetrics (mgr s) with
    | Some l0 => l = l0 /\ heap (world s') = heap (world s)
    | None =>
        l = length (heap (world s)) /\
        heap (world s') = heap (world s) ++ [createEmptyMetrics (now (world s))]
    end.
Proof.
  intros Hguard. unfold refreshEnter.
  assert (Hboth :
    let '(l, w) := (l <- lastOrEmpty (mgr s) ;; emit (EvResolved c l) ;;; ret l) (world s) in
    noInputOutput (world s) w /\
    exists l',
      trace w = trace (world s) ++ [EvResolved c l'] /\
      match lastMetrics (mgr s) with
      | Some l0 => l' = l0 /\ heap w = heap (world s)
      | None =>
          l' = length (heap (world s)) /\
          heap w = heap (world s) ++ [createEmptyMetrics (now (world s))]
      end).
  { unfold lastOrEmpty, bind. destruct (lastMetrics (mgr s)) as [l0|]; cbn.
    - split; [repeat split|]. eauto.
    - split; [repeat split|]. eauto. }
  destruct ((l <- lastOrEmpty (mgr s) ;; emit (EvResolved c l) ;;; ret l) (world s))
    as [l w].
  destruct (isDisposed (mgr s)); [cbn; tauto|].
  destruct (isRefreshing (mgr s)); [cbn; tauto|].
  destruct Hguard; discriminate.
Qed.

(** A call of [refresh()] on an idle manager. *)
Lemma refreshEnter_idle (s : System) (c : nat) :
  isDisposed (mgr s) = false -> isRefreshing (mgr s) = false ->
  let s' := refreshEnter c s in
  mgr s' = setRefreshing true (mgr s) /\
  pending s' = pending s ++ [(c, AwaitLoad)] /\
  noInputOutput (world s) (world s') /\
  heap (world s') = heap (world s) /\
  trace (world s') = trace (world s) ++ [EvRefreshStarted; EvLoadMetrics].
Proof.
  intros Hd Hr. unfold refreshEnter. rewrite Hd, Hr. cbn.
  rewrite <- app_assoc. repeat split.
Qed.

(** The local load of a suspended [refresh()] completes. *)
Lemma refreshResume_load (s : System) (c : nat) :
  findPending c (pending s) = Some AwaitLoad ->
  let s' := refreshResume c s in
  mgr s' = mgr s /\
  pending s' = setPending c (Some (AwaitFetch (length (heap (world s))))) (pending s) /\
  noInputOutput (world s) (world s') /\
  heap (world s') = heap (world s) ++ [fst (loadMetricsValue (world s))] /\
  trace (world s') = trace (world s) ++ [EvFetchQuota].
Proof.
  intros Hfind. unfold refreshResume. rewrite Hfind.
  unfold loadMetrics, bind.
  pose proof (loadMetricsValue_world (world s)) as Hw.
  destruct (loadMetricsValue (world s)) as [m w1]. cbn [fst snd] in *. subst w1.
  cbn. repeat split.
Qed.

(** The quota fetch of a suspended [refresh()] completes, and with it the
    call. *)
Lemma refreshResume_fetch (s : System) (c : nat) (l : loc) (m : UsageMetrics.t) :
  findPending c (pending s) = Some (AwaitFetch l) ->
  heap (world s) !! l = Some m ->
  let s' := refreshResume c s in
  mgr s' = setRefreshing false (setLastMetrics (Some l) (mgr s)) /\
  pending s' = setPending c None (pending s) /\
  heap (world s') = <[l := mergeQuota (fst (fetchQuota (world s))) m]> (heap (world s)) /\
  exists net,
    forallb isNetworkEvent net = true /\
    trace (world s') = trace (world s) ++ net ++ [EvMetricsUpdated l; EvResolved c l].
Proof.
  intros Hfind Hm. unfold refreshResume. rewrite Hfind.
  unfold bind. cbv beta zeta.
  destruct (fetchQuota_frame (world s)) as (_ & _ & _ & Hheap & net & Htr & Hnet).
  destruct (fetchQuota (world s)) as [r w1]. cbn [fst snd] in *.
  unfold updateObject. rewrite Hheap, Hm. cbn.
  split; [reflexivity|]. split; [reflexivity|]. split; [reflexivity|].
  exists net. split; [exact Hnet|].
  rewrite Htr, <- !app_assoc. reflexivity.
Qed.
End Orchestrator.

Section OrchestratorInvariant.
Import RefreshManager.

Lemma setMode_keeps (config : Config.t) (w : World) (mode : RefreshModeType) (m : t) :
  isRefreshing (setMode config w mode m) = isRefreshing m /\
  lastMetrics (setMode config w mode m) = lastMetrics m /\
  isDisposed (setMode config w mode m) = isDisposed m.
Proof.
  unfold setMode. destruct (isDisposed m) eqn:Hd; [auto|].
  destruct mode; cbn; auto.
Qed.

Lemma dispose_keeps (m : t) :
  isRefreshing (dispose m) = isRefreshing m /\
  lastMetrics (dispose m) = lastMetrics m /\
  torn (dispose m).
Proof. repeat split. Qed.

(** The invariant looks at the manager through [isRefreshing] and
    [lastMetrics] only, and survives the allocation of a snapshot. *)
Lemma SystemInvariant_alloc (s s' : System) (extra : list UsageMetrics.t) :
  SystemInvariant s ->
  isRefreshing (mgr s') = isRefreshing (mgr s) ->
  lastMetrics (mgr s') = lastMetrics (mgr s) ->
  pending s' = pending s ->
  heap (world s') = heap (world s) ++ extra ->
  Forall SnapshotInvariantAsAmended extra ->
  SystemInvariant s'.
Proof.
  intros (Hpend & Hlast & Hall) Hr Hl Hp Hheap Hextra.
  unfold SystemInvariant. rewrite Hr, Hl, Hp, Hheap.
  split; [|split].
  - destruct Hpend as [Hidle|(c & st & Hc & Hbusy & Hst)]; [left; exact Hidle|].
    right. exists c, st. split; [exact Hc|]. split; [exact Hbusy|].
    destruct st as [|l]; [exact I|].
    destruct Hst as (m & Hm & Hfresh). exists m. split; [|exact Hfresh].
    apply lookup_app_l_Some, Hm.
  - intros l Hsome. destruct (Hlast l Hsome) as (m & Hm & Hinv).
    exists m. split; [|exact Hinv]. apply lookup_app_l_Some, Hm.
  - apply Forall_app. split; assumption.
Qed.

Lemma step_invariant (s : System) (a : Action) :
  SystemInvariant s -> SystemInvariant (step s a).
Proof.
  intros Hinv. destruct a as [c|c|config mode|]; cbn [step].
  - (* refresh() *)
    destruct (isDisposed (mgr s)) eqn:Hd;
      [|destruct (isRefreshing (mgr s)) eqn:Hr].
    + destruct (refreshEnter_guarded s c (or_introl Hd)) as (Hm & Hp & _ & l & _ & Hheap).
      destruct (lastMetrics (mgr s)); destruct Hheap as [_ Hheap].
      * eapply (SystemInvariant_alloc s _ []); eauto; try congruence.
        now rewrite app_nil_r.
      * eapply (SystemInvariant_alloc s _ [_]); eauto; try congruence.
        constructor; [apply createEmptyMetrics_invariant|constructor].
    + destruct (refreshEnter_guarded s c (or_intror Hr)) as (Hm & Hp & _ & l & _ & Hheap).
      destruct (lastMetrics (mgr s)); destruct Hheap as [_ Hheap].
      * eapply (SystemInvariant_alloc s _ []); eauto; try congruence.
        now rewrite app_nil_r.
      * eapply (SystemInvariant_alloc s _ [_]); eauto; try congruence.
        constructor; [apply createEmptyMetrics_invariant|constructor].
    + destruct (refreshEnter_idle s c Hd Hr) as (Hm & Hp & _ & Hheap & _).
      destruct Hinv as (Hpend & Hlast & Hall).
      unfold SystemInvariant. rewrite Hm, Hp, Hheap.
      split; [|split; [exact Hlast|exact Hall]].
      right. destruct Hpend as [[Hnone _]|(c0 & st & _ & Hbusy & _)]; [|congruence].
      rewrite Hnone. exists c, AwaitLoad. auto.
  - (* a suspended call goes on *)
    destruct (findPending c (pending s)) as [st|] eqn:Hfind;
      [|unfold refreshResume; rewrite Hfind; exact Hinv].
    pose proof Hinv as (Hpend & Hlast & Hall).
    destruct Hpend as [[Hnone _]|(c0 & st0 & Hone & Hbusy & Hst)];
      [rewrite Hnone in Hfind; discriminate Hfind|].
    rewrite Hone in Hfind. cbn in Hfind.
    destruct (Nat.eqb c0 c) eqn:Hc; [|discriminate Hfind].
    injection Hfind as <-.
    assert (Hfind : findPending c (pending s) = Some st0)
      by (rewrite Hone; cbn; rewrite Hc; reflexivity).
    destruct st0 as [|l].
    + destruct (refreshResume_load s c Hfind) as (Hm & Hp & _ & Hheap & _).
      unfold SystemInvariant. rewrite Hm, Hp, Hheap, Hone.
      cbn [setPending isRefreshing lastMetrics setRefreshing setLastMetrics]. rewrite Hc.
      split; [|split].
      * right. exists c0, (AwaitFetch (length (heap (world s)))).
        split; [reflexivity|]. split; [exact Hbusy|].
        exists (fst (loadMetricsValue (world s))).
        split; [|apply loadMetricsValue_fresh].
        apply list_lookup_middle. reflexivity.
      * intros l Hsome. destruct (Hlast l Hsome) as (m & Hm' & Hok).
        exists m. split; [|exact Hok]. apply lookup_app_l_Some, Hm'.
      * apply Forall_app. split; [exact Hall|].
        constructor; [|constructor].
        apply published_invariant, freshlyLoaded_published, loadMetricsValue_fresh.
    + destruct Hst as (m & Hlook & Hfresh).
      destruct (refreshResume_fetch s c l m Hfind Hlook) as (Hm & Hp & Hheap & _).
      unfold SystemInvariant. rewrite Hm, Hp, Hheap, Hone.
      cbn [setPending isRefreshing lastMetrics setRefreshing setLastMetrics]. rewrite Hc.
      split; [left; auto|split].
      * intros l' Hsome. injection Hsome as <-.
        exists (mergeQuota (fst (fetchQuota (world s))) m).
        split; [|apply mergeQuota_invariant, Hfresh].
        apply list_lookup_insert_eq. eapply lookup_lt_Some, Hlook.
      * apply Forall_insert; [exact Hall|].
        apply published_invariant, mergeQuota_invariant, Hfresh.
  - (* setMode() *)
    destruct (setMode_keeps config (world s) mode (mgr s)) as (Hr & Hl & _).
    eapply (SystemInvariant_alloc s _ []); eauto.
    + cbn. now rewrite app_nil_r.
  - (* dispose() *)
    eapply (SystemInvariant_alloc s _ []); eauto.
    cbn. now rewrite app_nil_r.
Qed.

Lemma run_invariant (actions : list Action) (s : System) :
  SystemInvariant s -> SystemInvariant (run actions s).
Proof.
  revert s. induction actions as [|a actions IH]; intros s Hs; [exact Hs|].
  cbn. apply IH, step_invariant, Hs.
Qed.

Lemma boot_invariant (w : World) : SystemInvariant (boot w).
Proof.
  split; [left; split; reflexivity|]. split; [intros l Hl; discriminate Hl|].
  constructor.
Qed.
End OrchestratorInvariant.

(** C6 (as amended).  No snapshot has [quota] and [quotaError] both set.  The
    snapshot that [loadMetrics] returns has [error] set when [dataAvailable] is
    false, and all counters zero or empty when the data directory is missing;
    so has, as to [error], the snapshot cached as the last one published in
    every state the orchestrator can reach.  Every snapshot object there is
    has, when [dataAvailable] is false, [error] set or all counters zero or
    empty; the empty snapshot has the counters zero or empty and [error]
    unset. *)
Theorem snapshots_keep_the_invariant (w : World)
    (history : list RefreshManager.Action) (t : Z) :
  let s := RefreshManager.run history (RefreshManager.boot w) in
  let loaded := fst (loadMetricsValue w) in
  (errorWhenUnavailable loaded /\
   quotaExclusive loaded /\
   (dataDirExists w = false -> countersZero loaded)) /\
  (forall l, RefreshManager.lastMetrics (RefreshManager.mgr s) = Some l ->
     exists m, heap (RefreshManager.world s) !! l = Some m /\
       errorWhenUnavailable m /\ quotaExclusive m) /\
  Forall SnapshotInvariantAsAmended (heap (RefreshManager.world s)) /\
  (countersZero (createEmptyMetrics t) /\
   quotaExclusive (createEmptyMetrics t) /\
   UsageMetrics.error (createEmptyMetrics t) = None).
Proof.
  cbv zeta.
  destruct (run_invariant history _ (boot_invariant w)) as (_ & Hlast & Hall).
  split.
  { destruct (freshlyLoaded_published _ (loadMetricsValue_fresh w)) as [Herror Hquota].
    split; [exact Herror|]. split; [exact Hquota|].
    intros Hdir. rewrite (loadMetricsValue_no_directory w Hdir). repeat split. }
  split; [exact Hlast|]. split; [exact Hall|].
  split; [apply createEmptyMetrics_countersZero|].
  split; [apply createEmptyMetrics_invariant|reflexivity].
Qed.

(** The invariant of the specification fails in two ways.  A second
    [refresh()] while the first is in flight, on a new manager, gets the empty
    snapshot, which is unavailable and has no [error].  And over a stats cache
    that makes [populateFromStatsCache] throw, [loadMetrics] returns, and
    [refresh] publishes, a snapshot that is unavailable, with its [error] set,
    and holds the counters written before the failure. *)
Lemma snapshot_invariant_fails_both_ways :
  (let s := RefreshManager.run [RefreshManager.Refresh 1; RefreshManager.Refresh 2]
              (RefreshManager.boot sampleWorld) in
   resolutions (trace (RefreshManager.world s)) = [(2%nat, 0%nat)] /\
   exists m,
     heap (RefreshManager.world s) !! 0%nat = Some m /\
     UsageMetrics.dataAvailable m = false /\
     UsageMetrics.error m = None /\
     ~ SnapshotInvariant m) /\
  (let w := worldWithCache lateEvening misshapenCache in
   let loaded := fst (loadMetricsValue w) in
   let s := RefreshManager.run
              [RefreshManager.Refresh 1; RefreshManager.Resume 1; RefreshManager.Resume 1]
              (RefreshManager.boot w) in
   UsageMetrics.dataAvailable loaded = false /\
   UsageMetrics.error loaded =
     Some ("Error loading metrics: " ++ FIND_IS_NOT_A_FUNCTION)%string /\
   UsageMetrics.totalSessions loaded = 5 /\
   UsageMetrics.totalInputTokens loaded = 10 /\
   ~ SnapshotInvariant loaded /\
   exists l published,
     RefreshManager.lastMetrics (RefreshManager.mgr s) = Some l /\
     heap (RefreshManager.world s) !! l = Some published /\
     UsageMetrics.dataAvailable published = false /\
     UsageMetrics.totalSessions published = 5 /\
     ~ SnapshotInvariant published).
Proof.
  cbv zeta. split.
  - split; [vm_compute; reflexivity|].
    exists (createEmptyMetrics (now sampleWorld)).
    split; [vm_compute; reflexivity|]. split; [reflexivity|]. split; [reflexivity|].
    intros [Hdata _]. destruct (Hdata eq_refl) as [_ [e He]]. discriminate He.
  - split; [vm_compute; reflexivity|]. split; [vm_compute; reflexivity|].
    split; [vm_compute; reflexivity|]. split; [vm_compute; reflexivity|].
    split.
    + intros [Hdata _].
      destruct (Hdata ltac:(vm_compute; reflexivity)) as [(_ & _ & _ & _ & _ & H & _) _].
      vm_compute in H. discriminate H.
    + eexists _, _. split; [vm_compute; reflexivity|]. split; [vm_compute; reflexivity|].
      split; [reflexivity|]. split; [reflexivity|].
      intros [Hdata _].
      destruct (Hdata eq_refl) as [(_ & _ & _ & _ & _ & H & _) _].
      vm_compute in H. discriminate H.
Qed.

Section AfterDispose.
Import RefreshManager.

Lemma dispose_torn (m : t) : torn m -> dispose m = m.
Proof.
  destruct m as [fw pt cm d r l dis]. unfold torn. cbn.
  intros (-> & -> & -> & ->). reflexivity.
Qed.

Lemma setMode_disposed (config : Config.t) (w : World) (mode : RefreshModeType) (m : t) :
  isDisposed m = true -> setMode config w mode m = m.
Proof. intros H. unfold setMode. rewrite H. reflexivity. Qed.

Lemma cachedOrEmpty_grows (m : t) (now0 : Z) (h extra : list UsageMetrics.t) (l : loc) :
  cachedOrEmpty m now0 h l -> cachedOrEmpty m now0 (h ++ extra) l.
Proof.
  unfold cachedOrEmpty. destruct (lastMetrics m); [auto|].
  apply lookup_app_l_Some.
Qed.

(** On a disposed manager calls from outside change nothing and make
    nothing happen: each [refresh()] is resolved at once. *)
Lemma run_disposed (calls : list Action) :
  forall d : System,
    torn (mgr d) ->
    forallb isCall calls = true ->
    let s' := run calls d in
    mgr s' = mgr d /\
    pending s' = pending d /\
    noInputOutput (world d) (world s') /\
    exists locs extra,
      trace (world s') = trace (world d) ++ zip_with EvResolved (refreshCallers calls) locs /\
      length locs = length (refreshCallers calls) /\
      heap (world s') = heap (world d) ++ extra /\
      Forall (cachedOrEmpty (mgr d) (now (world d)) (heap (world s'))) locs.
Proof.
  induction calls as [|a calls IH]; intros d Htorn Hcalls; cbv zeta.
  - cbn. split; [reflexivity|]. split; [reflexivity|].
    split; [apply noInputOutput_refl|].
    exists [], []. rewrite !app_nil_r. repeat split. constructor.
  - cbn [forallb] in Hcalls. apply andb_prop in Hcalls as [Ha Hrest].
    change (run (a :: calls) d) with (run calls (step d a)).
    destruct a as [c|c|config mode|]; [| discriminate Ha | |].
    + destruct (refreshEnter_guarded d c (or_introl (proj1 Htorn)))
        as (Hm & Hp & Hio & l & Htr & Hheap).
      cbn [step].
      assert (Htorn1 : torn (mgr (refreshEnter c d))) by (rewrite Hm; exact Htorn).
      destruct (IH _ Htorn1 Hrest) as (Hm' & Hp' & Hio' & locs & extra & Htr' & Hlen & Hh' & Hall).
      split; [congruence|]. split; [congruence|].
      split; [eapply noInputOutput_trans; eassumption|].
      assert (Hnow : now (world (refreshEnter c d)) = now (world d)) by apply Hio.
      rewrite Hm, Hnow in Hall.
      exists (l :: locs). cbn [refreshCallers flat_map app zip_with length].
      fold (refreshCallers calls).
      destruct (lastMetrics (mgr d)) as [l0|] eqn:Hlast.
      * destruct Hheap as [-> Hheap]. exists extra.
        rewrite Htr', Htr, <- app_assoc, Hh', Hheap.
        repeat split; [congruence|].
        constructor; [|rewrite <- Hheap, <- Hh'; exact Hall].
        unfold cachedOrEmpty. rewrite Hlast. reflexivity.
      * destruct Hheap as [-> Hheap].
        exists ([createEmptyMetrics (now (world d))] ++ extra).
        rewrite Htr', Htr, <- app_assoc, Hh', Hheap, <- app_assoc.
        repeat split; [congruence|].
        constructor; [|rewrite app_assoc, <- Hheap, <- Hh'; exact Hall].
        unfold cachedOrEmpty. rewrite Hlast.
        apply list_lookup_middle. reflexivity.
    + cbn [step].
      rewrite (setMode_disposed config (world d) mode (mgr d) (proj1 Htorn)).
      destruct d as [wd md pd]. cbn [world mgr pending] in *.
      apply (IH (mkSystem wd md pd) Htorn Hrest).
    + cbn [step]. rewrite (dispose_torn (mgr d) Htorn).
      destruct d as [wd md pd]. cbn [world mgr pending] in *.
      apply (IH (mkSystem wd md pd) Htorn Hrest).
Qed.
End AfterDispose.

Section DisposedForGood.
Import RefreshManager.

(** The flag that [dispose()] sets is never cleared. *)
Lemma step_keeps_disposed (s : System) (a : Action) :
  isDisposed (mgr s) = true -> isDisposed (mgr (step s a)) = true.
Proof.
  intros Hd. destruct a as [c|c|config mode|]; cbn [step].
  - destruct (refreshEnter_guarded s c (or_introl Hd)) as (-> & _). exact Hd.
  - unfold refreshResume.
    destruct (findPending c (pending s)) as [[|l]|]; [| |exact Hd].
    + match goal with
      | |- context [match ?x with pair _ _ => _ end] => destruct x
      end. exact Hd.
    + match goal with
      | |- context [match ?x with pair _ _ => _ end] => destruct x
      end. exact Hd.
  - cbn [mgr]. rewrite (setMode_disposed _ _ _ _ Hd). exact Hd.
  - reflexivity.
Qed.

Lemma run_keeps_disposed (actions : list Action) (s : System) :
  isDisposed (mgr s) = true -> isDisposed (mgr (run actions s)) = true.
Proof.
  revert s. induction actions as [|a actions IH]; intros s Hd; [exact Hd|].
  cbn. apply IH, step_keeps_disposed, Hd.
Qed.
End DisposedForGood.

(** C7.  After [dispose()], whatever the state it was called in, calls of
    [refresh()], [setMode()] and [dispose()] leave the manager as it is, read
    and write no file, make no request and fire no event: every [refresh()]
    is resolved at once with the snapshot cached as the last one, or with a
    new empty snapshot when there is none.  The same holds of a call that
    comes whenever later, also after a [refresh()] that was in flight at the
    time of [dispose()] has gone on. *)
Theorem refresh_after_dispose_does_no_work (s : RefreshManager.System)
    (calls : list RefreshManager.Action) :
  forallb isCall calls = true ->
  let d := RefreshManager.step s RefreshManager.Dispose in
  let s' := RefreshManager.run calls d in
  (RefreshManager.mgr s' = RefreshManager.mgr d /\
   RefreshManager.pending s' = RefreshManager.pending d /\
   noInputOutput (RefreshManager.world d) (RefreshManager.world s') /\
   exists locs,
     trace (RefreshManager.world s') =
       trace (RefreshManager.world d) ++ zip_with EvResolved (refreshCallers calls) locs /\
     length locs = length (refreshCallers calls) /\
     Forall (cachedOrEmpty (RefreshManager.mgr d) (now (RefreshManager.world d))
               (heap (RefreshManager.world s'))) locs) /\
  (forall later caller config mode,
     let s1 := RefreshManager.run later d in
     let s2 := RefreshManager.step s1 (RefreshManager.Refresh caller) in
     RefreshManager.step s1 (RefreshManager.SetMode config mode) = s1 /\
     RefreshManager.mgr s2 = RefreshManager.mgr s1 /\
     RefreshManager.pending s2 = RefreshManager.pending s1 /\
     noInputOutput (RefreshManager.world s1) (RefreshManager.world s2) /\
     exists l,
       trace (RefreshManager.world s2) =
         trace (RefreshManager.world s1) ++ [EvResolved caller l] /\
       cachedOrEmpty (RefreshManager.mgr s1) (now (RefreshManager.world s1))
         (heap (RefreshManager.world s2)) l).
Proof.
  intros Hcalls d s'.
  assert (Htorn : torn (RefreshManager.mgr d)) by (repeat split).
  split.
  - destruct (run_disposed calls d Htorn Hcalls)
      as (Hm & Hp & Hio & locs & extra & Htr & Hlen & _ & Hall).
    split; [exact Hm|]. split; [exact Hp|]. split; [exact Hio|].
    exists locs. auto.
  - intros later caller config mode s1 s2.
    assert (Hd : RefreshManager.isDisposed (RefreshManager.mgr s1) = true)
      by (apply run_keeps_disposed; reflexivity).
    split.
    + cbn [RefreshManager.step]. rewrite (setMode_disposed _ _ _ _ Hd).
      destruct s1; reflexivity.
    + destruct (refreshEnter_guarded s1 caller (or_introl Hd))
        as (Hm & Hp & Hio & l & Htr & Hheap).
      split; [exact Hm|]. split; [exact Hp|]. split; [exact Hio|].
      exists l. split; [exact Htr|].
      unfold cachedOrEmpty.
      destruct (RefreshManager.lastMetrics (RefreshManager.mgr s1)); [apply Hheap|].
      destruct Hheap as [-> Hheap]. subst s2. cbn [RefreshManager.step].
      rewrite Hheap. apply list_lookup_middle. reflexivity.
Qed.

Section Concurrency.
Import RefreshManager.

Lemma countEvents_app (p : Event -> bool) (a b : list Event) :
  countEvents p (a ++ b) = (countEvents p a + countEvents p b)%nat.
Proof. unfold countEvents. rewrite List.filter_app, length_app. reflexivity. Qed.

Lemma resolutions_app (a b : list Event) :
  resolutions (a ++ b) = resolutions a ++ resolutions b.
Proof. unfold resolutions. apply flat_map_app. Qed.

(** The quota source neither loads, nor fetches, nor resolves anybody. *)
Lemma network_events_only (net : list Event) :
  forallb isNetworkEvent net = true ->
  countEvents isLoadMetrics net = 0%nat /\
  countEvents isFetchQuota net = 0%nat /\
  resolutions net = [].
Proof.
  induction net as [|e net IH]; intros Hnet; [repeat split|].
  cbn [forallb] in Hnet. apply andb_prop in Hnet as [He Hrest].
  destruct (IH Hrest) as (Hl & Hf & Hr).
  unfold countEvents in *.
  destruct e; try discriminate He; cbn; auto.
Qed.

Lemma findPending_single (c : nat) (st : Stage) : findPending c [(c, st)] = Some st.
Proof. cbn. rewrite Nat.eqb_refl. reflexivity. Qed.

Lemma setPending_single (c : nat) (st : Stage) (new : option Stage) :
  setPending c new [(c, st)] = match new with Some n => [(c, n)] | None => [] end.
Proof. cbn. rewrite Nat.eqb_refl. reflexivity. Qed.

(** The second caller comes before the local load of the first is done. *)
Lemma second_caller_before_load (s : System) (a b : nat) :
  SystemInvariant s -> isDisposed (mgr s) = false -> pending s = [] ->
  oneRefreshForTwoCallers s (run [Refresh a; Refresh b; Resume a; Resume a] s) a b.
Proof.
  intros Hinv Hd Hidle.
  assert (Hr : isRefreshing (mgr s) = false).
  { destruct Hinv as ([[_ H]|(c & st & Hp & _)] & _); [exact H|congruence]. }
  assert (Hvalid : forall l0, lastMetrics (mgr s) = Some l0 -> (l0 < length (heap (world s)))%nat).
  { intros l0 Hl0. destruct Hinv as (_ & Hlast & _).
    destruct (Hlast l0 Hl0) as (m & Hm & _). eapply lookup_lt_Some, Hm. }
  cbn [run fold_left step].
  set (s1 := refreshEnter a s).
  destruct (refreshEnter_idle s a Hd Hr) as (Hm1 & Hp1 & Hio1 & Hh1 & Ht1). fold s1 in Hm1, Hp1, Hio1, Hh1, Ht1.
  set (s2 := refreshEnter b s1).
  assert (Hbusy1 : isRefreshing (mgr s1) = true) by (rewrite Hm1; reflexivity).
  destruct (refreshEnter_guarded s1 b (or_intror Hbusy1)) as (Hm2 & Hp2 & Hio2 & lb & Ht2 & Hh2).
  fold s2 in Hm2, Hp2, Hio2, Ht2, Hh2.
  rewrite Hidle in Hp1. cbn [app] in Hp1.
  set (s3 := refreshResume a s2).
  assert (Hfind2 : findPending a (pending s2) = Some AwaitLoad)
    by (rewrite Hp2, Hp1; apply findPending_single).
  destruct (refreshResume_load s2 a Hfind2) as (Hm3 & Hp3 & Hio3 & Hh3 & Ht3).
  fold s3 in Hm3, Hp3, Hio3, Hh3, Ht3.
  rewrite Hp2, Hp1, setPending_single in Hp3.
  set (la := length (heap (world s2))) in *.
  assert (Hfind3 : findPending a (pending s3) = Some (AwaitFetch la))
    by (rewrite Hp3; apply findPending_single).
  assert (Hlook3 : heap (world s3) !! la = Some (fst (loadMetricsValue (world s2))))
    by (rewrite Hh3; apply list_lookup_middle; reflexivity).
  destruct (refreshResume_fetch s3 a la _ Hfind3 Hlook3) as (Hm4 & Hp4 & Hh4 & net & Hnet & Ht4).
  set (s4 := refreshResume a s3) in *.
  destruct (network_events_only net Hnet) as (Hnl & Hnf & Hnr).
  exists la, lb,
    ([EvRefreshStarted; EvLoadMetrics] ++ [EvResolved b lb] ++ [EvFetchQuota] ++
     net ++ [EvMetricsUpdated la; EvResolved a la]).
  split; [rewrite Ht4, Ht3, Ht2, Ht1; now rewrite <- !app_assoc|].
  split; [rewrite !countEvents_app, Hnl; reflexivity|].
  split; [rewrite !countEvents_app, Hnf; reflexivity|].
  split; [rewrite !resolutions_app, Hnr; reflexivity|].
  assert (Hlast1 : lastMetrics (mgr s1) = lastMetrics (mgr s)) by (rewrite Hm1; reflexivity).
  assert (Hnow1 : now (world s1) = now (world s)) by apply Hio1.
  rewrite Hlast1, Hnow1, Hh1 in Hh2.
  split; [|split].
  - destruct (lastMetrics (mgr s)) as [l0|] eqn:Hlast.
    + destruct Hh2 as [-> Hh2]. specialize (Hvalid l0 eq_refl).
      subst la. rewrite Hh2. lia.
    + destruct Hh2 as [-> Hh2]. subst la. rewrite Hh2, length_app. cbn. lia.
  - rewrite Hm4. reflexivity.
  - unfold cachedOrEmpty.
    destruct (lastMetrics (mgr s)) as [l0|] eqn:Hlast; [apply Hh2|].
    destruct Hh2 as [-> Hh2]. rewrite Hh4, Hh3.
    rewrite list_lookup_insert_ne
      by (subst la; rewrite Hh2, length_app; cbn; lia).
    apply lookup_app_l_Some. rewrite Hh2. apply list_lookup_middle. reflexivity.
Qed.

(** The second caller comes while the first waits for the quota. *)
Lemma second_caller_before_fetch (s : System) (a b : nat) :
  SystemInvariant s -> isDisposed (mgr s) = false -> pending s = [] ->
  oneRefreshForTwoCallers s (run [Refresh a; Resume a; Refresh b; Resume a] s) a b.
Proof.
  intros Hinv Hd Hidle.
  assert (Hr : isRefreshing (mgr s) = false).
  { destruct Hinv as ([[_ H]|(c & st & Hp & _)] & _); [exact H|congruence]. }
  assert (Hvalid : forall l0, lastMetrics (mgr s) = Some l0 -> (l0 < length (heap (world s)))%nat).
  { intros l0 Hl0. destruct Hinv as (_ & Hlast & _).
    destruct (Hlast l0 Hl0) as (m & Hm & _). eapply lookup_lt_Some, Hm. }
  cbn [run fold_left step].
  set (s1 := refreshEnter a s).
  destruct (refreshEnter_idle s a Hd Hr) as (Hm1 & Hp1 & Hio1 & Hh1 & Ht1). fold s1 in Hm1, Hp1, Hio1, Hh1, Ht1.
  rewrite Hidle in Hp1. cbn [app] in Hp1.
  set (s2 := refreshResume a s1).
  assert (Hfind1 : findPending a (pending s1) = Some AwaitLoad)
    by (rewrite Hp1; apply findPending_single).
  destruct (refreshResume_load s1 a Hfind1) as (Hm2 & Hp2 & Hio2 & Hh2 & Ht2).
  fold s2 in Hm2, Hp2, Hio2, Hh2, Ht2.
  rewrite Hp1, setPending_single in Hp2.
  set (la := length (heap (world s1))) in *.
  set (s3 := refreshEnter b s2).
  assert (Hbusy2 : isRefreshing (mgr s2) = true) by (rewrite Hm2, Hm1; reflexivity).
  destruct (refreshEnter_guarded s2 b (or_intror Hbusy2)) as (Hm3 & Hp3 & Hio3 & lb & Ht3 & Hh3).
  fold s3 in Hm3, Hp3, Hio3, Ht3, Hh3.
  assert (Hfind3 : findPending a (pending s3) = Some (AwaitFetch la))
    by (rewrite Hp3, Hp2; apply findPending_single).
  assert (Hlook2 : heap (world s2) !! la = Some (fst (loadMetricsValue (world s1))))
    by (rewrite Hh2; apply list_lookup_middle; reflexivity).
  assert (Hlast2 : lastMetrics (mgr s2) = lastMetrics (mgr s)) by (rewrite Hm2, Hm1; reflexivity).
  assert (Hnow2 : now (world s2) = now (world s)).
  { transitivity (now (world s1)); [apply Hio2|apply Hio1]. }
  rewrite Hlast2, Hnow2 in Hh3.
  assert (Hlook3 : heap (world s3) !! la = Some (fst (loadMetricsValue (world s1)))).
  { destruct (lastMetrics (mgr s)); destruct Hh3 as [_ ->];
      [exact Hlook2|apply lookup_app_l_Some, Hlook2]. }
  destruct (refreshResume_fetch s3 a la _ Hfind3 Hlook3) as (Hm4 & Hp4 & Hh4 & net & Hnet & Ht4).
  set (s4 := refreshResume a s3) in *.
  destruct (network_events_only net Hnet) as (Hnl & Hnf & Hnr).
  exists la, lb,
    ([EvRefreshStarted; EvLoadMetrics] ++ [EvFetchQuota] ++ [EvResolved b lb] ++
     net ++ [EvMetricsUpdated la; EvResolved a la]).
  split; [rewrite Ht4, Ht3, Ht2, Ht1; now rewrite <- !app_assoc|].
  split; [rewrite !countEvents_app, Hnl; reflexivity|].
  split; [rewrite !countEvents_app, Hnf; reflexivity|].
  split; [rewrite !resolutions_app, Hnr; reflexivity|].
  split; [|split].
  - destruct (lastMetrics (mgr s)) as [l0|] eqn:Hlast.
    + destruct Hh3 as [-> _]. specialize (Hvalid l0 eq_refl).
      subst la. rewrite Hh1. lia.
    + destruct Hh3 as [-> _]. subst la. rewrite Hh2, length_app. cbn. lia.
  - rewrite Hm4. reflexivity.
  - unfold cachedOrEmpty.
    destruct (lastMetrics (mgr s)) as [l0|] eqn:Hlast; [apply Hh3|].
    destruct Hh3 as [-> Hh3]. rewrite Hh4.
    rewrite list_lookup_insert_ne
      by (subst la; rewrite Hh2, length_app; cbn; lia).
    rewrite Hh3. apply list_lookup_middle. reflexivity.
Qed.

Lemma invariant_one_pending (s : System) :
  SystemInvariant s -> (length (pending s) <= 1)%nat.
Proof.
  intros ([[-> _]|(c & st & -> & _)] & _); cbn; lia.
Qed.
End Concurrency.

(** C1 (as amended).  From any state the orchestrator reaches at most one
    [refresh()] is ever suspended.  A [refresh()] called while the in-flight
    flag is set loads nothing, fetches nothing and changes nothing: it is
    resolved at once with the snapshot cached as the last one, or with a new
    empty snapshot.  So of two callers, the second calling before the first is
    resolved, one load and one fetch run, the second is resolved first, with
    the snapshot cached before or an empty one, and the first with the
    snapshot just loaded, which is another object. *)
Theorem concurrent_refresh_is_served_from_the_cache (w : World)
    (history : list RefreshManager.Action) (a b c : nat) (busy : RefreshManager.System) :
  let s := RefreshManager.run history (RefreshManager.boot w) in
  RefreshManager.isDisposed (RefreshManager.mgr s) = false ->
  RefreshManager.pending s = [] ->
  RefreshManager.isRefreshing (RefreshManager.mgr busy) = true ->
  oneRefreshForTwoCallers s
    (RefreshManager.run
       [RefreshManager.Refresh a; RefreshManager.Refresh b;
        RefreshManager.Resume a; RefreshManager.Resume a] s) a b /\
  oneRefreshForTwoCallers s
    (RefreshManager.run
       [RefreshManager.Refresh a; RefreshManager.Resume a;
        RefreshManager.Refresh b; RefreshManager.Resume a] s) a b /\
  (forall future,
     (length (RefreshManager.pending (RefreshManager.run future s)) <= 1)%nat) /\
  (let after := RefreshManager.step busy (RefreshManager.Refresh c) in
   RefreshManager.mgr after = RefreshManager.mgr busy /\
   RefreshManager.pending after = RefreshManager.pending busy /\
   noInputOutput (RefreshManager.world busy) (RefreshManager.world after) /\
   exists l,
     trace (RefreshManager.world after) =
       trace (RefreshManager.world busy) ++ [EvResolved c l] /\
     cachedOrEmpty (RefreshManager.mgr busy) (now (RefreshManager.world busy))
       (heap (RefreshManager.world after)) l).
Proof.
  intros s Hd Hidle Hbusy.
  assert (Hinv : SystemInvariant s) by apply run_invariant, boot_invariant.
  split; [apply second_caller_before_load; assumption|].
  split; [apply second_caller_before_fetch; assumption|].
  split.
  - intros future. apply invariant_one_pending, run_invariant, Hinv.
  - cbv zeta. cbn [RefreshManager.step].
    destruct (refreshEnter_guarded busy c (or_intror Hbusy)) as (Hm & Hp & Hio & l & Htr & Hheap).
    split; [exact Hm|]. split; [exact Hp|]. split; [exact Hio|].
    exists l. split; [exact Htr|].
    unfold cachedOrEmpty.
    destruct (RefreshManager.lastMetrics (RefreshManager.mgr busy)); [apply Hheap|].
    destruct Hheap as [-> ->]. apply list_lookup_middle. reflexivity.
Qed.

Lemma concurrent_refresh_is_served_from_the_cache_witness :
  let s := RefreshManager.run [] (RefreshManager.boot sampleWorld) in
  oneRefreshForTwoCallers s
    (RefreshManager.run
       [RefreshManager.Refresh 1; RefreshManager.Refresh 2;
        RefreshManager.Resume 1; RefreshManager.Resume 1] s) 1 2 /\
  oneRefreshForTwoCallers s
    (RefreshManager.run
       [RefreshManager.Refresh 1; RefreshManager.Resume 1;
        RefreshManager.Refresh 2; RefreshManager.Resume 1] s) 1 2 /\
  (forall future,
     (length (RefreshManager.pending (RefreshManager.run future s)) <= 1)%nat) /\
  (let after := RefreshManager.step busySystem (RefreshManager.Refresh 3) in
   RefreshManager.mgr after = RefreshManager.mgr busySystem /\
   RefreshManager.pending after = RefreshManager.pending busySystem /\
   noInputOutput (RefreshManager.world busySystem) (RefreshManager.world after) /\
   exists l,
     trace (RefreshManager.world after) =
       trace (RefreshManager.world busySystem) ++ [EvResolved 3 l] /\
     cachedOrEmpty (RefreshManager.mgr busySystem) (now (RefreshManager.world busySystem))
       (heap (RefreshManager.world after)) l).
Proof.
  apply (concurrent_refresh_is_served_from_the_cache sampleWorld [] 1 2 3 busySystem).
  - reflexivity.
  - reflexivity.
  - reflexivity.
Defined.

(** Two callers of [refresh()] on a new manager, the second before the first
    is resolved: the second gets the object 0, an empty snapshot, the first
    the object 1, the snapshot that was loaded. *)
Lemma concurrent_callers_get_different_snapshots :
  let s' :=
    RefreshManager.run
      [RefreshManager.Refresh 1; RefreshManager.Refresh 2;
       RefreshManager.Resume 1; RefreshManager.Resume 1]
      (RefreshManager.boot sampleWorld) in
  resolutions (trace (RefreshManager.world s')) = [(2%nat, 0%nat); (1%nat, 1%nat)] /\
  (UsageMetrics.dataAvailable <$> heap (RefreshManager.world s') !! 0%nat) = Some false /\
  (UsageMetrics.dataAvailable <$> heap (RefreshManager.world s') !! 1%nat) = Some true /\
  ~ (exists l, resolutions (trace (RefreshManager.world s')) = [(2%nat, l); (1%nat, l)]).
Proof.
  cbv zeta. repeat split; try (vm_compute; reflexivity).
  intros [l H]. vm_compute in H. congruence.
Qed.

(** After a burst of three events and [stop()], nothing fires; left alone, the
    burst fires once. *)
Lemma debounce_one_signal_per_burst_witness :
  FileWatcher.fired
    (FileWatcher.run (FileWatcher.burst [100; 200] ++ [FileWatcher.Elapse 500]) watching) =
    FileWatcher.fired watching ++
      [FileWatcher.clock watching + fold_right Z.add 0 [100; 200] + FileWatcher.debounceMs] /\
  FileWatcher.fired
    (FileWatcher.run
       (FileWatcher.burst [100; 200] ++
        FileWatcher.Stop :: [FileWatcher.FsEvent true; FileWatcher.Elapse 1000]) watching) =
    FileWatcher.fired watching /\
  (forall t0 history,
     FileWatcher.fired
       (FileWatcher.run
          (history ++ FileWatcher.Stop :: [FileWatcher.FsEvent true; FileWatcher.Elapse 1000])
          (FileWatcher.initial t0)) =
     FileWatcher.fired (FileWatcher.run history (FileWatcher.initial t0))).
Proof.
  apply (debounce_one_signal_per_burst watching [100; 200] 500
           [FileWatcher.FsEvent true; FileWatcher.Elapse 1000]).
  - reflexivity.
  - reflexivity.
  - reflexivity.
  - repeat constructor; unfold FileWatcher.debounceMs; lia.
  - unfold FileWatcher.debounceMs. lia.
  - reflexivity.
Defined.

Lemma refresh_after_dispose_does_no_work_witness :
  let calls :=
    [RefreshManager.Refresh 2; RefreshManager.SetMode sampleConfig realtime;
     RefreshManager.Refresh 3] in
  let d := RefreshManager.step settledSystem RefreshManager.Dispose in
  let s' := RefreshManager.run calls d in
  RefreshManager.mgr s' = RefreshManager.mgr d /\
  RefreshManager.pending s' = RefreshManager.pending d /\
  noInputOutput (RefreshManager.world d) (RefreshManager.world s') /\
  exists locs,
    trace (RefreshManager.world s') =
      trace (RefreshManager.world d) ++ zip_with EvResolved (refreshCallers calls) locs /\
    length locs = length (refreshCallers calls) /\
    Forall (cachedOrEmpty (RefreshManager.mgr d) (now (RefreshManager.world d))
              (heap (RefreshManager.world s'))) locs.
Proof.
  apply (refresh_after_dispose_does_no_work settledSystem
           [RefreshManager.Refresh 2; RefreshManager.SetMode sampleConfig realtime;
            RefreshManager.Refresh 3]).
  reflexivity.
Defined.

(** * Further properties of the code *)

(** ** More about [utils/retry.ts] *)



(** X2.  [withRetry] sleeps between attempts only.  With [maxAttempts] passed
    as a whole number from one on, or left out, and where the code gets
    [maxAttempts - 1] right, as it does below [2^53], the calls of the
    operation and the sleeps take turns, from the call of attempt 0 to a
    call: no sleep comes before the first call or after the last, and none
    without a call after it.  With [maxAttempts] passed as zero, a number
    below zero, minus infinity, [NaN] or [undefined] there is no call and no
    sleep. *)
Theorem withRetry_sleeps_only_between_attempts {T E S : Type} (round : Q -> number)
    (pow : number -> number -> number) (random : S -> number * S)
    (sleep : number -> S -> S) (fn : S -> (T + E) * S)
    (options : option (Retry.Options.t E)) (s : S) :
  (forall x,
     maxAttemptsPassed options = Retry.Present x ->
     letsNoAttempt x ->
     forall fuel,
       exists c, Retry.withRetry round pow random sleep fn fuel options s = Some (c, s, [])) /\
  (forall n,
     maxAttemptsPassed options = Retry.Present (Some (Double.ofZ n)) \/
     maxAttemptsPassed options = Retry.Missing /\ n = 3 ->
     1 <= n ->
     Double.same (Double.minus round (Double.ofZ n) (Double.ofZ 1)) (Double.ofZ (n - 1)) ->
     forall fuel, (Z.to_nat n <= fuel)%nat ->
     exists c s' marks,
       Retry.withRetry round pow random sleep fn fuel options s = Some (c, s', marks) /\
       Alternate 0 marks).
Proof.
  split.
  - intros x Hpassed Hx fuel. eexists. unfold Retry.withRetry.
    apply (retryLoop_exhausted round pow random sleep fn _ fuel 0 None s).
    rewrite mergeOptions_maxAttempts, Hpassed.
    apply letsNoAttempt_lt; [lia|exact Hx].
  - intros n Hpassed Hn Hminus fuel Hfuel. unfold Retry.withRetry.
    assert (Hmax : Retry.Merged.maxAttempts (Retry.mergeOptions options) =
                   Some (Double.ofZ n)).
    { rewrite mergeOptions_maxAttempts.
      destruct Hpassed as [->|[-> ->]]; reflexivity. }
    apply (retryLoop_alternates round pow random sleep fn _ n Hmax Hminus); [lia|].
    rewrite Z.sub_0_r. exact Hfuel.
Qed.

(** No options: three attempts, two sleeps between them. *)
Lemma withRetry_sleeps_only_between_attempts_witness :
  exists c s' marks,
    withRetry_sample 3 None = Some (c, s', marks) /\
    Alternate 0 marks.
Proof.
  apply (withRetry_sleeps_only_between_attempts Double.binary64 Double.pow
           (draws (Finite (1 # 2))) elapses failing None 0%nat)
    with (n := 3); [right; split; reflexivity|lia|vm_compute; reflexivity|vm_compute; lia].
Defined.

(** ** More about [services/ClaudeAPIService.ts] *)

Lemma callUsageAPIWithRetry_result (accessToken : string) (w : World) :
  fst (callUsageAPIWithRetry accessToken w) = usageOutcomeResult (usageApi w (usageCalls w)).
Proof.
  unfold callUsageAPIWithRetry, bind. cbn [emit]. wsimpl.
  destruct (usageApi w (usageCalls w)); reflexivity.
Qed.

(** Every rejection of a request is a [RetryableAPIError]. *)
Lemma usageOutcomeResult_rejection (o : ApiOutcome) (e : JsError) :
  usageOutcomeResult o = inr e -> exists m c, e = RetryableAPIError m c.
Proof.
  destruct o as [statusCode data| |message]; cbn.
  - unfold handleUsageApiEnd.
    destruct (processUsageApiResponse statusCode data) as [r|[m c|m|]]; intros H;
      try discriminate H.
    injection H as <-. eauto.
  - intros H. injection H as <-. eauto.
  - intros H. injection H as <-. eauto.
Qed.

(** X3.  Of the failures [callUsageAPIWithRetry] rejects with, [isNetworkError]
    recognises the timeouts and the request errors, whatever the message of
    the latter, and none of those that come from an HTTP status: these are
    retried by [fetchQuota] only because they are [RetryableAPIError]s. *)
Theorem isNetworkError_misses_status_failures (accessToken : string) (w : World)
    (e : JsError) :
  fst (callUsageAPIWithRetry accessToken w) = inr e ->
  isNetworkError e =
    match usageApi w (usageCalls w) with
    | Response _ _ => false
    | RequestTimeout | RequestError _ => true
    end.
Proof.
  rewrite callUsageAPIWithRetry_result.
  destruct (usageApi w (usageCalls w)) as [statusCode data| |message]; cbn.
  - unfold handleUsageApiEnd, processUsageApiResponse.
    repeat case_bool_decide; simplify_eq.
    + destruct data; intros Hrej; discriminate Hrej.
    + intros Hrej; discriminate Hrej.
    + destruct statusCode as [code|]; [|intros Hrej; discriminate Hrej].
      destruct (code =? 0) eqn:Hzero; cbn; [intros Hrej; discriminate Hrej|].
      unfold isRetryableHttpStatus. cbn [existsb].
      destruct (code =? 408) eqn:H408;
        [apply Z.eqb_eq in H408; subst; intros Hrej; injection Hrej as <-; vm_compute; reflexivity|].
      destruct (code =? 429) eqn:H429;
        [apply Z.eqb_eq in H429; subst; intros Hrej; injection Hrej as <-; vm_compute; reflexivity|].
      destruct (code =? 500) eqn:H500;
        [apply Z.eqb_eq in H500; subst; intros Hrej; injection Hrej as <-; vm_compute; reflexivity|].
      destruct (code =? 502) eqn:H502;
        [apply Z.eqb_eq in H502; subst; intros Hrej; injection Hrej as <-; vm_compute; reflexivity|].
      destruct (code =? 503) eqn:H503;
        [apply Z.eqb_eq in H503; subst; intros Hrej; injection Hrej as <-; vm_compute; reflexivity|].
      destruct (code =? 504) eqn:H504;
        [apply Z.eqb_eq in H504; subst; intros Hrej; injection Hrej as <-; vm_compute; reflexivity|].
      cbn. intros Hrej; discriminate Hrej.
  - intros Hrej. injection Hrej as <-. vm_compute. reflexivity.
  - intros Hrej. injection Hrej as <-.
    unfold isNetworkError. cbn [errorMessage].
    assert (Hnet : includes (toLowerCase ("Network error: " ++ message)) "network" = true)
      by reflexivity.
    rewrite Hnet. rewrite !orb_true_r. reflexivity.
Qed.

Lemma isNetworkError_misses_status_failures_witness :
  isNetworkError (RetryableAPIError "Rate limited. Please try again later." (Some 429)) = false.
Proof.
  apply (isNetworkError_misses_status_failures "access-1" rateLimitedWorld
           (RetryableAPIError "Rate limited. Please try again later." (Some 429))).
  reflexivity.
Defined.

Lemma calculateDelay_keeps attempt i m b j w :
  tokenCalls (snd (calculateDelay attempt i m b j w)) = tokenCalls w /\
  tokenApi (snd (calculateDelay attempt i m b j w)) = tokenApi w /\
  randomDraws (snd (calculateDelay attempt i m b j w)) = randomDraws w.
Proof. unfold calculateDelay. destruct j; repeat split. Qed.

Lemma callUsageAPIWithRetry_keeps accessToken w :
  tokenCalls (snd (callUsageAPIWithRetry accessToken w)) = tokenCalls w /\
  tokenApi (snd (callUsageAPIWithRetry accessToken w)) = tokenApi w /\
  randomDraws (snd (callUsageAPIWithRetry accessToken w)) = randomDraws w.
Proof.
  unfold callUsageAPIWithRetry, bind. cbn [emit]. wsimpl.
  destruct (usageApi w (usageCalls w)); repeat split.
Qed.

(** The retry loop of [fetchQuota] leaves the token endpoint and the random
    source as they are. *)
Lemma usage_retryLoop_keeps (accessToken : string) :
  forall remaining attempt lastError w,
    let w' := snd (retryLoop (callUsageAPIWithRetry accessToken)
                     (mergeOptions (Some fetchQuotaRetryOptions))
                     remaining attempt lastError w) in
    tokenCalls w' = tokenCalls w /\
    tokenApi w' = tokenApi w /\
    randomDraws w' = randomDraws w.
Proof.
  induction remaining as [|k IH]; intros attempt lastError w; cbv zeta.
  - cbn. auto.
  - rewrite retryLoop_step.
    pose proof (callUsageAPIWithRetry_keeps accessToken (snd (emit (EvFnInvoked attempt) w)))
      as (Hc & Ha & Hr).
    cbn [emit snd] in *. wsimpl in Hc. wsimpl in Ha. wsimpl in Hr.
    destruct (callUsageAPIWithRetry accessToken _) as [[q|e] w1]; cbn [fst snd] in *.
    + auto.
    + destruct (Resolved.isRetryable _ e); [|cbn [snd]; auto].
      destruct (attempt <? _).
      * pose proof (calculateDelay_keeps attempt
          (Resolved.initialDelayMs (mergeOptions (Some fetchQuotaRetryOptions)))
          (Resolved.maxDelayMs (mergeOptions (Some fetchQuotaRetryOptions)))
          (Resolved.backoffMultiplier (mergeOptions (Some fetchQuotaRetryOptions)))
          (Resolved.jitter (mergeOptions (Some fetchQuotaRetryOptions))) w1) as (Hc2 & Ha2 & Hr2).
        destruct (calculateDelay _ _ _ _ _ w1) as [d w2]. cbn [snd] in *.
        destruct (IH (attempt + 1) (Some e) (snd (sleep d w2))) as (Hc3 & Ha3 & Hr3).
        rewrite Hc3, Ha3, Hr3. cbn [sleep snd]. wsimpl.
        rewrite Hc2, Ha2, Hr2. auto.
      * destruct (IH (attempt + 1) (Some e) w1) as (Hc3 & Ha3 & Hr3).
        rewrite Hc3, Ha3, Hr3. auto.
Qed.

(** [fetchQuota] when it does not get as far as the usage endpoint. *)
Lemma fetchQuota_no_token_run (w : World) :
  accessTokenInUse w = None ->
  exists w',
    fetchQuota w =
      (QuotaResult.mk false None
         (Some (if needsRefresh w then REFRESH_FAILED_MESSAGE else NO_CREDENTIALS_MESSAGE)),
       w') /\
    sameFiles w w' /\
    usageCalls w' = usageCalls w /\
    tokenCalls w' = (tokenCalls w + if needsRefresh w then 1 else 0)%nat /\
    exists refreshToken,
      trace w' = trace w ++ (if needsRefresh w then [EvTokenRequest refreshToken] else []).
Proof.
  unfold accessTokenInUse, needsRefresh. intros Htoken.
  unfold fetchQuota, bind at 1. unfold getCredentials.
  destruct (credFile w) as [| |file] eqn:Hfile; cbn [ret].
  1,2: exists w; rewrite app_nil_r, Nat.add_0_r;
    split; [reflexivity|]; split; [apply sameFiles_refl|]; split; [reflexivity|];
    split; [reflexivity|]; exists EmptyString; reflexivity.
  destruct (CredentialsFile.claudeAiOauth file) as [creds|] eqn:Hoauth; cbn [ret].
  2: exists w; rewrite app_nil_r, Nat.add_0_r;
    split; [reflexivity|]; split; [apply sameFiles_refl|]; split; [reflexivity|];
    split; [reflexivity|]; exists EmptyString; reflexivity.
  unfold bind at 1. unfold isTokenExpired, bind at 1. cbn [dateNow ret].
  destruct (_ <? now w); [|discriminate Htoken].
  unfold bind at 1. unfold bind at 1.
  unfold refreshToken, bind at 1. cbn [emit]. unfold bind at 1. wsimpl.
  destruct (tokenApi w (tokenCalls w)) as [statusCode [response|]| |message];
    try (case_bool_decide; [discriminate Htoken|]);
    try case_bool_decide; cbn [ret]; wsimpl;
    (eexists; split; [reflexivity|]; split; [repeat split|]; wsimpl;
     split; [reflexivity|]; split; [lia|]; eexists; reflexivity).
Qed.

Lemma fetchQuota_no_token (w : World) :
  accessTokenInUse w = None ->
  fst (fetchQuota w) =
    QuotaResult.mk false None
      (Some (if needsRefresh w then REFRESH_FAILED_MESSAGE else NO_CREDENTIALS_MESSAGE)) /\
  sameFiles w (snd (fetchQuota w)) /\
  usageCalls (snd (fetchQuota w)) = usageCalls w /\
  tokenCalls (snd (fetchQuota w)) =
    (tokenCalls w + if needsRefresh w then 1 else 0)%nat /\
  exists refreshToken,
    trace (snd (fetchQuota w)) =
      trace w ++ (if needsRefresh w then [EvTokenRequest refreshToken] else []).
Proof.
  intros Htoken.
  destruct (fetchQuota_no_token_run w Htoken) as (w' & -> & H).
  cbn [fst snd]. split; [reflexivity|exact H].
Qed.

(** The world after a token refresh that the endpoint answers with 200 and a
    body. *)
Lemma refreshToken_success_world (w : World) (file : CredentialsFile.t)
    (token : string) (response : TokenResponse.t) :
  credFile w = Parsed file ->
  tokenApi w (tokenCalls w) = TokenAnswer (Some 200) (Some response) ->
  let newCreds := credentialsOfResponse response token (now w) in
  let asked :=
    setTokenCalls (S (tokenCalls w)) (setTrace (trace w ++ [EvTokenRequest token]) w) in
  refreshToken token w =
    (Some newCreds,
     if credWritable w
     then setTrace (trace asked ++ [EvCredentialsWritten])
            (setCredFile
               (Parsed (CredentialsFile.mk (Some newCreds) (CredentialsFile.otherFields file)))
               asked)
     else if credWriteTears w then setCredFile Corrupt asked
     else asked).
Proof.
  intros Hfile Hanswer. cbv zeta.
  unfold refreshToken, bind at 1. cbn [emit]. unfold bind at 1. wsimpl.
  rewrite Hanswer. rewrite bool_decide_eq_true_2 by reflexivity.
  unfold bind at 1. cbn [dateNow]. unfold bind at 1.
  unfold saveCredentials. wsimpl. rewrite Hfile.
  destruct (credWritable w); [|destruct (credWriteTears w)]; reflexivity.
Qed.

(** [fetchQuota] when it gets as far as the usage endpoint. *)
Lemma fetchQuota_with_token (w : World) (token : string) :
  accessTokenInUse w = Some token ->
  exists w1,
    fetchQuota w =
      (c <- withRetry (callUsageAPIWithRetry token) (Some fetchQuotaRetryOptions) ;;
       ret (quotaResultOfCompletion c)) w1 /\
    usageApi w1 = usageApi w /\
    usageCalls w1 = usageCalls w /\
    randomDraws w1 = randomDraws w /\
    randomCalls w1 = randomCalls w /\
    tokenCalls w1 = (tokenCalls w + if needsRefresh w then 1 else 0)%nat /\
    exists pre,
      trace w1 = trace w ++ pre /\
      forallb isCredentialEvent pre = true.
Proof.
  unfold accessTokenInUse, needsRefresh. intros Htoken.
  destruct (credFile w) as [| |file] eqn:Hfile; try discriminate Htoken.
  destruct (CredentialsFile.claudeAiOauth file) as [creds|] eqn:Hoauth;
    [|discriminate Htoken].
  destruct (OAuthCredentials.expiresAt creds - 5 * 60 * 1000 <? now w) eqn:Hexpired.
  - destruct (tokenApi w (tokenCalls w)) as [statusCode [response|]| |] eqn:Hanswer;
      try discriminate Htoken.
    case_bool_decide as Hok; [|discriminate Htoken]. subst statusCode.
    injection Htoken as <-.
    pose proof (refreshToken_success_world w file (OAuthCredentials.refreshToken creds)
                  response Hfile Hanswer) as Hrefresh.
    cbv zeta in Hrefresh.
    eexists. split.
    + unfold fetchQuota, bind at 1. unfold getCredentials. rewrite Hfile, Hoauth.
      unfold bind at 1. unfold isTokenExpired, bind at 1. cbn [dateNow ret].
      rewrite Hexpired.
      unfold bind at 1. unfold bind at 1.
      rewrite Hrefresh. reflexivity.
    + destruct (credWritable w); [|destruct (credWriteTears w)]; wsimpl.
      * repeat (split; [first [reflexivity|lia]|]).
        exists [EvTokenRequest (OAuthCredentials.refreshToken creds); EvCredentialsWritten].
        rewrite <- app_assoc. split; reflexivity.
      * repeat (split; [first [reflexivity|lia]|]).
        exists [EvTokenRequest (OAuthCredentials.refreshToken creds)].
        split; reflexivity.
      * repeat (split; [first [reflexivity|lia]|]).
        exists [EvTokenRequest (OAuthCredentials.refreshToken creds)].
        split; reflexivity.
  - injection Htoken as <-.
    exists w. split.
    + unfold fetchQuota, bind at 1. unfold getCredentials. rewrite Hfile, Hoauth.
      unfold bind at 1. unfold isTokenExpired, bind at 1. cbn [dateNow ret].
      rewrite Hexpired. reflexivity.
    + repeat (split; [first [reflexivity|lia]|]). exists []. rewrite app_nil_r. auto.
Qed.

(** X4.  Without an access token to use (no credentials file, one that is not
    JSON or has no [claudeAiOauth], or a token refresh that fails) [fetchQuota]
    fails at once with the message of its case: the usage endpoint is not
    contacted, no file is written, and the only request is the one token
    request of a failed refresh. *)
Theorem fetchQuota_stops_without_a_token (w : World) :
  accessTokenInUse w = None ->
  fst (fetchQuota w) =
    QuotaResult.mk false None
      (Some (if needsRefresh w then REFRESH_FAILED_MESSAGE else NO_CREDENTIALS_MESSAGE)) /\
  sameFiles w (snd (fetchQuota w)) /\
  usageCalls (snd (fetchQuota w)) = usageCalls w /\
  exists refreshToken,
    trace (snd (fetchQuota w)) =
      trace w ++ (if needsRefresh w then [EvTokenRequest refreshToken] else []).
Proof.
  intros Htoken.
  destruct (fetchQuota_no_token w Htoken) as (Hr & Hs & Hu & _ & Htr). auto.
Qed.

Lemma fetchQuota_stops_without_a_token_witness :
  fst (fetchQuota loggedOutWorld) =
    QuotaResult.mk false None (Some NO_CREDENTIALS_MESSAGE) /\
  sameFiles loggedOutWorld (snd (fetchQuota loggedOutWorld)) /\
  usageCalls (snd (fetchQuota loggedOutWorld)) = usageCalls loggedOutWorld /\
  exists refreshToken,
    trace (snd (fetchQuota loggedOutWorld)) =
      trace loggedOutWorld ++
        (if needsRefresh loggedOutWorld then [EvTokenRequest refreshToken] else []).
Proof.
  apply (fetchQuota_stops_without_a_token loggedOutWorld). reflexivity.
Defined.

(** X5.  [fetchQuota] asks the token endpoint at most once, and exactly when
    there are stored credentials whose token runs out within five minutes or
    has run out; the retries of the usage request never refresh the token
    again. *)
Theorem fetchQuota_refreshes_at_most_once (w : World) :
  tokenCalls (snd (fetchQuota w)) =
    (tokenCalls w + if needsRefresh w then 1 else 0)%nat.
Proof.
  destruct (accessTokenInUse w) as [token|] eqn:Htoken.
  - destruct (fetchQuota_with_token w token Htoken)
      as (w1 & Hstart & _ & _ & _ & _ & Hcalls & _).
    rewrite Hstart. unfold bind, ret, withRetry.
    match goal with
    | |- context [retryLoop ?f ?o ?n ?a ?l ?w0] =>
        pose proof (usage_retryLoop_keeps token n a l w0) as (Hc & _ & _);
        destruct (retryLoop f o n a l w0) as [c w']
    end.
    cbn [snd] in *. rewrite Hc. exact Hcalls.
  - destruct (fetchQuota_no_token w Htoken) as (_ & _ & _ & Hcalls & _). exact Hcalls.
Qed.

Lemma waits_app (a b : list Event) : waits (a ++ b) = waits a ++ waits b.
Proof. unfold waits. apply flat_map_app. Qed.

Lemma credential_events_no_waits (pre : list Event) :
  forallb isCredentialEvent pre = true -> waits pre = [].
Proof.
  induction pre as [|e pre IH]; [reflexivity|].
  cbn [forallb]. intros H. apply andb_true_iff in H as [He Hpre].
  destruct e; try discriminate He; cbn; auto.
Qed.

(** One turn of the retry loop of [fetchQuota]: the request settles, and a
    rejection is followed by the wait when fewer than two attempts went
    before. *)
Lemma usage_retry_step (token : string) (k : nat) (attempt : Z)
    (lastError : option JsError) (w : World) :
  let opts := mergeOptions (Some fetchQuotaRetryOptions) in
  let delay := Qmin (1000 * Qpower 2 attempt) 5000 in
  let u := randomDraws w (randomCalls w) in
  match usageOutcomeResult (usageApi w (usageCalls w)) with
  | inl r =>
      exists w1,
        retryLoop (callUsageAPIWithRetry token) opts (S k) attempt lastError w =
          (Returned r, w1) /\
        trace w1 = trace w ++ [EvFnInvoked attempt; EvUsageRequest token]
  | inr e =>
      exists w2,
        retryLoop (callUsageAPIWithRetry token) opts (S k) attempt lastError w =
          retryLoop (callUsageAPIWithRetry token) opts k (attempt + 1) (Some e) w2 /\
        usageApi w2 = usageApi w /\
        usageCalls w2 = S (usageCalls w) /\
        randomDraws w2 = randomDraws w /\
        trace w2 =
          trace w ++ [EvFnInvoked attempt; EvUsageRequest token] ++
            (if attempt <? 2
             then [EvSleep (Qfloor (delay + delay * (1 # 2) * u)%Q)]
             else [])
  end.
Proof.
  cbv zeta. rewrite retryLoop_step.
  pose proof (callUsageAPIWithRetry_result token (snd (emit (EvFnInvoked attempt) w))) as Hres.
  pose proof (callUsageAPIWithRetry_settles token (snd (emit (EvFnInvoked attempt) w)))
    as (_ & Hcalls & Hapi & Htr).
  pose proof (callUsageAPIWithRetry_keeps token (snd (emit (EvFnInvoked attempt) w)))
    as (_ & _ & Hdraws).
  assert (Hrc : randomCalls (snd (callUsageAPIWithRetry token (snd (emit (EvFnInvoked attempt) w))))
                = randomCalls w).
  { unfold callUsageAPIWithRetry, bind. cbn [emit snd]. wsimpl.
    destruct (usageApi w (usageCalls w)); reflexivity. }
  cbn [emit snd] in *. wsimpl in Hres. wsimpl in Hcalls. wsimpl in Hapi.
  wsimpl in Htr. wsimpl in Hdraws. wsimpl in Hrc.
  destruct (callUsageAPIWithRetry token _) as [r w1]. cbn [fst snd] in *.
  rewrite <- Hres.
  destruct r as [q|e].
  - exists w1. split; [reflexivity|]. rewrite Htr, <- app_assoc. reflexivity.
  - destruct (usageOutcomeResult_rejection _ _ (eq_sym Hres)) as (m & c & ->).
    change (Resolved.isRetryable (mergeOptions (Some fetchQuotaRetryOptions))
              (RetryableAPIError m c)) with true. cbv iota.
    change (Resolved.maxAttempts (mergeOptions (Some fetchQuotaRetryOptions)) - 1) with 2.
    destruct (attempt <? 2).
    + change (Resolved.initialDelayMs (mergeOptions (Some fetchQuotaRetryOptions))) with 1000%Q.
      change (Resolved.maxDelayMs (mergeOptions (Some fetchQuotaRetryOptions))) with 5000%Q.
      change (Resolved.backoffMultiplier (mergeOptions (Some fetchQuotaRetryOptions))) with 2%Q.
      change (Resolved.jitter (mergeOptions (Some fetchQuotaRetryOptions))) with true.
      unfold calculateDelay. unfold bind at 1. cbn [mathRandom ret].
      eexists. split; [reflexivity|].
      cbn [sleep snd]. wsimpl. rewrite Hapi, Hcalls, Hdraws, Htr, Hrc.
      repeat (split; [reflexivity|]). rewrite <- !app_assoc. reflexivity.
    + exists w1. split; [reflexivity|]. rewrite Hapi, Hcalls, Hdraws, Htr.
      repeat (split; [reflexivity|]). rewrite <- !app_assoc. reflexivity.
Qed.

(** X6.  With an access token in use, the result of [fetchQuota] is what the
    first of at most three requests that is not rejected settles with; when
    all three are rejected (by a retryable status, a timeout or a request
    error) it is a failure with the message of the third rejection. *)
Theorem fetchQuota_returns_the_first_settled_answer (w : World) (token : string) :
  accessTokenInUse w = Some token ->
  let outcome (k : nat) := usageApi w (usageCalls w + k)%nat in
  fst (fetchQuota w) =
    match usageOutcomeResult (outcome 0%nat) with
    | inl r => r
    | inr _ =>
        match usageOutcomeResult (outcome 1%nat) with
        | inl r => r
        | inr _ =>
            match usageOutcomeResult (outcome 2%nat) with
            | inl r => r
            | inr e => QuotaResult.mk false None (errorMessage e)
            end
        end
    end.
Proof.
  intros Htoken. cbv zeta.
  destruct (fetchQuota_with_token w token Htoken) as (w1 & Hstart & Hapi & Hcalls & _).
  rewrite Hstart. unfold bind, ret, withRetry.
  change (Z.to_nat (Resolved.maxAttempts (mergeOptions (Some fetchQuotaRetryOptions))))
    with 3%nat.
  rewrite <- Hapi, <- Hcalls. clear Hstart Hapi Hcalls.
  pose proof (usage_retry_step token 2 0 None w1) as H1. cbv zeta in H1.
  rewrite Nat.add_0_r.
  destruct (usageOutcomeResult (usageApi w1 (usageCalls w1))) as [r|e1].
  { destruct H1 as (w' & -> & _). reflexivity. }
  destruct H1 as (w2 & -> & Hapi2 & Hcalls2 & _).
  pose proof (usage_retry_step token 1 (0 + 1) (Some e1) w2) as H2. cbv zeta in H2.
  rewrite Hapi2, Hcalls2 in H2. rewrite Nat.add_1_r.
  destruct (usageOutcomeResult (usageApi w1 (S (usageCalls w1)))) as [r|e2].
  { destruct H2 as (w' & -> & _). reflexivity. }
  destruct H2 as (w3 & -> & Hapi3 & Hcalls3 & _).
  pose proof (usage_retry_step token 0 (0 + 1 + 1) (Some e2) w3) as H3. cbv zeta in H3.
  rewrite Hapi3, Hcalls3 in H3.
  replace (usageCalls w1 + 2)%nat with (S (S (usageCalls w1))) by lia.
  destruct (usageOutcomeResult (usageApi w1 (S (S (usageCalls w1))))) as [r|e3] eqn:Hthird.
  { destruct H3 as (w' & -> & _). reflexivity. }
  destruct H3 as (w4 & -> & _).
  destruct (usageOutcomeResult_rejection _ _ Hthird) as (m & c & ->).
  reflexivity.
Qed.

Lemma fetchQuota_returns_the_first_settled_answer_witness :
  fst (fetchQuota unreachableWorld) = QuotaResult.mk false None (Some "Request timeout").
Proof.
  apply (fetchQuota_returns_the_first_settled_answer unreachableWorld "access-1").
  reflexivity.
Defined.

(** The wait after attempt [attempt] of [fetchQuota], for a number drawn
    between 0 and 1: between the backoff and one and a half times it. *)
Lemma fetchQuota_wait_bounds (attempt : Z) (u : Q) (base : Z) :
  (0 <= u)%Q -> (u <= 1)%Q ->
  (Qmin (1000 * Qpower 2 attempt) 5000 == inject_Z base)%Q ->
  0 < base ->
  let delay := Qmin (1000 * Qpower 2 attempt) 5000 in
  base <= Qfloor (delay + delay * (1 # 2) * u)%Q /\
  2 * Qfloor (delay + delay * (1 # 2) * u)%Q <= 3 * base.
Proof.
  intros Hu0 Hu1 Hbase Hpos delay. subst delay.
  rewrite (Qfloor_comp _ (inject_Z base + inject_Z base * (1 # 2) * u)%Q)
    by (rewrite Hbase; reflexivity).
  assert (Hb : (inject_Z 0 < inject_Z base)%Q) by (rewrite <- Zlt_Qlt; exact Hpos).
  change (inject_Z 0) with 0%Q in Hb.
  split.
  - rewrite <- (Qfloor_Z base) at 1. apply Qfloor_resp_le. nra.
  - rewrite Zle_Qle, !inject_Z_mult.
    change (inject_Z 2) with 2%Q. change (inject_Z 3) with 3%Q.
    pose proof (Qfloor_le (inject_Z base + inject_Z base * (1 # 2) * u)) as Hfloor.
    nra.
Qed.

(** X7.  The waits of one [fetchQuota] are bounded: there are at most two
    sleeps, the first of at least 1000 ms and at most 1500 ms, the second of
    at least 2000 ms and at most 3000 ms.  The upper ends are included, and
    so is a jitter factor of 1: the code adds in double precision, where the
    sum for a number drawn just below 1 is rounded to 1500 or 3000. *)
Theorem fetchQuota_waits_are_bounded (w : World) :
  (forall n, (0 <= randomDraws w n)%Q /\ (randomDraws w n <= 1)%Q) ->
  exists tr,
    trace (snd (fetchQuota w)) = trace w ++ tr /\
    (waits tr = [] \/
     (exists d1, waits tr = [d1] /\ 1000 <= d1 <= 1500) \/
     (exists d1 d2,
        waits tr = [d1; d2] /\ 1000 <= d1 <= 1500 /\ 2000 <= d2 <= 3000)).
Proof.
  intros Hdraws.
  destruct (accessTokenInUse w) as [token|] eqn:Htoken.
  2: { destruct (fetchQuota_no_token_run w Htoken) as (w' & -> & _ & _ & _ & rt & Htr).
       cbn [snd]. eexists. split; [exact Htr|]. left.
       destruct (needsRefresh w); reflexivity. }
  destruct (fetchQuota_with_token w token Htoken)
    as (w1 & Hstart & _ & _ & Hd1 & _ & _ & pre & Hpre & Hcred).
  apply credential_events_no_waits in Hcred.
  rewrite Hstart. unfold bind, ret, withRetry.
  change (Z.to_nat (Resolved.maxAttempts (mergeOptions (Some fetchQuotaRetryOptions))))
    with 3%nat.
  assert (Hw0 : 1000 <= Qfloor (Qmin (1000 * Qpower 2 0) 5000 +
                    Qmin (1000 * Qpower 2 0) 5000 * (1 # 2) *
                    randomDraws w1 (randomCalls w1))%Q <= 1500).
  { rewrite Hd1. destruct (Hdraws (randomCalls w1)) as [H0 H1].
    pose proof (fetchQuota_wait_bounds 0 _ 1000 H0 H1 ltac:(reflexivity) ltac:(lia)) as Hb.
    cbv zeta in Hb. lia. }
  pose proof (usage_retry_step token 2 0 None w1) as H1. cbv zeta in H1.
  destruct (usageOutcomeResult (usageApi w1 (usageCalls w1))) as [r|e1].
  { destruct H1 as (w' & -> & Htr). cbn [snd]. eexists.
    split; [rewrite Htr, Hpre, <- app_assoc; reflexivity|].
    left. rewrite waits_app, Hcred. reflexivity. }
  destruct H1 as (w2 & -> & _ & _ & Hd2 & Htr2).
  change (0 <? 2) with true in Htr2. cbv iota in Htr2.
  assert (Hw1 : 2000 <= Qfloor (Qmin (1000 * Qpower 2 (0 + 1)) 5000 +
                    Qmin (1000 * Qpower 2 (0 + 1)) 5000 * (1 # 2) *
                    randomDraws w2 (randomCalls w2))%Q <= 3000).
  { rewrite Hd2, Hd1. destruct (Hdraws (randomCalls w2)) as [H0 H1].
    pose proof (fetchQuota_wait_bounds (0 + 1) _ 2000 H0 H1 ltac:(reflexivity) ltac:(lia)) as Hb.
    cbv zeta in Hb. lia. }
  pose proof (usage_retry_step token 1 (0 + 1) (Some e1) w2) as H2. cbv zeta in H2.
  destruct (usageOutcomeResult (usageApi w2 (usageCalls w2))) as [r|e2].
  { destruct H2 as (w' & -> & Htr). cbn [snd]. eexists.
    split; [rewrite Htr, Htr2, Hpre, <- !app_assoc; reflexivity|].
    right. left. eexists. rewrite !waits_app, Hcred. split; [reflexivity|exact Hw0]. }
  destruct H2 as (w3 & -> & _ & _ & _ & Htr3).
  change (0 + 1 <? 2) with true in Htr3. cbv iota in Htr3.
  pose proof (usage_retry_step token 0 (0 + 1 + 1) (Some e2) w3) as H3. cbv zeta in H3.
  change (0 + 1 + 1 <? 2) with false in H3. cbv iota in H3.
  destruct (usageOutcomeResult (usageApi w3 (usageCalls w3))) as [r|e3].
  { destruct H3 as (w' & -> & Htr). cbn [snd]. eexists.
    split; [rewrite Htr, Htr3, Htr2, Hpre, <- !app_assoc; reflexivity|].
    right. right. do 2 eexists. rewrite !waits_app, Hcred.
    split; [reflexivity|]. split; [exact Hw0|exact Hw1]. }
  destruct H3 as (w4 & -> & _ & _ & _ & Htr4).
  cbn [retryLoop ret snd]. eexists.
  split; [rewrite Htr4, Htr3, Htr2, Hpre, <- !app_assoc; reflexivity|].
  right. right. do 2 eexists. rewrite !waits_app, Hcred.
  split; [reflexivity|]. split; [exact Hw0|exact Hw1].
Qed.

Lemma fetchQuota_waits_are_bounded_witness :
  exists tr,
    trace (snd (fetchQuota rateLimitedWorld)) = trace rateLimitedWorld ++ tr /\
    (waits tr = [] \/
     (exists d1, waits tr = [d1] /\ 1000 <= d1 <= 1500) \/
     (exists d1 d2,
        waits tr = [d1; d2] /\ 1000 <= d1 <= 1500 /\ 2000 <= d2 <= 3000)).
Proof.
  apply (fetchQuota_waits_are_bounded rateLimitedWorld).
  intros n. cbn. split; discriminate.
Defined.

(** ** Formatting *)

(** X8.  For a reset that lies ahead, [formatTimeUntilReset] splits the time
    left into whole days, hours and minutes, rounding down to the minute; it
    shows days and hours from 25 hours on (the minutes are dropped), hours and
    minutes from one hour up to 24 hours and 59 minutes, and minutes alone
    below one hour.  [formatResetTime] of the status bar gives the same
    text. *)
Theorem formatTimeUntilReset_splits_the_time_left (getTime : string -> option Z)
    (nowMs : Z) (resetAt : string) (resetTime : Z) :
  resetAt <> EmptyString ->
  getTime resetAt = Some resetTime ->
  0 < resetTime - nowMs ->
  exists d h m,
    0 <= d /\ 0 <= h < 24 /\ 0 <= m < 60 /\
    d * 86400000 + h * 3600000 + m * 60000 <= resetTime - nowMs
      < d * 86400000 + h * 3600000 + m * 60000 + 60000 /\
    formatTimeUntilReset getTime nowMs (Some resetAt) =
      (if 24 <? 24 * d + h then (pretty d ++ "d " ++ pretty h ++ "h")%string
       else if 0 <? 24 * d + h then (pretty (24 * d + h) ++ "h " ++ pretty m ++ "m")%string
       else (pretty m ++ "m")%string) /\
    formatResetTime getTime nowMs resetAt =
      formatTimeUntilReset getTime nowMs (Some resetAt).
Proof.
  intros Hne Hparse Hahead.
  set (diff := resetTime - nowMs) in *.
  set (hours := diff / (1000 * 60 * 60)).
  set (minutes := Z.rem diff (1000 * 60 * 60) / (1000 * 60)).
  assert (Hrem : Z.rem diff (1000 * 60 * 60) = diff mod (1000 * 60 * 60))
    by (apply Z.rem_mod_nonneg; lia).
  assert (Hhours : 0 <= hours) by (apply Z.div_pos; lia).
  assert (Hremh : Z.rem hours 24 = hours mod 24) by (apply Z.rem_mod_nonneg; lia).
  exists (hours / 24), (hours mod 24), minutes.
  pose proof (Z.div_mod diff (1000 * 60 * 60) ltac:(lia)) as Hd1.
  pose proof (Z.mod_pos_bound diff (1000 * 60 * 60) ltac:(lia)) as Hb1.
  pose proof (Z.div_mod (diff mod (1000 * 60 * 60)) (1000 * 60) ltac:(lia)) as Hd2.
  pose proof (Z.mod_pos_bound (diff mod (1000 * 60 * 60)) (1000 * 60) ltac:(lia)) as Hb2.
  pose proof (Z.div_mod hours 24 ltac:(lia)) as Hd3.
  pose proof (Z.mod_pos_bound hours 24 ltac:(lia)) as Hb3.
  assert (Hminutes : minutes = diff mod (1000 * 60 * 60) / (1000 * 60))
    by (unfold minutes; rewrite Hrem; reflexivity).
  fold hours in Hd1.
  rewrite <- Hminutes in Hd2.
  assert (Hm : 0 <= minutes < 60).
  { rewrite Hminutes. split; [apply Z.div_pos; lia|].
    apply Z.div_lt_upper_bound; lia. }
  split; [apply Z.div_pos; lia|]. split; [lia|]. split; [exact Hm|].
  split; [lia|].
  assert (Hsame : 24 * (hours / 24) + hours mod 24 = hours) by lia.
  rewrite Hsame.
  assert (Hlabel :
    formatResetTime getTime nowMs resetAt =
      (if 24 <? hours
       then (pretty (hours / 24) ++ "d " ++ pretty (hours mod 24) ++ "h")%string
       else if 0 <? hours then (pretty hours ++ "h " ++ pretty minutes ++ "m")%string
       else (pretty minutes ++ "m")%string)).
  { unfold formatResetTime. rewrite Hparse. fold diff.
    destruct (diff <=? 0) eqn:Hle; [apply Z.leb_le in Hle; lia|].
    fold hours. fold minutes. rewrite Hremh. reflexivity. }
  assert (Hapi : formatTimeUntilReset getTime nowMs (Some resetAt) =
                 formatResetTime getTime nowMs resetAt).
  { destruct resetAt; [congruence|reflexivity]. }
  rewrite Hapi, Hlabel. split; reflexivity.
Qed.

Lemma formatTimeUntilReset_splits_the_time_left_witness :
  exists d h m,
    0 <= d /\ 0 <= h < 24 /\ 0 <= m < 60 /\
    d * 86400000 + h * 3600000 + m * 60000 <= 1704996000000 - 1704900000000
      < d * 86400000 + h * 3600000 + m * 60000 + 60000 /\
    formatTimeUntilReset (fun _ => Some 1704996000000) 1704900000000
        (Some "2024-01-11T18:00:00Z") =
      (if 24 <? 24 * d + h then (pretty d ++ "d " ++ pretty h ++ "h")%string
       else if 0 <? 24 * d + h then (pretty (24 * d + h) ++ "h " ++ pretty m ++ "m")%string
       else (pretty m ++ "m")%string) /\
    formatResetTime (fun _ => Some 1704996000000) 1704900000000 "2024-01-11T18:00:00Z" =
      formatTimeUntilReset (fun _ => Some 1704996000000) 1704900000000
        (Some "2024-01-11T18:00:00Z").
Proof.
  apply (formatTimeUntilReset_splits_the_time_left (fun _ => Some 1704996000000)
           1704900000000 "2024-01-11T18:00:00Z" 1704996000000).
  - discriminate.
  - reflexivity.
  - lia.
Defined.

(** X9.  [formatDuration] of a duration that is not negative splits it into
    whole hours, minutes and seconds, rounding down to the second, and shows
    the largest unit that is not zero: hours with the minutes left over,
    or else the minutes alone (the seconds are dropped), or else the
    seconds. *)
Theorem formatDuration_splits_the_duration (ms : Z) :
  0 <= ms ->
  exists h m s,
    0 <= h /\ 0 <= m < 60 /\ 0 <= s < 60 /\
    h * 3600000 + m * 60000 + s * 1000 <= ms < h * 3600000 + m * 60000 + s * 1000 + 1000 /\
    formatDuration ms =
      (if 0 <? h then (pretty h ++ "h " ++ pretty m ++ "m")%string
       else if 0 <? m then (pretty m ++ "m")%string
       else (pretty s ++ "s")%string).
Proof.
  intros Hms.
  set (seconds := ms / 1000). set (minutes := seconds / 60). set (hours := minutes / 60).
  assert (Hs : 0 <= seconds) by (apply Z.div_pos; lia).
  assert (Hmin : 0 <= minutes) by (apply Z.div_pos; lia).
  assert (Hh : 0 <= hours) by (apply Z.div_pos; lia).
  pose proof (Z.div_mod ms 1000 ltac:(lia)) as Hd1.
  pose proof (Z.mod_pos_bound ms 1000 ltac:(lia)) as Hb1.
  pose proof (Z.div_mod seconds 60 ltac:(lia)) as Hd2.
  pose proof (Z.mod_pos_bound seconds 60 ltac:(lia)) as Hb2.
  pose proof (Z.div_mod minutes 60 ltac:(lia)) as Hd3.
  pose proof (Z.mod_pos_bound minutes 60 ltac:(lia)) as Hb3.
  fold seconds in Hd1. fold minutes in Hd2. fold hours in Hd3.
  exists hours, (minutes mod 60), (seconds mod 60).
  split; [exact Hh|]. split; [lia|]. split; [lia|]. split; [lia|].
  unfold formatDuration. fold seconds. fold minutes. fold hours.
  rewrite (Z.rem_mod_nonneg minutes 60) by lia.
  destruct (0 <? hours) eqn:Hhours; [reflexivity|].
  apply Z.ltb_ge in Hhours.
  assert (hours = 0) by lia.
  assert (Hm60 : minutes mod 60 = minutes) by lia.
  rewrite Hm60.
  destruct (0 <? minutes) eqn:Hminutes; [reflexivity|].
  apply Z.ltb_ge in Hminutes.
  assert (minutes = 0) by lia.
  assert (Hs60 : seconds mod 60 = seconds) by lia.
  rewrite Hs60. reflexivity.
Qed.

Lemma formatDuration_splits_the_duration_witness :
  exists h m s,
    0 <= h /\ 0 <= m < 60 /\ 0 <= s < 60 /\
    h * 3600000 + m * 60000 + s * 1000 <= 5400000
      < h * 3600000 + m * 60000 + s * 1000 + 1000 /\
    formatDuration 5400000 =
      (if 0 <? h then (pretty h ++ "h " ++ pretty m ++ "m")%string
       else if 0 <? m then (pretty m ++ "m")%string
       else (pretty s ++ "s")%string).
Proof.
  apply (formatDuration_splits_the_duration 5400000). lia.
Defined.

(** ** More about [services/ClaudeDataService.ts] *)

(** X10.  [loadMetrics] only reads, and it reports two things as an error.
    One is a missing data directory: then the snapshot is the empty one with
    that message.  The other is a stats cache over which
    [populateFromStatsCache] throws: then the snapshot is not available and
    carries the message of what was thrown.  In every other case the snapshot
    is marked available and carries no error, whatever is missing: without a
    stats cache that parses all counters are zero, without stored OAuth
    credentials the subscription and the tier stay ['unknown']. *)
Theorem loadMetrics_tolerates_missing_files (w : World) :
  let metrics := fst (loadMetricsValue w) in
  loadMetrics w = (length (heap w), setHeap (heap w ++ [metrics]) w) /\
  (dataDirExists w = false ->
     metrics =
       UsageMetrics.setError (Some DIRECTORY_NOT_FOUND) (createEmptyMetrics (now w))) /\
  (dataDirExists w = true ->
     match statsCacheThrows w with
     | Some message =>
         UsageMetrics.dataAvailable metrics = false /\
         UsageMetrics.error metrics = Some ("Error loading metrics: " ++ message)%string
     | None =>
         UsageMetrics.dataAvailable metrics = true /\
         UsageMetrics.error metrics = None /\
         UsageMetrics.lastUpdated metrics = now w /\
         ((forall stats, statsFile w <> Parsed stats) -> countersZero metrics) /\
         (fst (getCredentials w) = None ->
            UsageMetrics.subscriptionType metrics = "unknown" /\
            UsageMetrics.rateLimitTier metrics = "unknown")
     end).
Proof.
  cbv zeta. split; [|split].
  - unfold loadMetrics, bind.
    pose proof (loadMetricsValue_world w) as Hw.
    destruct (loadMetricsValue w) as [m w']. cbn [fst snd] in *. subst w'. reflexivity.
  - apply loadMetricsValue_no_directory.
  - intros Hdir.
    unfold statsCacheThrows, loadMetricsValue, loadStatsCache, loadCredentials,
      getTodayDateString, getCredentials, bind, ret, dateNow.
    rewrite Hdir. cbn [negb fst].
    destruct (statsFile w) as [| |stats]; cbv beta iota zeta;
      try destruct (populateThrows stats); cbv beta iota zeta; cbn [fst];
      try (split; reflexivity);
      destruct (credFile w) as [| |file]; cbv beta iota zeta; cbn [fst];
      try destruct (CredentialsFile.claudeAiOauth file);
      (split; [reflexivity|]; split; [reflexivity|]; split; [reflexivity|]; split;
       [intros Hnone; first [exfalso; eapply Hnone; reflexivity | repeat split]
       |intros Hcreds; first [discriminate Hcreds | split; reflexivity]]).
Qed.

(** The map [getTotalTokensByModel] fills, as a map over [modelUsage]. *)
Lemma getTotalTokensByModel_fmap (metrics : UsageMetrics.t) :
  getTotalTokensByModel metrics =
    (fun usage => orZero (ModelUsage.inputTokens usage) +
                  orZero (ModelUsage.outputTokens usage)) <$>
    UsageMetrics.modelUsage metrics.
Proof.
  unfold getTotalTokensByModel.
  apply (map_fold_weak_ind (fun r m => r = _ <$> m)).
  - rewrite fmap_empty. reflexivity.
  - intros i x m r _ ->. cbv zeta. rewrite fmap_insert. reflexivity.
Qed.

Lemma map_fold_sum_insert {A} (g : A -> Z) (start : Z) (i : string) (x : A)
    (m : gmap string A) :
  m !! i = None ->
  map_fold (fun _ u acc => acc + g u) start (<[i := x]> m) =
  map_fold (fun _ u acc => acc + g u) start m + g x.
Proof.
  intros Hi. apply (map_fold_insert_L (fun _ u acc => acc + g u)); [|exact Hi].
  intros. lia.
Qed.

Lemma map_fold_sum_split {A} (f g : A -> Z) (m : gmap string A) :
  map_fold (fun _ u acc => acc + (f u + g u)) 0 m =
  map_fold (fun _ u acc => acc + f u) 0 m + map_fold (fun _ u acc => acc + g u) 0 m.
Proof.
  induction m as [|i x m Hi IH] using map_ind.
  - rewrite !map_fold_empty. reflexivity.
  - rewrite !map_fold_sum_insert by exact Hi. rewrite IH. lia.
Qed.

Lemma sumValues_fmap {A} (f : A -> Z) (m : gmap string A) :
  sumValues (f <$> m) = map_fold (fun _ u acc => acc + f u) 0 m.
Proof. unfold sumValues. rewrite map_fold_fmap. reflexivity. Qed.

(** X11.  [getTotalTokensByModel] has one entry for each model of the
    snapshot, its input plus its output tokens (a missing count is zero), and
    on a snapshot that [loadMetrics] made the entries add up to
    [totalInputTokens + totalOutputTokens]: the cache tokens are in neither. *)
Theorem getTotalTokensByModel_adds_up_to_the_totals (w : World) (modelName : string) :
  let metrics := fst (loadMetricsValue w) in
  getTotalTokensByModel metrics !! modelName =
    ((fun usage => orZero (ModelUsage.inputTokens usage) +
                   orZero (ModelUsage.outputTokens usage)) <$>
     UsageMetrics.modelUsage metrics !! modelName) /\
  sumValues (getTotalTokensByModel metrics) =
    UsageMetrics.totalInputTokens metrics + UsageMetrics.totalOutputTokens metrics.
Proof.
  cbv zeta. rewrite getTotalTokensByModel_fmap, lookup_fmap. split; [reflexivity|].
  rewrite sumValues_fmap, map_fold_sum_split.
  unfold loadMetricsValue, loadStatsCache, loadCredentials, getTodayDateString,
    bind, ret, dateNow.
  destruct (dataDirExists w); cbn [negb fst]; [|reflexivity].
  destruct (statsFile w) as [| |stats]; cbv beta iota zeta;
    try destruct (populateThrows stats); cbv beta iota zeta; cbn [fst];
    try reflexivity;
    destruct (credFile w) as [| |file]; cbv beta iota zeta; cbn [fst];
    try destruct (CredentialsFile.claudeAiOauth file); reflexivity.
Qed.

Lemma sortInsert_Permutation {A} (compare : A -> A -> Z) (x : A) (l : list A) :
  sortInsert compare x l ≡ₚ x :: l.
Proof.
  induction l as [|y l IH]; [reflexivity|].
  cbn [sortInsert]. destruct (0 <? compare x y); [|reflexivity].
  rewrite IH. apply Permutation_swap.
Qed.

Lemma jsSort_Permutation {A} (compare : A -> A -> Z) (l : list A) :
  jsSort compare l ≡ₚ l.
Proof.
  induction l as [|x l IH]; [reflexivity|].
  unfold jsSort in *. cbn [fold_right]. rewrite sortInsert_Permutation, IH. reflexivity.
Qed.

Lemma sortInsert_by_count (x : HourCount.t) (l : list HourCount.t) :
  StronglySorted (fun a b => HourCount.count b <= HourCount.count a) l ->
  StronglySorted (fun a b => HourCount.count b <= HourCount.count a)
    (sortInsert (fun a b => HourCount.count b - HourCount.count a) x l).
Proof.
  induction 1 as [|y l Hl IH Hy]; cbn [sortInsert].
  - repeat constructor.
  - destruct (0 <? HourCount.count y - HourCount.count x) eqn:Hcmp.
    + apply Z.ltb_lt in Hcmp. constructor; [exact IH|].
      rewrite sortInsert_Permutation. constructor; [lia|exact Hy].
    + apply Z.ltb_ge in Hcmp. constructor; [constructor; assumption|].
      constructor; [lia|].
      eapply Forall_impl; [exact Hy|]. cbn. intros z Hz. lia.
Qed.

Lemma parseInt_hour (h : Z) : 0 <= h < 24 -> parseInt (pretty h) = Some h.
Proof.
  intros Hh. replace h with (Z.of_nat (Z.to_nat h)) by lia.
  assert (Hn : (Z.to_nat h < 24)%nat) by lia.
  generalize dependent (Z.to_nat h). intros n Hn.
  do 24 (destruct n as [|n]; [vm_compute; reflexivity|]). lia.
Qed.

(** X12.  [getPeakHours] lists every entry of the hour histogram once, with
    the count it has there, in the order of falling counts; the hour of an
    entry whose key is one of the numbers 0 to 23 in decimal is that
    number. *)
Theorem getPeakHours_lists_every_hour_by_falling_count (metrics : UsageMetrics.t) :
  let peaks := getPeakHours metrics in
  peaks ≡ₚ
    map (fun entry => HourCount.mk (parseInt (fst entry)) (snd entry))
      (map_to_list (UsageMetrics.hourlyDistribution metrics)) /\
  StronglySorted (fun a b => HourCount.count b <= HourCount.count a) peaks /\
  (forall h c,
     0 <= h < 24 ->
     UsageMetrics.hourlyDistribution metrics !! pretty h = Some c ->
     HourCount.mk (Some h) c ∈ peaks).
Proof.
  cbv zeta. unfold getPeakHours, getPeakHoursOf.
  split; [apply jsSort_Permutation|]. split.
  - generalize (map (fun entry : string * Z =>
                       HourCount.mk (parseInt (fst entry)) (snd entry))
                  (map_to_list (UsageMetrics.hourlyDistribution metrics))).
    intros l. induction l as [|x l IH]; [constructor|].
    unfold jsSort in *. cbn [fold_right]. apply sortInsert_by_count. exact IH.
  - intros h c Hh Hlookup. rewrite jsSort_Permutation.
    apply list_elem_of_fmap. exists (pretty h, c). cbn [fst snd].
    rewrite parseInt_hour by exact Hh. split; [reflexivity|].
    apply elem_of_map_to_list. exact Hlookup.
Qed.

(** ** The window of the weekly statistics *)

Lemma datesIncrease_adjacent (count : nat) :
  forall from day,
    datesIncrease from count = true ->
    from <= day < from + Z.of_nat count ->
    String.compare (isoDateOfDay day) (isoDateOfDay (day + 1)) = Lt.
Proof.
  induction count as [|k IH]; intros from day Hinc Hday; [lia|].
  cbn [datesIncrease] in Hinc. apply andb_prop in Hinc as [Hhere Hrest].
  destruct (Z.eq_dec day from) as [->|Hne].
  - unfold String.ltb in Hhere.
    destruct (String.compare (isoDateOfDay from) (isoDateOfDay (from + 1)));
      [discriminate Hhere|reflexivity|discriminate Hhere].
  - apply (IH (from + 1)); [exact Hrest|lia].
Qed.

Lemma dates_in_range_increase : datesIncrease FIRST_DAY (Z.to_nat (LAST_DAY - FIRST_DAY)) = true.
Proof. vm_compute. reflexivity. Qed.

Lemma isoDateOfDay_increasing (a b : Z) :
  FIRST_DAY <= a -> a < b -> b <= LAST_DAY ->
  String.compare (isoDateOfDay a) (isoDateOfDay b) = Lt.
Proof.
  intros Ha Hab Hb.
  replace b with (a + 1 + Z.of_nat (Z.to_nat (b - a - 1))) in * by lia.
  generalize dependent (Z.to_nat (b - a - 1)). intros n.
  induction n as [|n IH]; intros Hab Hb.
  - rewrite Z.add_0_r.
    apply (datesIncrease_adjacent _ _ _ dates_in_range_increase).
    unfold FIRST_DAY, LAST_DAY in *. lia.
  - apply OrderedTypeEx.String_as_OT.cmp_lt.
    apply OrderedTypeEx.String_as_OT.lt_trans with (y := isoDateOfDay (a + 1 + Z.of_nat n)).
    + apply OrderedTypeEx.String_as_OT.cmp_lt. apply IH; lia.
    + apply OrderedTypeEx.String_as_OT.cmp_lt.
      replace (a + 1 + Z.of_nat (S n)) with (a + 1 + Z.of_nat n + 1) by lia.
      apply (datesIncrease_adjacent _ _ _ dates_in_range_increase).
      unfold FIRST_DAY, LAST_DAY in *. lia.
Qed.

Lemma strGe_isoDateOfDay (a b : Z) :
  FIRST_DAY <= a <= LAST_DAY -> FIRST_DAY <= b <= LAST_DAY ->
  strGe (isoDateOfDay a) (isoDateOfDay b) = (b <=? a).
Proof.
  intros Ha Hb. unfold strGe, String.leb.
  destruct (Z.lt_trichotomy b a) as [Hlt|[->|Hgt]].
  - rewrite (isoDateOfDay_increasing b a) by lia.
    symmetry. apply Z.leb_le. lia.
  - assert (Hrefl : String.compare (isoDateOfDay a) (isoDateOfDay a) = Eq).
    { pose proof (String.compare_antisym (isoDateOfDay a) (isoDateOfDay a)) as H.
      destruct (String.compare (isoDateOfDay a) (isoDateOfDay a)); cbn in H; congruence. }
    rewrite Hrefl. symmetry. apply Z.leb_le. lia.
  - rewrite String.compare_antisym, (isoDateOfDay_increasing a b) by lia.
    cbn. symmetry. apply Z.leb_gt. lia.
Qed.

Lemma setDateMinusIn_same_offset (zone : TimeZone.t) (ms days : Z) :
  TimeZone.offsetOfLocal zone (ms + TimeZone.offsetAt zone ms - days * MS_PER_DAY) =
    TimeZone.offsetAt zone ms ->
  setDateMinusIn zone ms days = setDateMinus ms days.
Proof. unfold setDateMinusIn, setDateMinus. cbv zeta. intros ->. lia. Qed.

(** X22.  [getWeeklyStats] adds up the entries whose date is not before the
    UTC date of the instant a week ago, which is the same time on the wall
    seven calendar days earlier.  For dates from 2020-01-01 to 2050-01-01 an
    entry counts exactly when its day is not before that day.  Where the zone
    is as far from UTC a week ago as now, that day is seven days before today
    in UTC: the window is today, the seven days before it and any later day.
    [getWeeklyMessages] of the status bar is the same sum of messages. *)
Theorem weekly_window_reaches_back_seven_days (zone : TimeZone.t) (nowMs : Z)
    (metrics : UsageMetrics.t) :
  let weekAgo := setDateMinusIn zone nowMs 7 in
  FIRST_DAY <= utcDay weekAgo <= LAST_DAY ->
  let inWindow (date : string) := strGe date (toISODate weekAgo) in
  (forall day,
     FIRST_DAY <= day <= LAST_DAY ->
     inWindow (isoDateOfDay day) = (utcDay weekAgo <=? day)) /\
  getWeeklyStatsIn zone nowMs metrics =
    WeeklyStats.mk
      (fold_right Z.add 0
         (map (fun a => orZero (DailyActivity.messageCount a))
            (List.filter (fun a => inWindow (DailyActivity.date a))
               (UsageMetrics.dailyActivity metrics))))
      (fold_right Z.add 0
         (map (fun d => sumValues (orEmptyMap (DailyModelTokens.tokensByModel d)))
            (List.filter (fun d => inWindow (DailyModelTokens.date d))
               (UsageMetrics.dailyModelTokens metrics))))
      (fold_right Z.add 0
         (map (fun a => orZero (DailyActivity.sessionCount a))
            (List.filter (fun a => inWindow (DailyActivity.date a))
               (UsageMetrics.dailyActivity metrics)))) /\
  getWeeklyMessagesIn zone nowMs metrics =
    WeeklyStats.messages (getWeeklyStatsIn zone nowMs metrics) /\
  (TimeZone.offsetOfLocal zone (nowMs + TimeZone.offsetAt zone nowMs - 7 * MS_PER_DAY) =
     TimeZone.offsetAt zone nowMs ->
   utcDay weekAgo = utcDay nowMs - 7 /\
   getWeeklyStatsIn zone nowMs metrics = getWeeklyStats nowMs metrics /\
   getWeeklyMessagesIn zone nowMs metrics = getWeeklyMessages nowMs metrics).
Proof.
  intros weekAgo Hweek inWindow. subst inWindow.
  split; [|split; [|split]].
  - intros day Hday. unfold toISODate. apply strGe_isoDateOfDay; lia.
  - unfold getWeeklyStatsIn. fold weekAgo. cbv zeta.
    rewrite !(fold_left_conditional_sum _ _ _ 0). reflexivity.
  - reflexivity.
  - intros Hsame. subst weekAgo.
    unfold getWeeklyStatsIn, getWeeklyStats, getWeeklyMessagesIn, getWeeklyMessages.
    rewrite (setDateMinusIn_same_offset zone nowMs 7 Hsame).
    split; [|split; reflexivity].
    unfold setDateMinus, utcDay, MS_PER_DAY.
    replace (nowMs - 7 * 86400000) with (nowMs + (-7) * 86400000) by lia.
    rewrite Z.div_add by lia. lia.
Qed.

(** In New York at 2024-03-13T23:30Z, three days after the clocks went
    forward: a week ago on the wall is 2024-03-07 at 00:30 in UTC, so the
    window starts six days before today's date in UTC, 2024-03-13. *)
Lemma weekly_window_reaches_back_seven_days_witness :
  toISODate (setDateMinusIn newYork2024 1710372600000 7) = "2024-03-07" /\
  strGe (isoDateOfDay 19788) (toISODate (setDateMinusIn newYork2024 1710372600000 7)) =
    (utcDay (setDateMinusIn newYork2024 1710372600000 7) <=? 19788).
Proof.
  split; [reflexivity|].
  apply (weekly_window_reaches_back_seven_days newYork2024 1710372600000 tenDaySnapshot).
  - vm_compute. split; discriminate.
  - vm_compute. split; discriminate.
Defined.

(** ** More about [services/FileWatcher.ts] *)

Section DebounceSpacing.
Import FileWatcher.

Lemma StronglySorted_snoc {A} (R : A -> A -> Prop) (l : list A) (x : A) :
  StronglySorted R l -> Forall (fun a => R a x) l -> StronglySorted R (l ++ [x]).
Proof.
  induction 1 as [|a l Hl IH Ha]; intros Hx; cbn.
  - repeat constructor.
  - inversion Hx as [|? ? Hax Hlx]; subst.
    constructor; [apply IH; exact Hlx|].
    apply Forall_app. split; [exact Ha|]. constructor; [exact Hax|constructor].
Qed.

Lemma step_spaced (s : Loop) (i : Input) : spaced s -> spaced (step s i).
Proof.
  intros (Htidy & Hpast & Hdue & Hsorted).
  split; [apply step_tidy; exact Htidy|].
  destruct i as [dirExists watchOk| |sameFile| |ms]; cbn [step].
  - unfold start. destruct (isWatching (fw s)); [auto|].
    destruct dirExists; cbn [negb]; [|auto]. destruct watchOk; auto.
  - destruct (stop_quiet s Htidy) as [(_ & _ & Ht) Hf].
    rewrite Ht. unfold stop in *. cbn [clock fired] in *. auto.
  - destruct (watcher (fw s) && sameFile); [|auto].
    unfold handleFileChange. cbn [clock fired timers].
    split; [exact Hpast|]. split; [|exact Hsorted].
    apply Forall_app. split.
    + destruct (debounceTimer (fw s)) as [h|]; [|exact Hdue].
      unfold clearTimeout. apply List.Forall_forall. intros p Hp.
      apply filter_In in Hp as [Hp _]. revert p Hp. apply List.Forall_forall. exact Hdue.
    + constructor; [|constructor]. cbn [snd].
      eapply Forall_impl; [exact Hpast|]. cbn. intros f Hf. lia.
  - destruct (watcher (fw s)); [|auto].
    destruct (stop_quiet s Htidy) as [(_ & _ & Ht) Hf].
    rewrite Ht. unfold stop in *. cbn [clock fired] in *. auto.
  - unfold tidy in Htidy. unfold elapse.
    assert (Hclock : clock s <= clock s + Z.max 0 ms) by lia.
    assert (Hpast' : Forall (fun f => f <= clock s + Z.max 0 ms) (fired s)).
    { eapply Forall_impl; [exact Hpast|]. cbn. intros f Hf. lia. }
    destruct (debounceTimer (fw s)) as [h|].
    + destruct Htidy as [due Ht]. rewrite Ht in *. cbn [List.filter snd].
      inversion Hdue as [|? ? Hlast _]; subst. cbn [snd] in Hlast.
      destruct (due <=? clock s + Z.max 0 ms) eqn:Hle; cbn [negb fold_left].
      * apply Z.leb_le in Hle. unfold onDebounce. cbn [clock fired timers snd].
        split; [apply Forall_app; split; [exact Hpast'|repeat constructor; exact Hle]|].
        split; [constructor|].
        apply StronglySorted_snoc; assumption.
      * cbn [clock fired timers]. split; [exact Hpast'|]. split; [exact Hdue|exact Hsorted].
    + rewrite Htidy. cbn [List.filter fold_left clock fired timers].
      split; [exact Hpast'|]. split; [constructor|exact Hsorted].
Qed.

Lemma run_spaced (inputs : list Input) (s : Loop) : spaced s -> spaced (run inputs s).
Proof.
  revert s. induction inputs as [|i inputs IH]; intros s Hs; [exact Hs|].
  rewrite run_cons. apply IH, step_spaced, Hs.
Qed.

Lemma initial_spaced (t0 : Z) : spaced (initial t0).
Proof.
  split; [apply initial_tidy|]. cbn. repeat split; constructor.
Qed.
End DebounceSpacing.

(** X13.  Whatever is done to a new watcher (calls of [start] and [stop],
    file system events, watcher errors, time passing), any two signals it
    gives are at least 500 ms apart, and at no time is more than one
    debounce timer pending. *)
Theorem signals_are_a_debounce_window_apart (t0 : Z) (inputs : list FileWatcher.Input) :
  let s := FileWatcher.run inputs (FileWatcher.initial t0) in
  StronglySorted (fun a b => a + 500 <= b) (FileWatcher.fired s) /\
  (length (FileWatcher.timers s) <= 1)%nat.
Proof.
  cbv zeta.
  destruct (run_spaced inputs _ (initial_spaced t0)) as (Htidy & _ & _ & Hsorted).
  split; [exact Hsorted|].
  unfold tidy in Htidy.
  destruct (FileWatcher.debounceTimer _); [destruct Htidy as [due ->]|rewrite Htidy];
    cbn; lia.
Qed.

Section WatcherLifecycle.
Import FileWatcher.

Lemma start_fails_quiet (s : Loop) (i : Input) :
  quiet s -> isWatching (fw s) = false -> startFails i = true ->
  quiet (step s i) /\ isWatching (fw (step s i)) = false /\ fired (step s i) = fired s.
Proof.
  intros Hq Hnot Hi. pose proof Hq as (Hw & Hd & Ht).
  destruct i as [dirExists watchOk| |sameFile| |ms]; cbn [step].
  - unfold start. rewrite Hnot. cbn [startFails] in Hi.
    destruct dirExists; cbn [negb andb] in *; [|auto].
    destruct watchOk; [discriminate Hi|auto].
  - destruct (stop_quiet s) as [Hq' Hf']; [unfold tidy; rewrite Hd; exact Ht|].
    split; [exact Hq'|]. split; [reflexivity|exact Hf'].
  - rewrite Hw. cbn. auto.
  - rewrite Hw. auto.
  - unfold elapse, quiet. rewrite Ht. cbn. auto.
Qed.
End WatcherLifecycle.

(** X14.  A watcher that was never started with success (the directory was
    missing, or [fs.watch] threw, each time [start] was called) never gives a
    signal, whatever events arrive and however much time passes. *)
Theorem watcher_that_never_started_never_fires (t0 : Z)
    (inputs : list FileWatcher.Input) :
  forallb startFails inputs = true ->
  let s := FileWatcher.run inputs (FileWatcher.initial t0) in
  FileWatcher.fired s = [] /\
  FileWatcher.isWatching (FileWatcher.fw s) = false /\
  FileWatcher.timers s = [].
Proof.
  intros Hfails. cbv zeta.
  assert (Hgen : forall s,
            quiet s -> FileWatcher.isWatching (FileWatcher.fw s) = false ->
            let s' := FileWatcher.run inputs s in
            FileWatcher.fired s' = FileWatcher.fired s /\
            FileWatcher.isWatching (FileWatcher.fw s') = false /\
            FileWatcher.timers s' = []).
  { induction inputs as [|i inputs IH]; intros s Hq Hnot; cbv zeta.
    - destruct Hq as (_ & _ & Ht). auto.
    - cbn [forallb] in Hfails. apply andb_prop in Hfails as [Hi Hrest].
      rewrite run_cons.
      destruct (start_fails_quiet s i Hq Hnot Hi) as (Hq' & Hnot' & Hf').
      destruct (IH Hrest _ Hq' Hnot') as (Hf & Hw & Ht).
      rewrite Hf, Hf'. auto. }
  apply (Hgen (FileWatcher.initial t0)); [|reflexivity].
  repeat split.
Qed.

Lemma watcher_that_never_started_never_fires_witness :
  let s :=
    FileWatcher.run
      [FileWatcher.Start false true; FileWatcher.FsEvent true; FileWatcher.Elapse 1000]
      (FileWatcher.initial 0) in
  FileWatcher.fired s = [] /\
  FileWatcher.isWatching (FileWatcher.fw s) = false /\
  FileWatcher.timers s = [].
Proof.
  apply (watcher_that_never_started_never_fires 0
           [FileWatcher.Start false true; FileWatcher.FsEvent true; FileWatcher.Elapse 1000]).
  reflexivity.
Defined.

(** X15.  [start] and [stop] may be repeated: a second call changes nothing.
    And a watcher that was stopped can be started again: after [stop] and a
    [start] that succeeds, whatever went before, a burst of events gives one
    signal, 500 ms after its last event. *)
Theorem watcher_can_be_restarted (t0 : Z) (history : list FileWatcher.Input)
    (gaps : list Z) (wait : Z) :
  Forall (fun g => 0 <= g < FileWatcher.debounceMs) gaps ->
  FileWatcher.debounceMs <= wait ->
  let s :=
    FileWatcher.run (history ++ [FileWatcher.Stop; FileWatcher.Start true true])
      (FileWatcher.initial t0) in
  FileWatcher.fired
    (FileWatcher.run (FileWatcher.burst gaps ++ [FileWatcher.Elapse wait]) s) =
    FileWatcher.fired s ++
      [FileWatcher.clock s + fold_right Z.add 0 gaps + FileWatcher.debounceMs] /\
  (forall s0 dirExists watchOk,
     FileWatcher.start dirExists watchOk (FileWatcher.start dirExists watchOk s0) =
     FileWatcher.start dirExists watchOk s0) /\
  (forall s0, FileWatcher.stop (FileWatcher.stop s0) = FileWatcher.stop s0).
Proof.
  intros Hgaps Hwait. cbv zeta. split; [|split].
  - rewrite (run_app history). rewrite run_cons, run_cons, run_nil.
    set (h := FileWatcher.run history (FileWatcher.initial t0)).
    assert (Hh : tidy h) by (apply run_tidy, initial_tidy).
    destruct (stop_quiet h Hh) as [(Hw & Hd & Ht) _].
    cbn [FileWatcher.step].
    set (s := FileWatcher.start true true (FileWatcher.stop h)).
    assert (Hs : FileWatcher.watcher (FileWatcher.fw s) = true /\ tidy s).
    { unfold s, FileWatcher.start. cbn [FileWatcher.stop FileWatcher.fw FileWatcher.isWatching negb].
      cbn [FileWatcher.watcher]. split; [reflexivity|].
      unfold tidy. cbn [FileWatcher.fw FileWatcher.debounceTimer FileWatcher.timers].
      exact Ht. }
    destruct Hs as [Hws Hts].
    rewrite run_app, run_cons, run_nil. cbn [FileWatcher.step].
    destruct (burst_armed gaps s Hws Hts Hgaps) as (Ha & Hc & Hf).
    rewrite (armed_fires _ wait Ha Hwait), Hc, Hf. reflexivity.
  - intros s0 dirExists watchOk. unfold FileWatcher.start.
    destruct (FileWatcher.isWatching (FileWatcher.fw s0)) eqn:Hw0; [rewrite Hw0; reflexivity|].
    destruct dirExists; cbn [negb]; [|rewrite Hw0; reflexivity].
    destruct watchOk; [reflexivity|rewrite Hw0; reflexivity].
  - intros s0. unfold FileWatcher.stop. reflexivity.
Qed.

Lemma watcher_can_be_restarted_witness :
  let s :=
    FileWatcher.run
      ([FileWatcher.Start true true; FileWatcher.FsEvent true] ++
       [FileWatcher.Stop; FileWatcher.Start true true])
      (FileWatcher.initial 0) in
  FileWatcher.fired
    (FileWatcher.run (FileWatcher.burst [100; 200] ++ [FileWatcher.Elapse 500]) s) =
    FileWatcher.fired s ++
      [FileWatcher.clock s + fold_right Z.add 0 [100; 200] + FileWatcher.debounceMs].
Proof.
  apply (watcher_can_be_restarted 0 [FileWatcher.Start true true; FileWatcher.FsEvent true]
           [100; 200] 500).
  - repeat constructor; unfold FileWatcher.debounceMs; lia.
  - unfold FileWatcher.debounceMs; lia.
Defined.

(** ** More about [services/RefreshManager.ts] *)

Section Triggers.
Import RefreshManager.

Lemma clampInterval_bounds (intervalMs : Z) :
  MIN_INTERVAL_MS <= clampInterval intervalMs <= MAX_INTERVAL_MS.
Proof. unfold clampInterval, MIN_INTERVAL_MS, MAX_INTERVAL_MS. lia. Qed.

Lemma setMode_triggers (config : Config.t) (w : World) (mode : RefreshModeType) (m : t) :
  triggersMatchMode m \/ isDisposed m = false ->
  triggersMatchMode (setMode config w mode m) /\
  (isDisposed m = false -> currentMode (setMode config w mode m) = mode).
Proof.
  intros Hm. unfold setMode.
  destruct (isDisposed m) eqn:Hd.
  - destruct Hm as [Hm|Hm]; [|discriminate Hm]. split; [exact Hm|intros H; discriminate H].
  - split; [|intros _; destruct mode; reflexivity].
    unfold triggersMatchMode.
    destruct mode; cbn; rewrite Hd; cbn.
    + split; [eauto|]. eexists. split; [reflexivity|apply clampInterval_bounds].
    + split; [reflexivity|]. eexists. split; [reflexivity|apply clampInterval_bounds].
    + auto.
Qed.

Lemma dispose_triggers (m : t) : triggersMatchMode (dispose m).
Proof. unfold triggersMatchMode, dispose. cbn. auto. Qed.

(** [refresh()] touches neither the mode nor the triggers. *)
Lemma refreshEnter_keeps_triggers (c : nat) (s : System) :
  let m' := mgr (refreshEnter c s) in
  fileWatcher m' = fileWatcher (mgr s) /\ periodicTimer m' = periodicTimer (mgr s) /\
  currentMode m' = currentMode (mgr s) /\ isDisposed m' = isDisposed (mgr s).
Proof.
  cbv zeta. unfold refreshEnter.
  destruct (isDisposed (mgr s)) eqn:Hd.
  - match goal with |- context [match ?x with pair _ _ => _ end] => destruct x end.
    cbn. auto.
  - destruct (isRefreshing (mgr s)).
    + match goal with |- context [match ?x with pair _ _ => _ end] => destruct x end.
      cbn. auto.
    + match goal with |- context [match ?x with pair _ _ => _ end] => destruct x end.
      cbn. auto.
Qed.

Lemma refreshResume_keeps_triggers (c : nat) (s : System) :
  let m' := mgr (refreshResume c s) in
  fileWatcher m' = fileWatcher (mgr s) /\ periodicTimer m' = periodicTimer (mgr s) /\
  currentMode m' = currentMode (mgr s) /\ isDisposed m' = isDisposed (mgr s).
Proof.
  cbv zeta. unfold refreshResume.
  destruct (findPending c (pending s)) as [[|l]|].
  - match goal with |- context [match ?x with pair _ _ => _ end] => destruct x end.
    cbn. auto.
  - match goal with |- context [match ?x with pair _ _ => _ end] => destruct x end.
    cbn. auto.
  - auto.
Qed.

Lemma triggersMatchMode_ext (m m' : t) :
  fileWatcher m' = fileWatcher m -> periodicTimer m' = periodicTimer m ->
  currentMode m' = currentMode m -> isDisposed m' = isDisposed m ->
  triggersMatchMode m -> triggersMatchMode m'.
Proof. unfold triggersMatchMode. intros -> -> -> ->. auto. Qed.

Lemma step_triggers (s : System) (a : Action) :
  triggersMatchMode (mgr s) -> triggersMatchMode (mgr (step s a)).
Proof.
  intros Hm. destruct a as [c|c|config mode|]; cbn [step mgr].
  - destruct (refreshEnter_keeps_triggers c s) as (H1 & H2 & H3 & H4).
    eapply triggersMatchMode_ext; eauto.
  - destruct (refreshResume_keeps_triggers c s) as (H1 & H2 & H3 & H4).
    eapply triggersMatchMode_ext; eauto.
  - apply setMode_triggers. auto.
  - apply dispose_triggers.
Qed.

Lemma run_triggers (actions : list Action) (s : System) :
  triggersMatchMode (mgr s) -> triggersMatchMode (mgr (run actions s)).
Proof.
  revert s. induction actions as [|a actions IH]; intros s Hs; [exact Hs|].
  cbn. apply IH, step_triggers, Hs.
Qed.
End Triggers.

(** X16.  From [initialize()] on, whatever calls follow, the manager holds the
    trigger objects of the current mode and no other: a [FileWatcher] and an
    interval timer in realtime mode, an interval timer alone in periodic mode,
    neither in manual mode, and neither once the manager is disposed; the
    period of the timer always lies between 3 and 300 seconds.  The
    [FileWatcher] it holds need not be watching: the one that
    [setMode('realtime')] installs is the one [start()] leaves, which watches
    exactly when the data directory exists and [fs.watch] does not throw.  A
    [setMode] on a manager that is not disposed leaves it in the mode asked
    for. *)
Theorem triggers_always_match_the_mode (w : World) (config : Config.t) (caller : nat)
    (history : list RefreshManager.Action) (next : Config.t) (mode : RefreshModeType) :
  let s :=
    RefreshManager.run history
      (RefreshManager.initialize config caller (RefreshManager.boot w)) in
  triggersMatchMode (RefreshManager.mgr s) /\
  (RefreshManager.isDisposed (RefreshManager.mgr s) = false ->
   RefreshManager.getMode
     (RefreshManager.mgr (RefreshManager.step s (RefreshManager.SetMode next mode))) = mode /\
   RefreshManager.fileWatcher
     (RefreshManager.mgr (RefreshManager.step s (RefreshManager.SetMode next realtime))) =
     Some (RefreshManager.startedWatcher (RefreshManager.world s)) /\
   FileWatcher.isWatching (RefreshManager.startedWatcher (RefreshManager.world s)) =
     dataDirExists (RefreshManager.world s) && watchAvailable (RefreshManager.world s) /\
   FileWatcher.watcher (RefreshManager.startedWatcher (RefreshManager.world s)) =
     dataDirExists (RefreshManager.world s) && watchAvailable (RefreshManager.world s)).
Proof.
  cbv zeta. split.
  - apply run_triggers. unfold RefreshManager.initialize, RefreshManager.applyConfiguration.
    apply step_triggers.
    cbn [RefreshManager.step RefreshManager.mgr]. apply setMode_triggers. right. reflexivity.
  - intros Hd. split; [|split; [|split]].
    + cbn [RefreshManager.step RefreshManager.mgr]. unfold RefreshManager.getMode.
      apply setMode_triggers; [right; exact Hd|exact Hd].
    + cbn [RefreshManager.step RefreshManager.mgr]. unfold RefreshManager.setMode.
      rewrite Hd. reflexivity.
    + unfold RefreshManager.startedWatcher.
      destruct (dataDirExists _ && watchAvailable _); reflexivity.
    + unfold RefreshManager.startedWatcher.
      destruct (dataDirExists _ && watchAvailable _); reflexivity.
Qed.

(** In realtime mode with the data directory missing the manager holds a
    [FileWatcher] that watches nothing. *)
Example realtime_without_directory :
  let s :=
    RefreshManager.initialize (Config.mk realtime 30 5) 1
      (RefreshManager.boot noDirectoryWorld) in
  RefreshManager.getMode (RefreshManager.mgr s) = realtime /\
  RefreshManager.fileWatcher (RefreshManager.mgr s) = Some (FileWatcher.mk false None false).
Proof. split; reflexivity. Qed.

Lemma loadMetricsValue_reads (w w' : World) :
  noInputOutput w w' -> fst (loadMetricsValue w') = fst (loadMetricsValue w).
Proof.
  intros (Hnow & Hdir & Hstats & Hcred & _).
  destruct w as [t0 d0 sf0 cf0 cw0 ct0 wa0 ua0 uc0 ta0 tc0 rd0 rc0 h0 tr0].
  destruct w' as [t1 d1 sf1 cf1 cw1 ct1 wa1 ua1 uc1 ta1 tc1 rd1 rc1 h1 tr1].
  cbn in Hnow, Hdir, Hstats, Hcred. subst.
  unfold loadMetricsValue, loadStatsCache, loadCredentials, getTodayDateString,
    bind, ret, dateNow.
  cbv beta iota zeta delta [now dataDirExists statsFile credFile].
  destruct d0; cbv beta iota zeta delta [negb fst]; [|reflexivity].
  destruct sf0 as [| |stats]; cbv beta iota zeta;
    try destruct (populateThrows stats); cbv beta iota zeta;
    try reflexivity; destruct cf0; reflexivity.
Qed.

Lemma mergeQuota_touches_quota_only (r : QuotaResult.t) (m : UsageMetrics.t) :
  UsageMetrics.quota m = None -> UsageMetrics.quotaError m = None ->
  UsageMetrics.setQuota None
    (UsageMetrics.setQuotaError None (RefreshManager.mergeQuota r m)) = m.
Proof.
  intros Hq He. unfold RefreshManager.mergeQuota.
  destruct m. cbn in Hq, He. subst.
  destruct (QuotaResult.success r), (QuotaResult.data r); reflexivity.
Qed.

Section RefreshCycle.
Import RefreshManager.

Lemma refresh_cycle (s : System) (c : nat) :
  isDisposed (mgr s) = false ->
  isRefreshing (mgr s) = false ->
  pending s = [] ->
  let s1 := run [Refresh c; Resume c] s in
  let s2 := step s1 (Resume c) in
  let l := length (heap (world s)) in
  let loaded := fst (loadMetricsValue (world s)) in
  let quotaResult := fst (fetchQuota (world s1)) in
  mgr s2 = setLastMetrics (Some l) (mgr s) /\
  pending s2 = [] /\
  heap (world s2) = heap (world s) ++ [mergeQuota quotaResult loaded] /\
  exists net,
    forallb isNetworkEvent net = true /\
    trace (world s2) =
      trace (world s) ++ [EvRefreshStarted; EvLoadMetrics; EvFetchQuota] ++ net ++
        [EvMetricsUpdated l; EvResolved c l].
Proof.
  intros Hd Hr Hp. cbv zeta. cbn [run fold_left step].
  destruct (refreshEnter_idle s c Hd Hr) as (Hm0 & Hp0 & Hio0 & Hh0 & Ht0).
  set (s0 := refreshEnter c s) in *.
  rewrite Hp in Hp0. cbn [app] in Hp0.
  assert (Hf0 : findPending c (pending s0) = Some AwaitLoad)
    by (rewrite Hp0; apply findPending_single).
  destruct (refreshResume_load s0 c Hf0) as (Hm1 & Hp1 & Hio1 & Hh1 & Ht1).
  set (s1 := refreshResume c s0) in *.
  rewrite Hp0, setPending_single in Hp1. rewrite Hh0 in Hp1, Hh1.
  rewrite (loadMetricsValue_reads _ _ Hio0) in Hh1.
  set (loaded := fst (loadMetricsValue (world s))) in *.
  assert (Hf1 : findPending c (pending s1) = Some (AwaitFetch (length (heap (world s)))))
    by (rewrite Hp1; apply findPending_single).
  assert (Hl1 : heap (world s1) !! length (heap (world s)) = Some loaded)
    by (rewrite Hh1; apply list_lookup_middle; reflexivity).
  destruct (refreshResume_fetch s1 c _ loaded Hf1 Hl1) as (Hm2 & Hp2 & Hh2 & net & Hnet & Ht2).
  split; [|split; [|split]].
  - rewrite Hm2, Hm1, Hm0. destruct (mgr s). cbn in Hr. subst. reflexivity.
  - rewrite Hp2, Hp1, setPending_single. reflexivity.
  - rewrite Hh2, Hh1. rewrite insert_app_r_alt by lia.
    rewrite Nat.sub_diag. reflexivity.
  - exists net. split; [exact Hnet|].
    rewrite Ht2, Ht1, Ht0. rewrite <- !app_assoc. reflexivity.
Qed.
End RefreshCycle.

(** X17.  A [refresh()] on an idle manager that runs to its end publishes one
    new snapshot: what [loadMetrics] read, with either the quota or the quota
    error of [fetchQuota] merged in and nothing else changed, so that a
    failure of the quota source never costs the local data.  The events come
    in the order refresh-started, load, fetch, metrics-updated, resolution;
    afterwards the manager is idle again and holds the snapshot as the last
    one. *)
Theorem refresh_publishes_the_local_data_whatever_the_quota
    (s : RefreshManager.System) (c : nat) :
  RefreshManager.isDisposed (RefreshManager.mgr s) = false ->
  RefreshManager.isRefreshing (RefreshManager.mgr s) = false ->
  RefreshManager.pending s = [] ->
  let s1 := RefreshManager.run [RefreshManager.Refresh c; RefreshManager.Resume c] s in
  let s2 := RefreshManager.step s1 (RefreshManager.Resume c) in
  let l := length (heap (RefreshManager.world s)) in
  let loaded := fst (loadMetricsValue (RefreshManager.world s)) in
  let published :=
    RefreshManager.mergeQuota (fst (fetchQuota (RefreshManager.world s1))) loaded in
  RefreshManager.mgr s2 = RefreshManager.setLastMetrics (Some l) (RefreshManager.mgr s) /\
  RefreshManager.pending s2 = [] /\
  heap (RefreshManager.world s2) = heap (RefreshManager.world s) ++ [published] /\
  UsageMetrics.setQuota None (UsageMetrics.setQuotaError None published) = loaded /\
  exists net,
    forallb isNetworkEvent net = true /\
    trace (RefreshManager.world s2) =
      trace (RefreshManager.world s) ++ [EvRefreshStarted; EvLoadMetrics; EvFetchQuota] ++
        net ++ [EvMetricsUpdated l; EvResolved c l].
Proof.
  intros Hd Hr Hp. cbv zeta.
  destruct (refresh_cycle s c Hd Hr Hp) as (Hm & Hpend & Hheap & Htrace).
  split; [exact Hm|]. split; [exact Hpend|]. split; [exact Hheap|].
  split; [|exact Htrace].
  destruct (loadMetricsValue_fresh (RefreshManager.world s)) as (_ & Hq & He).
  apply mergeQuota_touches_quota_only; assumption.
Qed.

Lemma refresh_publishes_the_local_data_whatever_the_quota_witness :
  let s := RefreshManager.boot sampleWorld in
  let s1 := RefreshManager.run [RefreshManager.Refresh 1; RefreshManager.Resume 1] s in
  let s2 := RefreshManager.step s1 (RefreshManager.Resume 1) in
  let loaded := fst (loadMetricsValue (RefreshManager.world s)) in
  let published :=
    RefreshManager.mergeQuota (fst (fetchQuota (RefreshManager.world s1))) loaded in
  RefreshManager.mgr s2 =
    RefreshManager.setLastMetrics (Some (length (heap (RefreshManager.world s))))
      (RefreshManager.mgr s) /\
  RefreshManager.pending s2 = [] /\
  heap (RefreshManager.world s2) = heap (RefreshManager.world s) ++ [published] /\
  UsageMetrics.setQuota None (UsageMetrics.setQuotaError None published) = loaded.
Proof.
  pose proof (refresh_publishes_the_local_data_whatever_the_quota
                (RefreshManager.boot sampleWorld) 1 eq_refl eq_refl eq_refl)
    as (Hm & Hp & Hh & Hq & _).
  cbv zeta. split; [exact Hm|]. split; [exact Hp|]. split; [exact Hh|exact Hq].
Defined.

(** ** [utils/htmlEscape.ts] *)

Lemma charsOf_app (a b : string) : charsOf (a ++ b) = charsOf a ++ charsOf b.
Proof.
  unfold charsOf. induction a as [|c a IH]; [reflexivity|].
  change (String c a +:+ b) with (String c (a +:+ b)).
  cbn [list_ascii_of_string app]. f_equal. exact IH.
Qed.

Lemma string_length_append (a b : string) :
  String.length (a ++ b) = (String.length a + String.length b)%nat.
Proof.
  induction a as [|c a IH]; [reflexivity|].
  change (String c a +:+ b) with (String c (a +:+ b)).
  cbn [String.length]. rewrite IH. reflexivity.
Qed.

Lemma charsOf_cons (a : ascii) (s : string) : charsOf (String a s) = a :: charsOf s.
Proof. reflexivity. Qed.

(** The characters of the class are those the map has an entity for. *)
Lemma htmlSpecial_entity (c : ascii) :
  htmlSpecial c = true ->
  exists entity,
    mapLookup HTML_ESCAPE_MAP c = Some entity /\
    orString (Some entity) (String c EmptyString) = entity /\
    (2 <= String.length entity)%nat /\
    forall x, In x (charsOf entity) -> htmlSpecial x = true -> x = "&"%char.
Proof.
  unfold htmlSpecial. cbn [existsb]. intros Hc.
  repeat match type of Hc with
         | (Ascii.eqb c ?k || _)%bool = true =>
             let Hk := fresh "Hk" in
             destruct (Ascii.eqb c k) eqn:Hk;
               [apply Ascii.eqb_eq in Hk; subst c; clear Hc|cbn [orb] in Hc]
         end;
    try discriminate Hc;
    (eexists; split; [reflexivity|]; split; [reflexivity|]; split; [cbn; lia|];
     intros x Hx Hs; cbn in Hx;
     repeat (destruct Hx as [<-|Hx]; [first [reflexivity|discriminate Hs]|]);
     destruct Hx).
Qed.

Lemma replaceAllClass_chars (x : ascii) (s : string) :
  In x (charsOf
          (replaceAllClass htmlSpecial
             (fun char => orString (mapLookup HTML_ESCAPE_MAP char) (String char EmptyString))
             s)) ->
  htmlSpecial x = true -> x = "&"%char.
Proof.
  induction s as [|a s IH]; cbn [replaceAllClass]; [intros []|].
  destruct (htmlSpecial a) eqn:Ha.
  - destruct (htmlSpecial_entity a Ha) as (entity & -> & -> & _ & Hentity).
    rewrite charsOf_app. intros Hx Hs. apply in_app_or in Hx as [Hx|Hx]; auto.
  - rewrite charsOf_cons. intros [<-|Hx] Hs; [congruence|auto].
Qed.

(** X18.  The text [escapeHtml] returns holds none of the characters it
    escapes but the ampersand (which opens each entity): no angle bracket, no
    quote of either kind, no backtick, no equals sign and no slash, whatever
    the value was. *)
Theorem escapeHtml_leaves_no_special_character (str : EscapableValue) (c : ascii) :
  In c (charsOf (escapeHtml str)) ->
  htmlSpecial c = true ->
  c = "&"%char.
Proof.
  unfold escapeHtml, escapeAttr.
  destruct str; try apply replaceAllClass_chars; intros [].
Qed.

Lemma escapeHtml_leaves_no_special_character_witness :
  "&"%char = "&"%char.
Proof.
  apply (escapeHtml_leaves_no_special_character (EString "a<b & c") "&").
  - vm_compute. right. left. reflexivity.
  - reflexivity.
Defined.

Lemma replaceAllClass_length (s : string) :
  let out :=
    replaceAllClass htmlSpecial
      (fun char => orString (mapLookup HTML_ESCAPE_MAP char) (String char EmptyString)) s in
  (String.length s <= String.length out)%nat /\
  ((exists c, In c (charsOf s) /\ htmlSpecial c = true) ->
   (String.length s < String.length out)%nat).
Proof.
  cbv zeta. induction s as [|a s [IHle IHlt]]; cbn [replaceAllClass].
  - split; [reflexivity|]. intros (c & [] & _).
  - destruct (htmlSpecial a) eqn:Ha.
    + destruct (htmlSpecial_entity a Ha) as (entity & -> & -> & Hlen & _).
      rewrite string_length_append. cbn [String.length]. split; [lia|]. intros _. lia.
    + cbn [String.length]. split; [lia|].
      rewrite charsOf_cons. intros (c & [<-|Hc] & Hs); [congruence|].
      apply -> Nat.succ_lt_mono. apply IHlt. eauto.
Qed.

(** X19.  [escapeHtml] never shortens a text, and it returns a text as it is
    exactly when the text holds none of the eight characters it escapes. *)
Theorem escapeHtml_changes_only_unsafe_text (s : string) :
  (String.length s <= String.length (escapeHtml (EString s)))%nat /\
  (escapeHtml (EString s) = s <->
   forall c, In c (charsOf s) -> htmlSpecial c = false).
Proof.
  pose proof (replaceAllClass_length s) as [Hle Hlt]. cbv zeta in Hle, Hlt.
  unfold escapeHtml. cbn [stringOfValue]. split; [exact Hle|]. split.
  - intros Heq c Hc. destruct (htmlSpecial c) eqn:Hs; [|reflexivity].
    exfalso. assert (Hlong : (String.length s < String.length s)%nat); [|lia].
    rewrite <- Heq at 2. apply Hlt. eauto.
  - clear. induction s as [|a s IH]; [reflexivity|].
    intros Hsafe. cbn [replaceAllClass].
    rewrite (Hsafe a) by (left; reflexivity).
    f_equal. apply IH. intros c Hc. apply Hsafe. right. exact Hc.
Qed.

Lemma replaceAllChar_chars (x c : ascii) (r s : string) :
  In x (charsOf (replaceAllChar c r s)) ->
  (In x (charsOf s) /\ x <> c) \/ In x (charsOf r).
Proof.
  induction s as [|a s IH]; cbn [replaceAllChar]; [intros []|].
  destruct (Ascii.eqb a c) eqn:Hac.
  - rewrite charsOf_app, charsOf_cons. intros Hx.
    apply in_app_or in Hx as [Hx|Hx]; [right; exact Hx|].
    destruct (IH Hx) as [[Hs Hne]|Hr]; [left; split; [right; exact Hs|exact Hne]|right; exact Hr].
  - apply Ascii.eqb_neq in Hac. rewrite !charsOf_cons. intros [<-|Hx].
    + left. split; [left; reflexivity|exact Hac].
    + destruct (IH Hx) as [[Hs Hne]|Hr]; [left; split; [right; exact Hs|exact Hne]|right; exact Hr].
Qed.

Lemma replaceScriptClose_chars (x : ascii) (s : string) :
  forall skip,
    In x (charsOf (replaceScriptClose skip s)) ->
    In x (charsOf s) \/ In x (charsOf "<\/script").
Proof.
  induction s as [|a s IH]; intros skip; cbn [replaceScriptClose]; [intros []|].
  rewrite charsOf_cons.
  destruct skip as [|k].
  - destruct (String.prefix "</script" (toLowerCase (String a s))).
    + rewrite charsOf_app. intros Hx. apply in_app_or in Hx as [Hx|Hx]; [right; exact Hx|].
      destruct (IH _ Hx) as [Hs|Hr]; [left; right; exact Hs|right; exact Hr].
    + rewrite charsOf_cons. intros [<-|Hx]; [left; left; reflexivity|].
      destruct (IH _ Hx) as [Hs|Hr]; [left; right; exact Hs|right; exact Hr].
  - intros Hx. destruct (IH _ Hx) as [Hs|Hr]; [left; right; exact Hs|right; exact Hr].
Qed.

(** [includes], one character further on. *)
Lemma includes_cons (a : ascii) (s sub : string) :
  includes (String a s) sub = (String.prefix sub (String a s) || includes s sub)%bool.
Proof.
  unfold includes. cbn [String.index].
  destruct (String.prefix sub (String a s)); [reflexivity|].
  destruct (String.index 0 sub s); reflexivity.
Qed.

(** What [replaceScriptClose] returns starts like its argument, as far as no
    [<] comes. *)
Lemma replaceScriptClose_prefix (p : string) :
  (forall x, In x (charsOf p) -> x <> "<"%char) ->
  forall s,
    String.prefix p (toLowerCase (replaceScriptClose 0 s)) = true ->
    String.prefix p (toLowerCase s) = true.
Proof.
  induction p as [|c p IH]; intros Hp s; [destruct s; reflexivity|].
  destruct s as [|a s]; cbn [replaceScriptClose]; [intros H; exact H|].
  destruct (String.prefix "</script" (toLowerCase (String a s))).
  - change (toLowerCase ("<\/script" +:+ replaceScriptClose 7 s))
      with (String "<" (toLowerCase ("\/script" +:+ replaceScriptClose 7 s))).
    cbn [String.prefix]. destruct (ascii_dec c "<") as [->|Hne]; [|intros H; discriminate H].
    exfalso. apply (Hp "<"%char); [left; reflexivity|reflexivity].
  - cbn [toLowerCase String.prefix].
    destruct (ascii_dec c (lowerAscii a)); [|intros H; exact H].
    apply IH. intros x Hx. apply Hp. right. exact Hx.
Qed.

Lemma replaceScriptClose_clean (s : string) :
  forall skip,
    includes (toLowerCase (replaceScriptClose skip s)) "</script" = false.
Proof.
  induction s as [|a s IH]; intros skip; cbn [replaceScriptClose]; [reflexivity|].
  destruct skip as [|k]; [|apply IH].
  destruct (String.prefix "</script" (toLowerCase (String a s))) eqn:Hmatch.
  - change (toLowerCase ("<\/script" +:+ replaceScriptClose 7 s))
      with ("<\/script" +:+ toLowerCase (replaceScriptClose 7 s)).
    change ("<\/script" +:+ toLowerCase (replaceScriptClose 7 s))
      with (String "<" (String "\" (String "/" (String "s" (String "c" (String "r"
              (String "i" (String "p" (String "t"
                 (toLowerCase (replaceScriptClose 7 s))))))))))).
    rewrite !includes_cons. rewrite IH. reflexivity.
  - cbn [toLowerCase]. rewrite includes_cons, IH, orb_false_r.
    destruct (String.prefix "</script" (String (lowerAscii a) (toLowerCase (replaceScriptClose 0 s))))
      eqn:Hout; [|reflexivity].
    exfalso. cbn [toLowerCase] in Hmatch. cbn [String.prefix] in Hout, Hmatch.
    destruct (ascii_dec "<" (lowerAscii a)); [|discriminate Hout].
    apply (replaceScriptClose_prefix "/script") in Hout; [congruence|].
    intros x Hx. cbn in Hx.
    repeat (destruct Hx as [<-|Hx]; [discriminate|]). destruct Hx.
Qed.

(** X20.  The text [escapeJs] returns holds no line feed, no carriage return
    and no tab, and nowhere the text [</script], in whatever case it is
    written. *)
Theorem escapeJs_output_stays_inside_the_script (str : EscapableValue) :
  ~ In newlineChar (charsOf (escapeJs str)) /\
  ~ In returnChar (charsOf (escapeJs str)) /\
  ~ In tabChar (charsOf (escapeJs str)) /\
  includes (toLowerCase (escapeJs str)) "</script" = false.
Proof.
  assert (Hchars : forall value x,
            In x (charsOf
                    (replaceScriptClose 0
                       (replaceAllChar tabChar "\t"
                          (replaceAllChar returnChar "\r"
                             (replaceAllChar newlineChar "\n" value))))) ->
            x <> newlineChar /\ x <> returnChar /\ x <> tabChar).
  { intros value x Hx.
    apply replaceScriptClose_chars in Hx as [Hx|Hx].
    2: { cbn in Hx. repeat (destruct Hx as [<-|Hx]; [repeat split; discriminate|]).
         destruct Hx. }
    apply replaceAllChar_chars in Hx as [[Hx Htab]|Hx].
    2: { cbn in Hx. repeat (destruct Hx as [<-|Hx]; [repeat split; discriminate|]).
         destruct Hx. }
    apply replaceAllChar_chars in Hx as [[Hx Hcr]|Hx].
    2: { cbn in Hx. repeat (destruct Hx as [<-|Hx]; [repeat split; discriminate|]).
         destruct Hx. }
    apply replaceAllChar_chars in Hx as [[Hx Hlf]|Hx].
    2: { cbn in Hx. repeat (destruct Hx as [<-|Hx]; [repeat split; discriminate|]).
         destruct Hx. }
    auto. }
  unfold escapeJs.
  destruct str as [s|n| |]; cbv zeta;
    try (repeat split; [intros []|intros []|intros []]);
    (split; [intros Hx; apply Hchars in Hx as (H & _ & _); congruence|];
     split; [intros Hx; apply Hchars in Hx as (_ & H & _); congruence|];
     split; [intros Hx; apply Hchars in Hx as (_ & _ & H); congruence|];
     apply replaceScriptClose_clean).
Qed.

(** X21.  On a JSON text [safeJsonEncode] returns a text that holds no angle
    bracket, no ampersand and no apostrophe; on [undefined], which
    [JSON.stringify] gives for a value that has no JSON form, it throws. *)
Theorem safeJsonEncode_leaves_no_markup_character (json : string) :
  safeJsonEncode None = None /\
  exists out,
    safeJsonEncode (Some json) = Some out /\
    forall c, In c (charsOf out) ->
      c <> "<"%char /\ c <> ">"%char /\ c <> "&"%char /\ c <> "'"%char.
Proof.
  split; [reflexivity|].
  unfold safeJsonEncode. eexists. split; [reflexivity|]. intros c Hc.
  apply replaceAllChar_chars in Hc as [[Hc Hq]|Hc].
  2: { cbn in Hc. repeat (destruct Hc as [<-|Hc]; [repeat split; discriminate|]).
       destruct Hc. }
  apply replaceAllChar_chars in Hc as [[Hc Ha]|Hc].
  2: { cbn in Hc. repeat (destruct Hc as [<-|Hc]; [repeat split; discriminate|]).
       destruct Hc. }
  apply replaceAllChar_chars in Hc as [[Hc Hg]|Hc].
  2: { cbn in Hc. repeat (destruct Hc as [<-|Hc]; [repeat split; discriminate|]).
       destruct Hc. }
  apply replaceAllChar_chars in Hc as [[Hc Hl]|Hc].
  2: { cbn in Hc. repeat (destruct Hc as [<-|Hc]; [repeat split; discriminate|]).
       destruct Hc. }
  auto.
Qed.
